(** * Cargomail: the history-based synchronisation core of the repositories

    A shallow embedding of [internal/repository]'s Contact, Blob and Draft
    repositories (Create, List, Sync, Update, Trash, Untrash, Delete,
    GetBlobByUri).  Every repository method is a short Go function that
    sends SQL text to [database/sql]; the embedding gives each statement
    its relational meaning over tables kept as lists of rows, threads the
    connection through a small state-and-error monad, and keeps the
    control flow of the Go code (transactions, early returns, the mapping
    of driver errors to the repository's sentinel errors).

    Beside the repositories stand the provider's HTTP router with the
    route table of the service, the profile handler of the user API, and
    three pieces of the web clients: the drafts reducer, the grouping of
    messages into threads and the quoting of a sender in a reply. *)

From stdpp Require Import base option list sorting gmap strings.
From Stdlib Require Import ZArith Ascii.

Local Open Scope Z_scope.

(** ** SQL conditions

    A WHERE clause is evaluated in SQL's three-valued logic: a comparison
    with NULL is unknown, and a row is selected only when the condition is
    true.  The [device_id] columns and [user.DeviceId] are nullable. *)

Module Sql.

Definition tri : Type := option bool.

Definition eqz (a b : Z) : tri := Some (bool_decide (a = b)).
Definition nez (a b : Z) : tri := Some (bool_decide (a ≠ b)).
Definition ltz (a b : Z) : tri := Some (bool_decide (a < b)).
Definition gtz (a b : Z) : tri := Some (bool_decide (b < a)).
Definition eqs (a b : string) : tri := Some (bool_decide (a = b)).

(** [a <> b] on nullable text. *)
Definition ne (a b : option string) : tri :=
  match a, b with
  | Some x, Some y => Some (bool_decide (x ≠ y))
  | _, _ => None
  end.

Definition is_null {A} (a : option A) : tri :=
  Some (match a with None => true | Some _ => false end).

Definition and (a b : tri) : tri :=
  match a, b with
  | Some false, _ | _, Some false => Some false
  | Some true, Some true => Some true
  | _, _ => None
  end.

Definition or (a b : tri) : tri :=
  match a, b with
  | Some true, _ | _, Some true => Some true
  | Some false, Some false => Some false
  | _, _ => None
  end.

(** [x IN (values)] for non-null text. *)
Definition in_list (x : string) (values : list string) : tri :=
  Some (bool_decide (x ∈ values)).

(** The rows a WHERE clause keeps. *)
Definition holds (c : tri) : Prop := c = Some true.

#[global] Instance holds_dec c : Decision (holds c).
Proof. unfold holds. apply _. Defined.

Definition select {R} (cond : R → tri) (table : list R) : list R :=
  filter (λ r, holds (cond r)) table.

(** [ORDER BY created DESC]. *)
Definition desc {R} (created : R → Z) : relation R :=
  λ a b, created b ≤ created a.

#[global] Instance desc_dec {R} (created : R → Z) a b :
  Decision (desc created a b).
Proof. unfold desc. apply _. Defined.

Definition order_by_desc {R} (created : R → Z) (rows : list R) : list R :=
  merge_sort (desc created) rows.

End Sql.

Infix "&&&" := Sql.and (at level 40, left associativity).
Infix "|||" := Sql.or (at level 50, left associativity).

(** ** Errors

    [sqlerr] is what [database/sql] hands back: the [sql.ErrNoRows]
    sentinel or a driver error with its text.  [error] adds the
    repository's own sentinels. *)

Inductive sqlerr : Type :=
  | ErrNoRows
  | Failed (msg : string).

Definition Error (e : sqlerr) : string :=
  match e with
  | ErrNoRows => "sql: no rows in result set"
  | Failed msg => msg
  end.

Inductive error : Type :=
  | SqlErr (e : sqlerr)
  | ErrContactNotFound
  | ErrDuplicateContact
  | ErrBlobNotFound
  | ErrDraftNotFound.

Inductive Result (A : Type) : Type :=
  | Ok (a : A)
  | Err (e : error).
Arguments Ok {A} a.
Arguments Err {A} e.

(** The text SQLite reports when the unique index of the contact table
    rejects a row (the string [Create] and [Update] compare against). *)
Definition unique_contact_msg : string :=
  "UNIQUE constraint failed: contact.email_address, contact.firstname, contact.lastname".

Definition deadline_exceeded : sqlerr := Failed "context deadline exceeded".
Definition malformed_json : sqlerr := Failed "malformed JSON".

(** ** The connection

    A connection holds the repository's tables and a schedule of storage
    faults: each round trip to the storage consumes the head of the
    schedule and fails (deadline, I/O) when it is [true].  An exhausted
    schedule means no further fault. *)

Record Conn (T : Type) : Type := MkConn { tables : T; faults : list bool }.
Arguments MkConn {T} tables faults.
Arguments tables {T} c.
Arguments faults {T} c.

Definition DB (T A : Type) : Type := Conn T → Result A * Conn T.

#[global] Instance DB_ret {T} : MRet (DB T) := λ A a c, (Ok a, c).

#[global] Instance DB_bind {T} : MBind (DB T) := λ A B k m c,
  match m c with
  | (Ok a, c') => k a c'
  | (Err e, c') => (Err e, c')
  end.

Definition round_trip {T} : DB T unit :=
  λ c, match faults c with
       | true :: fl => (Err (SqlErr deadline_exceeded), MkConn (tables c) fl)
       | false :: fl => (Ok tt, MkConn (tables c) fl)
       | [] => (Ok tt, c)
       end.

Definition get_tables {T} : DB T T := λ c, (Ok (tables c), c).
Definition put_tables {T} (t : T) : DB T unit := λ c, (Ok tt, MkConn t (faults c)).
Definition fail {T A} (e : error) : DB T A := λ c, (Err e, c).

(** [tx.QueryContext] followed by the [rows.Next]/[rows.Scan] loop. *)
Definition QueryContext {T R} (query : T → list R) : DB T (list R) :=
  round_trip;;
  t ← get_tables;
  mret (query t).

(** [QueryRowContext(...).Scan(...)]: the first row, or [sql.ErrNoRows]. *)
Definition QueryRowContext {T R} (query : T → list R) : DB T R :=
  round_trip;;
  t ← get_tables;
  match query t with
  | r :: _ => mret r
  | [] => fail (SqlErr ErrNoRows)
  end.

(** [ExecContext]: a statement either fails and changes nothing, or
    replaces the tables. *)
Definition ExecContext {T} (stmt : T → sqlerr + T) : DB T unit :=
  round_trip;;
  t ← get_tables;
  match stmt t with
  | inl e => fail (SqlErr e)
  | inr t' => put_tables t'
  end.

(** [QueryRowContext] of a statement with [RETURNING *]: the statement
    runs, and the first returned row is scanned. *)
Definition QueryRowReturning {T R} (stmt : T → sqlerr + (list R * T)) : DB T R :=
  round_trip;;
  t ← get_tables;
  match stmt t with
  | inl e => fail (SqlErr e)
  | inr (r :: _, t') => put_tables t';; mret r
  | inr ([], t') => put_tables t';; fail (SqlErr ErrNoRows)
  end.

(** [BeginTx] ... [defer tx.Rollback()] ... [tx.Commit()]: the body works
    on the transaction's view; unless the commit is reached and succeeds,
    the deferred rollback restores the tables the transaction started
    from. *)
Definition transaction {T A} (body : DB T A) : DB T A :=
  λ c, match round_trip c with
       | (Err e, c1) => (Err e, c1)
       | (Ok _, c1) =>
         match body c1 with
         | (Err e, c2) => (Err e, MkConn (tables c) (faults c2))
         | (Ok a, c2) =>
           match round_trip c2 with
           | (Err e, c3) => (Err e, MkConn (tables c) (faults c3))
           | (Ok _, c3) => (Ok a, c3)
           end
         end
       end.

(** ** What lies outside the repository files

    Parameters for what the repository files use but do not define.
    [getPrefixedDeviceId] is a helper of the package, called on
    [user.DeviceId] before every write to an entity table.  [json_each] is
    SQLite's table-valued function, with its optional path ([None] as a
    result: the text is not well-formed JSON).  [deviceColumn v] is what an
    entity table keeps in its [deviceId] column once a statement has
    written [v] to it: the tables are defined elsewhere, with their
    defaults and triggers, and the data model describes the column as "the
    device that performed the most recent mutation".  A table that keeps
    what is written has [deviceColumn v = v]. *)

Class Outside : Type := {
  getPrefixedDeviceId : option string → option string;
  deviceColumn : option string → option string;
  json_each : string → option string → option (list string);
}.

(** The authenticated user, as far as the repositories read it
    ([user.Id], [user.DeviceId]); the device id is nullable like the
    columns it is compared with. *)
Module User.
Record t : Type := Mk { Id : Z; DeviceId : option string }.
End User.

(** The client's last-seen history id ([history.Id]). *)
Module History.
Record t : Type := Mk { Id : Z }.
End History.

(** The device-exclusion filter shared by all Sync queries:
    [(device_id <> $2 OR device_id IS NULL)]. *)
Definition not_from_device (rowDevice callerDevice : option string) : Sql.tri :=
  Sql.ne rowDevice callerDevice ||| Sql.is_null rowDevice.

(** The rows of the single-row-per-user sequence table for one user. *)
Definition seq_rows (uid : Z) (seq : gmap Z Z) : list Z :=
  match seq !! uid with
  | Some h => [h]
  | None => []
  end.

(** ** The tables' definitions

    The repository files hold the statements; the tables they run against
    (column defaults, the unique index of the contact table, the row
    triggers that keep [historyId], [lastStmt] and [modifiedAt], the
    tombstone tables) are created elsewhere.  The definitions of this
    section stand for that part. *)

(** Modelled from the spec: the History Sequencer, whose table definition
    is not among the repository files.  It keeps one counter per user and
    "assigns the next history id on every mutating write". *)
Definition next_history (uid : Z) (seq : gmap Z Z) : Z * gmap Z Z :=
  let h := default 0 (seq !! uid) + 1 in
  (h, <[uid := h]> seq).

(** What the table fills in for the columns an INSERT does not name.
    [Id] and [Now] are the generated id and the creation time;
    [DefaultTimelineId] and [DefaultHistoryId] are the column defaults the
    row holds when the INSERT hands it back, before any trigger has run;
    [TimelineId] is the timeline id of the row once it is stored. *)
Module Defaults.
Record t : Type := Mk {
  Id : string;
  Now : Z;
  TimelineId : Z;
  DefaultTimelineId : Z;
  DefaultHistoryId : Z;
}.
End Defaults.

Section statements.
Context {R : Type} (owner : R → Z).

(** [UPDATE table SET ... WHERE cond].  The rows the condition holds for
    are rewritten by [set]; the result is the new table, the rewritten
    rows as the table then holds them, and the sequence table.  Modelled
    from the spec: for each rewritten row the sequencer advances and the
    row trigger [after] stamps the row with the new history id ("set to
    the then-current sequencer value on every insert, update, trash, or
    untrash"); the triggers are not among the repository files. *)
Fixpoint update_where (cond : R → Sql.tri) (set : R → R) (after : Z → R → R)
    (table : list R) (seq : gmap Z Z) : list R * list R * gmap Z Z :=
  match table with
  | [] => ([], [], seq)
  | r :: rest =>
    if decide (Sql.holds (cond r)) then
      let '(h, seq1) := next_history (owner r) seq in
      let '(rest', stamped, seq2) := update_where cond set after rest seq1 in
      let r' := after h (set r) in
      (r' :: rest', r' :: stamped, seq2)
    else
      let '(rest', stamped, seq2) := update_where cond set after rest seq in
      (r :: rest', stamped, seq2)
  end.

(** What [RETURNING *] of an UPDATE yields: the rows the condition holds
    for, as the statement wrote them.  A row trigger runs after the
    statement has written the row, so what it stamps (history id,
    lastStmt, modifiedAt) is not in the returned row, and the device id
    is the text the statement was given. *)
Definition returning_where (cond : R → Sql.tri) (written : R → R)
    (table : list R) : list R :=
  written <$> Sql.select cond table.

(** What [update_where] does to one row, between the sequence table
    before and after the statement: a row the condition holds for is
    rewritten and stamped with a history id above its user's previous
    mark; the other rows stay as they are. *)
Definition rewritten (cond : R → Sql.tri) (set : R → R) (after : Z → R → R)
    (seq seq' : gmap Z Z) (r r' : R) : Prop :=
  if decide (Sql.holds (cond r))
  then ∃ h, r' = after h (set r) ∧
            default 0 (seq !! owner r) < h ≤ default 0 (seq' !! owner r)
  else r' = r.

(** [UPDATE table SET ... WHERE cond] on a table without row triggers. *)
Definition rewrite_where (cond : R → Sql.tri) (set : R → R) (table : list R)
    : list R :=
  (λ r, if decide (Sql.holds (cond r)) then set r else r) <$> table.

(** [DELETE FROM table WHERE cond]: the rows that stay. *)
Definition delete_where (cond : R → Sql.tri) (table : list R) : list R :=
  filter (λ r, ¬ Sql.holds (cond r)) table.

(** Modelled from the spec: the tombstones of a Tombstone Store, written
    when rows are removed ("Delete removes it from the Entity Store
    entirely while inserting (for Blob ...) a corresponding Tombstone",
    with "historyId (stamped at deletion time)"); the table definition is
    not among the repository files. *)
Fixpoint bury {D : Type} (tombstone : Z → R → D) (gone : list R)
    (seq : gmap Z Z) : list D * gmap Z Z :=
  match gone with
  | [] => ([], seq)
  | r :: rest =>
    let '(h, seq1) := next_history (owner r) seq in
    let '(ds, seq2) := bury tombstone rest seq1 in
    (tombstone h r :: ds, seq2)
  end.

End statements.

(** The id list of a bulk request: [SELECT value FROM json_each($n)] or
    [json_each($n, path)]. *)
Definition id_values `{Outside} (idList : string) (path : option string)
    : sqlerr + list string :=
  match json_each idList path with
  | Some values => inr values
  | None => inl malformed_json
  end.

(** The three bulk requests of the API. *)
Module Bulk.
Inductive op : Type := Trash | Untrash | Delete.
End Bulk.

(** Go's [switch] over a returned error: driver errors are mapped, the
    rest passes through. *)
Definition map_err {T A} (handler : sqlerr → error) (m : DB T A) : DB T A :=
  λ c, match m c with
       | (Err (SqlErr e), c') => (Err (handler e), c')
       | other => other
       end.

(** [errors.Is(err, sql.ErrNoRows)] *)
Definition is_ErrNoRows (e : sqlerr) : bool :=
  match e with
  | ErrNoRows => true
  | Failed _ => false
  end.

(** ** Contacts *)

Module Contact.
Record t : Type := Mk {
  Id : string;
  UserId : Z;
  EmailAddress : option string;
  FirstName : option string;
  LastName : option string;
  CreatedAt : Z;
  ModifiedAt : option Z;
  TimelineId : Z;
  HistoryId : Z;
  LastStmt : Z;
  DeviceId : option string;
}.

(** [SET last_stmt = k, device_id = dev] *)
Definition set_last_stmt (k : Z) (dev : option string) (c : t) : t :=
  Mk (Id c) (UserId c) (EmailAddress c) (FirstName c) (LastName c)
     (CreatedAt c) (ModifiedAt c) (TimelineId c) (HistoryId c) k dev.

(** [SET email_address = $1, firstname = $2, lastname = $3, device_id = $4] *)
Definition set_fields (email first last dev : option string) (c : t) : t :=
  Mk (Id c) (UserId c) email first last
     (CreatedAt c) (ModifiedAt c) (TimelineId c) (HistoryId c) (LastStmt c) dev.

(** Modelled from the spec: the row trigger of a trash or untrash, which
    the repository files do not hold ("bumps historyId"). *)
Definition stamp (h : Z) (c : t) : t :=
  Mk (Id c) (UserId c) (EmailAddress c) (FirstName c) (LastName c)
     (CreatedAt c) (ModifiedAt c) (TimelineId c) h (LastStmt c) (DeviceId c).

(** Modelled from the spec: the row trigger of an update, which the
    repository files do not hold ("bumps historyId, lastStmt→1", "sets
    modifiedAt"). *)
Definition stamp_update (now : Z) (h : Z) (c : t) : t :=
  Mk (Id c) (UserId c) (EmailAddress c) (FirstName c) (LastName c)
     (CreatedAt c) (Some now) (TimelineId c) h 1 (DeviceId c).

(** The columns of the unique index named by the error text that [Create]
    and [Update] compare against; a NULL in any of them never collides. *)
Definition identity (c : t) : option (string * string * string) :=
  match EmailAddress c, FirstName c, LastName c with
  | Some e, Some f, Some l => Some (e, f, l)
  | _, _, _ => None
  end.

Definition holders (c : t) (table : list t) : list t :=
  filter (λ o, is_Some (identity c) ∧ identity o = identity c) table.

(** A statement violates the index when a row it wrote shares its
    identity with another row of the resulting table. *)
Definition unique_violation (written table : list t) : Prop :=
  Exists (λ c, (1 < length (holders c table))%nat) written.

(** The rows [UPDATE ... WHERE user_id = uid AND id = id AND last_stmt <> 2]
    rewrites. *)
Definition updatable (uid : Z) (id : string) (c : t) : Prop :=
  UserId c = uid ∧ Id c = id ∧ LastStmt c ≠ 2.

(** Writing the identity of [contact] to the rows an update rewrites
    collides when no part of it is NULL and, once written, more than one
    row holds it. *)
Definition collides (contact : t) (uid : Z) (table : list t) : Prop :=
  is_Some (identity contact) ∧
  (1 < length (filter (updatable uid (Id contact)) table) +
       length (filter (λ o, ¬ updatable uid (Id contact) o ∧
                            identity o = identity contact) table))%nat.

#[global] Instance unique_violation_dec written table :
  Decision (unique_violation written table).
Proof. unfold unique_violation. apply _. Defined.
End Contact.

Module ContactDeleted.
Record t : Type := Mk {
  Id : string;
  UserId : Z;
  HistoryId : Z;
  DeviceId : option string;
}.
End ContactDeleted.

Module ContactList.
Record t : Type := Mk {
  History : Z;
  Contacts : list Contact.t;
}.
End ContactList.

Module ContactSync.
Record t : Type := Mk {
  History : Z;
  ContactsInserted : list Contact.t;
  ContactsUpdated : list Contact.t;
  ContactsTrashed : list Contact.t;
  ContactsDeleted : list ContactDeleted.t;
}.
End ContactSync.

(** The tables the contact repository's statements name. *)
Module ContactTables.
Record t : Type := Mk {
  contact : list Contact.t;
  contact_deleted : list ContactDeleted.t;
  contact_history_seq : gmap Z Z;
}.
End ContactTables.

Module ContactRepository.
Import ContactTables.

(** [WHERE user_id = $1 AND last_stmt < 2] *)
Definition list_where (user : User.t) (c : Contact.t) : Sql.tri :=
  Sql.eqz (Contact.UserId c) (User.Id user) &&&
  Sql.ltz (Contact.LastStmt c) 2.

(** [WHERE user_id = $1 AND last_stmt = k AND
    (device_id <> $2 OR device_id IS NULL) AND history_id > $3] *)
Definition sync_where (k : Z) (user : User.t) (history : History.t)
    (c : Contact.t) : Sql.tri :=
  Sql.eqz (Contact.UserId c) (User.Id user) &&&
  Sql.eqz (Contact.LastStmt c) k &&&
  not_from_device (Contact.DeviceId c) (User.DeviceId user) &&&
  Sql.gtz (Contact.HistoryId c) (History.Id history).

(** [WHERE user_id = $1 AND (device_id <> $2 OR device_id IS NULL) AND
    history_id > $3] on [contact_deleted]. *)
Definition deleted_where (user : User.t) (history : History.t)
    (d : ContactDeleted.t) : Sql.tri :=
  Sql.eqz (ContactDeleted.UserId d) (User.Id user) &&&
  not_from_device (ContactDeleted.DeviceId d) (User.DeviceId user) &&&
  Sql.gtz (ContactDeleted.HistoryId d) (History.Id history).

Definition select_history (user : User.t) (t : ContactTables.t) : list Z :=
  seq_rows (User.Id user) (contact_history_seq t).

Definition List (user : User.t) : DB ContactTables.t ContactList.t :=
  transaction (
    contacts ← QueryContext (λ t,
      Sql.order_by_desc Contact.CreatedAt
        (Sql.select (list_where user) (contact t)));
    history ← QueryRowContext (select_history user);
    mret (ContactList.Mk history contacts)).

Definition Sync (user : User.t) (history : History.t)
    : DB ContactTables.t ContactSync.t :=
  transaction (
    inserted ← QueryContext (λ t,
      Sql.order_by_desc Contact.CreatedAt
        (Sql.select (sync_where 0 user history) (contact t)));
    updated ← QueryContext (λ t,
      Sql.order_by_desc Contact.CreatedAt
        (Sql.select (sync_where 1 user history) (contact t)));
    trashed ← QueryContext (λ t,
      Sql.order_by_desc Contact.CreatedAt
        (Sql.select (sync_where 2 user history) (contact t)));
    deleted ← QueryContext (λ t,
      Sql.select (deleted_where user history) (contact_deleted t));
    last ← QueryRowContext (select_history user);
    mret (ContactSync.Mk last inserted updated trashed deleted)).

Section writes.
Context `{Outside}.

(** [INSERT INTO contact (user_id, device_id, email_address, firstname,
    lastname) VALUES ($1, $2, $3, $4, $5) RETURNING *].  [returning] is
    the row as the statement wrote it: the values given and the column
    defaults.  [row] is the row the table then holds.  Modelled from the
    spec for the columns of [row] the statement does not name: "inserts
    with lastStmt=0 ... historyId = sequencer.next()". *)
Definition insert_contact (d : Defaults.t) (uid : Z)
    (dev email first last : option string) (t : ContactTables.t)
    : sqlerr + (list Contact.t * ContactTables.t) :=
  let '(h, seq) := next_history uid (contact_history_seq t) in
  let returning :=
    Contact.Mk (Defaults.Id d) uid email first last (Defaults.Now d) None
               (Defaults.DefaultTimelineId d) (Defaults.DefaultHistoryId d) 0
               dev in
  let row :=
    Contact.Mk (Defaults.Id d) uid email first last (Defaults.Now d) None
               (Defaults.TimelineId d) h 0 (deviceColumn dev) in
  let table := contact t ++ [row] in
  if decide (Contact.unique_violation [row] table)
  then inl (Failed unique_contact_msg)
  else inr ([returning], ContactTables.Mk table (contact_deleted t) seq).

Definition Create (d : Defaults.t) (user : User.t) (contact : Contact.t)
    : DB ContactTables.t Contact.t :=
  let prefixedDeviceId := getPrefixedDeviceId (User.DeviceId user) in
  map_err
    (λ e, if String.eqb (Error e) unique_contact_msg
          then ErrDuplicateContact
          else SqlErr e)
    (QueryRowReturning
       (insert_contact d (User.Id user) prefixedDeviceId
          (Contact.EmailAddress contact) (Contact.FirstName contact)
          (Contact.LastName contact))).

(** [WHERE user_id = $5 AND id = $6 AND last_stmt <> 2] *)
Definition update_cond (uid : Z) (id : string) (c : Contact.t) : Sql.tri :=
  Sql.eqz (Contact.UserId c) uid &&&
  Sql.eqs (Contact.Id c) id &&&
  Sql.nez (Contact.LastStmt c) 2.

(** [UPDATE contact SET email_address = $1, firstname = $2, lastname = $3,
    device_id = $4 WHERE ... RETURNING *] *)
Definition update_contact (now : Z) (email first last dev : option string)
    (uid : Z) (id : string) (t : ContactTables.t)
    : sqlerr + (list Contact.t * ContactTables.t) :=
  let '(table, rewritten, seq) :=
    update_where Contact.UserId (update_cond uid id)
      (Contact.set_fields email first last (deviceColumn dev))
      (Contact.stamp_update now)
      (contact t) (contact_history_seq t) in
  let returning :=
    returning_where (update_cond uid id)
      (Contact.set_fields email first last dev) (contact t) in
  if decide (Contact.unique_violation rewritten table)
  then inl (Failed unique_contact_msg)
  else inr (returning, ContactTables.Mk table (contact_deleted t) seq).

Definition Update (now : Z) (user : User.t) (contact : Contact.t)
    : DB ContactTables.t Contact.t :=
  let prefixedDeviceId := getPrefixedDeviceId (User.DeviceId user) in
  map_err
    (λ e, if is_ErrNoRows e then ErrContactNotFound
          else if String.eqb (Error e) unique_contact_msg
          then ErrDuplicateContact
          else SqlErr e)
    (QueryRowReturning
       (update_contact now
          (Contact.EmailAddress contact) (Contact.FirstName contact)
          (Contact.LastName contact) prefixedDeviceId
          (User.Id user) (Contact.Id contact))).

(** [WHERE user_id = $2 AND id IN (SELECT value FROM json_each($3))] *)
Definition bulk_cond (uid : Z) (values : list string) (c : Contact.t) : Sql.tri :=
  Sql.eqz (Contact.UserId c) uid &&&
  Sql.in_list (Contact.Id c) values.

(** [UPDATE contact SET last_stmt = k, device_id = $1 WHERE ...] *)
Definition update_last_stmt (k : Z) (dev : option string) (uid : Z)
    (idList : string) (t : ContactTables.t) : sqlerr + ContactTables.t :=
  match id_values idList None with
  | inl e => inl e
  | inr values =>
    let '(table, _, seq) :=
      update_where Contact.UserId (bulk_cond uid values)
        (Contact.set_last_stmt k (deviceColumn dev)) Contact.stamp
        (contact t) (contact_history_seq t) in
    inr (ContactTables.Mk table (contact_deleted t) seq)
  end.

Definition Trash (user : User.t) (idList : string) : DB ContactTables.t unit :=
  if decide (0 < String.length idList)%nat then
    let prefixedDeviceId := getPrefixedDeviceId (User.DeviceId user) in
    ExecContext (update_last_stmt 2 prefixedDeviceId (User.Id user) idList)
  else mret tt.

Definition Untrash (user : User.t) (idList : string) : DB ContactTables.t unit :=
  if decide (0 < String.length idList)%nat then
    let prefixedDeviceId := getPrefixedDeviceId (User.DeviceId user) in
    ExecContext (update_last_stmt 0 prefixedDeviceId (User.Id user) idList)
  else mret tt.

(** [DELETE FROM contact WHERE user_id = $1 AND
    id IN (SELECT value FROM json_each($2))] *)
Definition delete_contacts (uid : Z) (idList : string) (t : ContactTables.t)
    : sqlerr + ContactTables.t :=
  match id_values idList None with
  | inl e => inl e
  | inr values =>
    inr (ContactTables.Mk (delete_where (bulk_cond uid values) (contact t))
           (contact_deleted t) (contact_history_seq t))
  end.

Definition Delete (user : User.t) (idList : string) : DB ContactTables.t unit :=
  if decide (0 < String.length idList)%nat then
    ExecContext (delete_contacts (User.Id user) idList)
  else mret tt.

Definition bulk (o : Bulk.op) : User.t → string → DB ContactTables.t unit :=
  match o with
  | Bulk.Trash => Trash
  | Bulk.Untrash => Untrash
  | Bulk.Delete => Delete
  end.

End writes.
End ContactRepository.

(** ** Blobs *)

Module Blob.
Record t : Type := Mk {
  Uri : string;
  UserId : Z;
  Hash : string;
  Name : string;
  Snippet : string;
  Path : string;
  Size : Z;
  ContentType : string;
  CreatedAt : Z;
  ModifiedAt : option Z;
  TimelineId : Z;
  HistoryId : Z;
  LastStmt : Z;
  DeviceId : option string;
}.

(** [&Blob{}] *)
Definition zero : t := Mk "" 0 "" "" "" "" 0 "" 0 None 0 0 0 None.

(** The rows a point lookup finds: the user's row with that uri and
    [lastStmt < 2]. *)
Definition findable (uid : Z) (uri : string) (b : t) : Prop :=
  UserId b = uid ∧ Uri b = uri ∧ LastStmt b < 2.

(** [SET "lastStmt" = k, "deviceId" = dev] *)
Definition set_last_stmt (k : Z) (dev : option string) (b : t) : t :=
  Mk (Uri b) (UserId b) (Hash b) (Name b) (Snippet b) (Path b) (Size b)
     (ContentType b) (CreatedAt b) (ModifiedAt b) (TimelineId b)
     (HistoryId b) k dev.

(** [SET "hash" = $1, "snippet" = $2, "size" = $3, "deviceId" = $4] *)
Definition set_fields (hash snippet : string) (size : Z) (dev : option string)
    (b : t) : t :=
  Mk (Uri b) (UserId b) hash (Name b) snippet (Path b) size
     (ContentType b) (CreatedAt b) (ModifiedAt b) (TimelineId b)
     (HistoryId b) (LastStmt b) dev.

(** Modelled from the spec: the row trigger of a trash or untrash, which
    the repository files do not hold ("bumps historyId"). *)
Definition stamp (h : Z) (b : t) : t :=
  Mk (Uri b) (UserId b) (Hash b) (Name b) (Snippet b) (Path b) (Size b)
     (ContentType b) (CreatedAt b) (ModifiedAt b) (TimelineId b)
     h (LastStmt b) (DeviceId b).

(** Modelled from the spec: the row trigger of an update, which the
    repository files do not hold ("bumps historyId, lastStmt→1", "sets
    modifiedAt"). *)
Definition stamp_update (now : Z) (h : Z) (b : t) : t :=
  Mk (Uri b) (UserId b) (Hash b) (Name b) (Snippet b) (Path b) (Size b)
     (ContentType b) (CreatedAt b) (Some now) (TimelineId b)
     h 1 (DeviceId b).

(** The rows [UPDATE ... WHERE "userId" = uid AND "uri" = uri AND
    "lastStmt" <> 2] rewrites. *)
Definition updatable (uid : Z) (uri : string) (b : t) : Prop :=
  UserId b = uid ∧ Uri b = uri ∧ LastStmt b ≠ 2.
End Blob.

Module BlobDeleted.
Record t : Type := Mk {
  Uri : string;
  UserId : Z;
  HistoryId : Z;
  DeviceId : option string;
}.

(** [SET "deviceId" = $1] *)
Definition set_device (dev : option string) (d : t) : t :=
  Mk (Uri d) (UserId d) (HistoryId d) dev.

(** Modelled from the spec: the tombstone of a removed blob, "stamped
    with history id"; the attribution is left to the statement that
    follows the removal. *)
Definition of_blob (h : Z) (b : Blob.t) : t :=
  Mk (Blob.Uri b) (Blob.UserId b) h None.
End BlobDeleted.

Module BlobList.
Record t : Type := Mk {
  History : Z;
  Blobs : list Blob.t;
}.
End BlobList.

Module BlobSync.
Record t : Type := Mk {
  History : Z;
  BlobsInserted : list Blob.t;
  BlobsUpdated : list Blob.t;
  BlobsTrashed : list Blob.t;
  BlobsDeleted : list BlobDeleted.t;
}.
End BlobSync.

Module BlobTables.
Record t : Type := Mk {
  Blob : list Blob.t;
  BlobDeleted : list BlobDeleted.t;
  BlobHistorySeq : gmap Z Z;
}.
End BlobTables.

Module BlobRepository.

(** [WHERE "userId" = $1 AND "lastStmt" < 2] *)
Definition list_where (user : User.t) (b : Blob.t) : Sql.tri :=
  Sql.eqz (Blob.UserId b) (User.Id user) &&&
  Sql.ltz (Blob.LastStmt b) 2.

(** [WHERE "userId" = $1 AND ("deviceId" <> $2 OR "deviceId" IS NULL) AND
    "lastStmt" = k AND "historyId" > $3] (the inserted and trashed
    queries; the updated query tests ["lastStmt"] first). *)
Definition sync_where (k : Z) (user : User.t) (history : History.t)
    (b : Blob.t) : Sql.tri :=
  Sql.eqz (Blob.UserId b) (User.Id user) &&&
  not_from_device (Blob.DeviceId b) (User.DeviceId user) &&&
  Sql.eqz (Blob.LastStmt b) k &&&
  Sql.gtz (Blob.HistoryId b) (History.Id history).

(** [WHERE "userId" = $1 AND "lastStmt" = 1 AND
    ("deviceId" <> $2 OR "deviceId" IS NULL) AND "historyId" > $3] *)
Definition updated_where (user : User.t) (history : History.t)
    (b : Blob.t) : Sql.tri :=
  Sql.eqz (Blob.UserId b) (User.Id user) &&&
  Sql.eqz (Blob.LastStmt b) 1 &&&
  not_from_device (Blob.DeviceId b) (User.DeviceId user) &&&
  Sql.gtz (Blob.HistoryId b) (History.Id history).

(** [WHERE "userId" = $1 AND ("deviceId" <> $2 OR "deviceId" IS NULL) AND
    "historyId" > $3] on ["BlobDeleted"]. *)
Definition deleted_where (user : User.t) (history : History.t)
    (d : BlobDeleted.t) : Sql.tri :=
  Sql.eqz (BlobDeleted.UserId d) (User.Id user) &&&
  not_from_device (BlobDeleted.DeviceId d) (User.DeviceId user) &&&
  Sql.gtz (BlobDeleted.HistoryId d) (History.Id history).

Definition select_history (user : User.t) (t : BlobTables.t) : list Z :=
  seq_rows (User.Id user) (BlobTables.BlobHistorySeq t).

(** The blob query has no ORDER BY: the rows come in table order. *)
Definition List (user : User.t) : DB BlobTables.t BlobList.t :=
  transaction (
    blobs ← QueryContext (λ t,
      Sql.select (list_where user) (BlobTables.Blob t));
    history ← QueryRowContext (select_history user);
    mret (BlobList.Mk history blobs)).

Definition Sync (user : User.t) (history : History.t)
    : DB BlobTables.t BlobSync.t :=
  transaction (
    inserted ← QueryContext (λ t,
      Sql.order_by_desc Blob.CreatedAt
        (Sql.select (sync_where 0 user history) (BlobTables.Blob t)));
    updated ← QueryContext (λ t,
      Sql.order_by_desc Blob.CreatedAt
        (Sql.select (updated_where user history) (BlobTables.Blob t)));
    trashed ← QueryContext (λ t,
      Sql.order_by_desc Blob.CreatedAt
        (Sql.select (sync_where 2 user history) (BlobTables.Blob t)));
    deleted ← QueryContext (λ t,
      Sql.select (deleted_where user history) (BlobTables.BlobDeleted t));
    last ← QueryRowContext (select_history user);
    mret (BlobSync.Mk last inserted updated trashed deleted)).

(** [WHERE "userId" = $1 AND "uri" = $2 AND "lastStmt" < 2] *)
Definition by_uri_where (uid : Z) (uri : string) (b : Blob.t) : Sql.tri :=
  Sql.eqz (Blob.UserId b) uid &&&
  Sql.eqs (Blob.Uri b) uri &&&
  Sql.ltz (Blob.LastStmt b) 2.

(** The method returns a pair: the blob, and the error or [nil]. *)
Definition GetBlobByUri (user : User.t) (uri : string)
    : Conn BlobTables.t → (Blob.t * option error) * Conn BlobTables.t :=
  λ c,
    match QueryRowContext
            (λ t, Sql.select (by_uri_where (User.Id user) uri) (BlobTables.Blob t)) c
    with
    | (Ok blob, c') => ((blob, None), c')
    | (Err (SqlErr e), c') =>
      if String.eqb (Error e) "sql: no rows in result set"
      then ((Blob.zero, None), c')
      else ((Blob.zero, Some (SqlErr e)), c')
    | (Err e, c') => ((Blob.zero, Some e), c')
    end.

Section writes.
Context `{Outside}.

Definition uris_path : option string := Some "$.uris".

(** ["userId" = $1 AND "uri" IN (SELECT value FROM json_each($2, '$.uris'))] *)
Definition bulk_cond (uid : Z) (values : list string) (b : Blob.t) : Sql.tri :=
  Sql.eqz (Blob.UserId b) uid &&&
  Sql.in_list (Blob.Uri b) values.

Definition deleted_cond (uid : Z) (values : list string) (d : BlobDeleted.t)
    : Sql.tri :=
  Sql.eqz (BlobDeleted.UserId d) uid &&&
  Sql.in_list (BlobDeleted.Uri d) values.

(** [DELETE FROM "Blob" WHERE ...], with the tombstones of the removed
    rows. *)
Definition delete_blobs (uid : Z) (uris : string) (t : BlobTables.t)
    : sqlerr + BlobTables.t :=
  match id_values uris uris_path with
  | inl e => inl e
  | inr values =>
    let gone := Sql.select (bulk_cond uid values) (BlobTables.Blob t) in
    let '(tombstones, seq) :=
      bury Blob.UserId BlobDeleted.of_blob gone (BlobTables.BlobHistorySeq t) in
    inr (BlobTables.Mk
           (delete_where (bulk_cond uid values) (BlobTables.Blob t))
           (BlobTables.BlobDeleted t ++ tombstones)
           seq)
  end.

(** [UPDATE "BlobDeleted" SET "deviceId" = $1 WHERE ...] *)
Definition stamp_deleted (dev : option string) (uid : Z) (uris : string)
    (t : BlobTables.t) : sqlerr + BlobTables.t :=
  match id_values uris uris_path with
  | inl e => inl e
  | inr values =>
    inr (BlobTables.Mk
           (BlobTables.Blob t)
           (rewrite_where (deleted_cond uid values) (BlobDeleted.set_device dev)
              (BlobTables.BlobDeleted t))
           (BlobTables.BlobHistorySeq t))
  end.

Definition Delete (user : User.t) (uris : string) : DB BlobTables.t unit :=
  if decide (0 < String.length uris)%nat then
    transaction (
      ExecContext (delete_blobs (User.Id user) uris);;
      ExecContext (stamp_deleted (User.DeviceId user) (User.Id user) uris))
  else mret tt.

(** [INSERT INTO "Blob" ("userId", "deviceId", "hash", "name", "snippet",
    "path", "contentType", "size") VALUES ($1, ..., $8) RETURNING *].
    [returning] is the row as the statement wrote it: the values given
    and the column defaults.  [row] is the row the table then holds.
    Modelled from the spec for the columns of [row] the statement does
    not name: "inserts with lastStmt=0 ... historyId =
    sequencer.next()". *)
Definition insert_blob (d : Defaults.t) (uid : Z) (dev : option string)
    (hash name snippet path contentType : string) (size : Z)
    (t : BlobTables.t) : sqlerr + (list Blob.t * BlobTables.t) :=
  let '(h, seq) := next_history uid (BlobTables.BlobHistorySeq t) in
  let returning :=
    Blob.Mk (Defaults.Id d) uid hash name snippet path size contentType
            (Defaults.Now d) None (Defaults.DefaultTimelineId d)
            (Defaults.DefaultHistoryId d) 0 dev in
  let row :=
    Blob.Mk (Defaults.Id d) uid hash name snippet path size contentType
            (Defaults.Now d) None (Defaults.TimelineId d) h 0
            (deviceColumn dev) in
  inr ([returning],
       BlobTables.Mk (BlobTables.Blob t ++ [row]) (BlobTables.BlobDeleted t) seq).

Definition Create (d : Defaults.t) (user : User.t) (blob : Blob.t)
    : DB BlobTables.t Blob.t :=
  let prefixedDeviceId := getPrefixedDeviceId (User.DeviceId user) in
  QueryRowReturning
    (insert_blob d (User.Id user) prefixedDeviceId
       (Blob.Hash blob) (Blob.Name blob) (Blob.Snippet blob) (Blob.Path blob)
       (Blob.ContentType blob) (Blob.Size blob)).

(** [WHERE "userId" = $5 AND "uri" = $6 AND "lastStmt" <> 2] *)
Definition update_cond (uid : Z) (uri : string) (b : Blob.t) : Sql.tri :=
  Sql.eqz (Blob.UserId b) uid &&&
  Sql.eqs (Blob.Uri b) uri &&&
  Sql.nez (Blob.LastStmt b) 2.

(** [UPDATE "Blob" SET "hash" = $1, "snippet" = $2, "size" = $3,
    "deviceId" = $4 WHERE ... RETURNING *] *)
Definition update_blob (now : Z) (hash snippet : string) (size : Z)
    (dev : option string) (uid : Z) (uri : string) (t : BlobTables.t)
    : sqlerr + (list Blob.t * BlobTables.t) :=
  let '(table, _, seq) :=
    update_where Blob.UserId (update_cond uid uri)
      (Blob.set_fields hash snippet size (deviceColumn dev))
      (Blob.stamp_update now)
      (BlobTables.Blob t) (BlobTables.BlobHistorySeq t) in
  let returning :=
    returning_where (update_cond uid uri)
      (Blob.set_fields hash snippet size dev) (BlobTables.Blob t) in
  inr (returning, BlobTables.Mk table (BlobTables.BlobDeleted t) seq).

Definition Update (now : Z) (user : User.t) (blob : Blob.t)
    : DB BlobTables.t Blob.t :=
  let prefixedDeviceId := getPrefixedDeviceId (User.DeviceId user) in
  map_err
    (λ e, if is_ErrNoRows e then ErrBlobNotFound else SqlErr e)
    (QueryRowReturning
       (update_blob now (Blob.Hash blob) (Blob.Snippet blob) (Blob.Size blob)
          prefixedDeviceId (User.Id user) (Blob.Uri blob))).

(** [UPDATE "Blob" SET "lastStmt" = k, "deviceId" = $1 WHERE "userId" = $2
    AND "uri" IN (SELECT value FROM json_each($3, '$.uris'))] *)
Definition update_last_stmt (k : Z) (dev : option string) (uid : Z)
    (uris : string) (t : BlobTables.t) : sqlerr + BlobTables.t :=
  match id_values uris uris_path with
  | inl e => inl e
  | inr values =>
    let '(table, _, seq) :=
      update_where Blob.UserId (bulk_cond uid values)
        (Blob.set_last_stmt k (deviceColumn dev)) Blob.stamp
        (BlobTables.Blob t) (BlobTables.BlobHistorySeq t) in
    inr (BlobTables.Mk table (BlobTables.BlobDeleted t) seq)
  end.

Definition Trash (user : User.t) (uris : string) : DB BlobTables.t unit :=
  if decide (0 < String.length uris)%nat then
    let prefixedDeviceId := getPrefixedDeviceId (User.DeviceId user) in
    ExecContext (update_last_stmt 2 prefixedDeviceId (User.Id user) uris)
  else mret tt.

Definition Untrash (user : User.t) (uris : string) : DB BlobTables.t unit :=
  if decide (0 < String.length uris)%nat then
    let prefixedDeviceId := getPrefixedDeviceId (User.DeviceId user) in
    ExecContext (update_last_stmt 0 prefixedDeviceId (User.Id user) uris)
  else mret tt.

End writes.
End BlobRepository.

(** ** Drafts *)

(** The payload column holds the JSON text of a message part. *)
Definition MessagePart : Type := string.

Module Draft.
Record t : Type := Mk {
  Id : string;
  UserId : Z;
  MessageUid : string;
  ParentUid : option string;
  ThreadUid : string;
  Unread : bool;
  Starred : bool;
  Payload : option MessagePart;
  LabelIds : option string;
  CreatedAt : Z;
  ModifiedAt : option Z;
  TimelineId : Z;
  HistoryId : Z;
  LastStmt : Z;
  DeviceId : option string;
}.

(** [SET "lastStmt" = k, "deviceId" = dev] *)
Definition set_last_stmt (k : Z) (dev : option string) (d : t) : t :=
  Mk (Id d) (UserId d) (MessageUid d) (ParentUid d) (ThreadUid d) (Unread d)
     (Starred d) (Payload d) (LabelIds d) (CreatedAt d) (ModifiedAt d)
     (TimelineId d) (HistoryId d) k dev.

(** [SET "payload" = $1, "deviceId" = $2] *)
Definition set_fields (payload : option MessagePart) (dev : option string)
    (d : t) : t :=
  Mk (Id d) (UserId d) (MessageUid d) (ParentUid d) (ThreadUid d) (Unread d)
     (Starred d) payload (LabelIds d) (CreatedAt d) (ModifiedAt d)
     (TimelineId d) (HistoryId d) (LastStmt d) dev.

(** Modelled from the spec: the row trigger of a trash or untrash, which
    the repository files do not hold ("bumps historyId"). *)
Definition stamp (h : Z) (d : t) : t :=
  Mk (Id d) (UserId d) (MessageUid d) (ParentUid d) (ThreadUid d) (Unread d)
     (Starred d) (Payload d) (LabelIds d) (CreatedAt d) (ModifiedAt d)
     (TimelineId d) h (LastStmt d) (DeviceId d).

(** Modelled from the spec: the row trigger of an update, which the
    repository files do not hold ("bumps historyId, lastStmt→1", "sets
    modifiedAt"). *)
Definition stamp_update (now : Z) (h : Z) (d : t) : t :=
  Mk (Id d) (UserId d) (MessageUid d) (ParentUid d) (ThreadUid d) (Unread d)
     (Starred d) (Payload d) (LabelIds d) (CreatedAt d) (Some now)
     (TimelineId d) h 1 (DeviceId d).

(** The rows [UPDATE ... WHERE "userId" = uid AND "id" = id AND
    "lastStmt" <> 2] rewrites. *)
Definition updatable (uid : Z) (id : string) (d : t) : Prop :=
  UserId d = uid ∧ Id d = id ∧ LastStmt d ≠ 2.
End Draft.

Module DraftDeleted.
Record t : Type := Mk {
  Id : string;
  UserId : Z;
  HistoryId : Z;
  DeviceId : option string;
}.
End DraftDeleted.

Module DraftList.
Record t : Type := Mk {
  History : Z;
  Drafts : list Draft.t;
}.
End DraftList.

Module DraftSync.
Record t : Type := Mk {
  History : Z;
  DraftsInserted : list Draft.t;
  DraftsUpdated : list Draft.t;
  DraftsTrashed : list Draft.t;
  DraftsDeleted : list DraftDeleted.t;
}.
End DraftSync.

Module DraftTables.
Record t : Type := Mk {
  Draft : list Draft.t;
  DraftDeleted : list DraftDeleted.t;
  DraftHistorySeq : gmap Z Z;
}.
End DraftTables.

(** What the draft table fills in for the columns of its own that the
    INSERT does not name. *)
Module DraftDefaults.
Record t : Type := Mk {
  ParentUid : option string;
  Starred : bool;
  LabelIds : option string;
}.
End DraftDefaults.

Module DraftRepository.

(** [WHERE "userId" = $1 AND "lastStmt" < 2] *)
Definition list_where (user : User.t) (d : Draft.t) : Sql.tri :=
  Sql.eqz (Draft.UserId d) (User.Id user) &&&
  Sql.ltz (Draft.LastStmt d) 2.

(** [WHERE "userId" = $1 AND "lastStmt" = k AND
    ("deviceId" <> $2 OR "deviceId" IS NULL) AND "historyId" > $3] *)
Definition sync_where (k : Z) (user : User.t) (history : History.t)
    (d : Draft.t) : Sql.tri :=
  Sql.eqz (Draft.UserId d) (User.Id user) &&&
  Sql.eqz (Draft.LastStmt d) k &&&
  not_from_device (Draft.DeviceId d) (User.DeviceId user) &&&
  Sql.gtz (Draft.HistoryId d) (History.Id history).

(** [WHERE "userId" = $1 AND ("deviceId" <> $2 OR "deviceId" IS NULL) AND
    "historyId" > $3] on ["DraftDeleted"]. *)
Definition deleted_where (user : User.t) (history : History.t)
    (d : DraftDeleted.t) : Sql.tri :=
  Sql.eqz (DraftDeleted.UserId d) (User.Id user) &&&
  not_from_device (DraftDeleted.DeviceId d) (User.DeviceId user) &&&
  Sql.gtz (DraftDeleted.HistoryId d) (History.Id history).

Definition select_history (user : User.t) (t : DraftTables.t) : list Z :=
  seq_rows (User.Id user) (DraftTables.DraftHistorySeq t).

Definition List (user : User.t) : DB DraftTables.t DraftList.t :=
  transaction (
    drafts ← QueryContext (λ t,
      Sql.order_by_desc Draft.CreatedAt
        (Sql.select (list_where user) (DraftTables.Draft t)));
    history ← QueryRowContext (select_history user);
    mret (DraftList.Mk history drafts)).

Definition Sync (user : User.t) (history : History.t)
    : DB DraftTables.t DraftSync.t :=
  transaction (
    inserted ← QueryContext (λ t,
      Sql.order_by_desc Draft.CreatedAt
        (Sql.select (sync_where 0 user history) (DraftTables.Draft t)));
    updated ← QueryContext (λ t,
      Sql.order_by_desc Draft.CreatedAt
        (Sql.select (sync_where 1 user history) (DraftTables.Draft t)));
    trashed ← QueryContext (λ t,
      Sql.order_by_desc Draft.CreatedAt
        (Sql.select (sync_where 2 user history) (DraftTables.Draft t)));
    deleted ← QueryContext (λ t,
      Sql.select (deleted_where user history) (DraftTables.DraftDeleted t));
    last ← QueryRowContext (select_history user);
    mret (DraftSync.Mk last inserted updated trashed deleted)).

Section writes.
Context `{Outside}.

(** [INSERT INTO "Draft" ("userId", "deviceId", "messageUid", "threadUid",
    "unread", "payload") VALUES ($1, ..., $6) RETURNING *].  [returning]
    is the row as the statement wrote it: the values given and the column
    defaults.  [row] is the row the table then holds.  Modelled from the
    spec for the columns of [row] the statement does not name: "inserts
    with lastStmt=0 ... historyId = sequencer.next()". *)
Definition insert_draft (d : Defaults.t) (dd : DraftDefaults.t) (uid : Z)
    (dev : option string) (messageUid threadUid : string) (unread : bool)
    (payload : option MessagePart) (t : DraftTables.t)
    : sqlerr + (list Draft.t * DraftTables.t) :=
  let '(h, seq) := next_history uid (DraftTables.DraftHistorySeq t) in
  let returning :=
    Draft.Mk (Defaults.Id d) uid messageUid (DraftDefaults.ParentUid dd)
             threadUid unread (DraftDefaults.Starred dd) payload
             (DraftDefaults.LabelIds dd) (Defaults.Now d) None
             (Defaults.DefaultTimelineId d) (Defaults.DefaultHistoryId d) 0
             dev in
  let row :=
    Draft.Mk (Defaults.Id d) uid messageUid (DraftDefaults.ParentUid dd)
             threadUid unread (DraftDefaults.Starred dd) payload
             (DraftDefaults.LabelIds dd) (Defaults.Now d) None
             (Defaults.TimelineId d) h 0 (deviceColumn dev) in
  inr ([returning],
       DraftTables.Mk (DraftTables.Draft t ++ [row])
         (DraftTables.DraftDeleted t) seq).

(** [messageUid] and [threadUid] are what the two calls of
    [uuid.NewString()] return. *)
Definition Create (d : Defaults.t) (dd : DraftDefaults.t)
    (messageUid threadUid : string) (user : User.t) (draft : Draft.t)
    : DB DraftTables.t Draft.t :=
  let prefixedDeviceId := getPrefixedDeviceId (User.DeviceId user) in
  let unread := false in
  QueryRowReturning
    (insert_draft d dd (User.Id user) prefixedDeviceId messageUid threadUid
       unread (Draft.Payload draft)).

(** [WHERE "userId" = $3 AND "id" = $4 AND "lastStmt" <> 2] *)
Definition update_cond (uid : Z) (id : string) (d : Draft.t) : Sql.tri :=
  Sql.eqz (Draft.UserId d) uid &&&
  Sql.eqs (Draft.Id d) id &&&
  Sql.nez (Draft.LastStmt d) 2.

(** [UPDATE "Draft" SET "payload" = $1, "deviceId" = $2 WHERE ...
    RETURNING *] *)
Definition update_draft (now : Z) (payload : option MessagePart)
    (dev : option string) (uid : Z) (id : string) (t : DraftTables.t)
    : sqlerr + (list Draft.t * DraftTables.t) :=
  let '(table, _, seq) :=
    update_where Draft.UserId (update_cond uid id)
      (Draft.set_fields payload (deviceColumn dev))
      (Draft.stamp_update now)
      (DraftTables.Draft t) (DraftTables.DraftHistorySeq t) in
  let returning :=
    returning_where (update_cond uid id)
      (Draft.set_fields payload dev) (DraftTables.Draft t) in
  inr (returning, DraftTables.Mk table (DraftTables.DraftDeleted t) seq).

Definition Update (now : Z) (user : User.t) (draft : Draft.t)
    : DB DraftTables.t Draft.t :=
  let prefixedDeviceId := getPrefixedDeviceId (User.DeviceId user) in
  map_err
    (λ e, if is_ErrNoRows e then ErrDraftNotFound else SqlErr e)
    (QueryRowReturning
       (update_draft now (Draft.Payload draft) prefixedDeviceId
          (User.Id user) (Draft.Id draft))).

(** [WHERE "userId" = $2 AND "id" IN (SELECT value FROM json_each($3))] *)
Definition bulk_cond (uid : Z) (values : list string) (d : Draft.t) : Sql.tri :=
  Sql.eqz (Draft.UserId d) uid &&&
  Sql.in_list (Draft.Id d) values.

(** [UPDATE "Draft" SET "lastStmt" = k, "deviceId" = $1 WHERE ...] *)
Definition update_last_stmt (k : Z) (dev : option string) (uid : Z)
    (idList : string) (t : DraftTables.t) : sqlerr + DraftTables.t :=
  match id_values idList None with
  | inl e => inl e
  | inr values =>
    let '(table, _, seq) :=
      update_where Draft.UserId (bulk_cond uid values)
        (Draft.set_last_stmt k (deviceColumn dev)) Draft.stamp
        (DraftTables.Draft t) (DraftTables.DraftHistorySeq t) in
    inr (DraftTables.Mk table (DraftTables.DraftDeleted t) seq)
  end.

Definition Trash (user : User.t) (idList : string) : DB DraftTables.t unit :=
  if decide (0 < String.length idList)%nat then
    let prefixedDeviceId := getPrefixedDeviceId (User.DeviceId user) in
    ExecContext (update_last_stmt 2 prefixedDeviceId (User.Id user) idList)
  else mret tt.

Definition Untrash (user : User.t) (idList : string) : DB DraftTables.t unit :=
  if decide (0 < String.length idList)%nat then
    let prefixedDeviceId := getPrefixedDeviceId (User.DeviceId user) in
    ExecContext (update_last_stmt 0 prefixedDeviceId (User.Id user) idList)
  else mret tt.

(** [DELETE FROM "Draft" WHERE "userId" = $1 AND
    "id" IN (SELECT value FROM json_each($2))] *)
Definition delete_drafts (uid : Z) (idList : string) (t : DraftTables.t)
    : sqlerr + DraftTables.t :=
  match id_values idList None with
  | inl e => inl e
  | inr values =>
    inr (DraftTables.Mk
           (delete_where (bulk_cond uid values) (DraftTables.Draft t))
           (DraftTables.DraftDeleted t) (DraftTables.DraftHistorySeq t))
  end.

Definition Delete (user : User.t) (idList : string) : DB DraftTables.t unit :=
  if decide (0 < String.length idList)%nat then
    ExecContext (delete_drafts (User.Id user) idList)
  else mret tt.

Definition bulk (o : Bulk.op) : User.t → string → DB DraftTables.t unit :=
  match o with
  | Bulk.Trash => Trash
  | Bulk.Untrash => Untrash
  | Bulk.Delete => Delete
  end.

End writes.
End DraftRepository.

(** ** The HTTP router

    The provider's router keeps its entries in registration order and
    hands a request to the first entry that matches it. *)

Module Request.
(** What the router reads of a request: [r.Method] and [r.URL.Path]. *)
Record t : Type := Mk { Method : string; Path : string }.
End Request.

Module Entry.
Record t (H : Type) : Type := Mk { Method : string; Path : string; Handler : H }.
Arguments Mk {H} Method Path Handler.
Arguments Method {H} _.
Arguments Path {H} _.
Arguments Handler {H} _.

(** [s[i]] for an index within the string. *)
Definition byte (s : string) (i : nat) : ascii :=
  default "000"%char (String.get i s).

Definition Match {H} (e : t H) (r : Request.t) : bool :=
  if negb (String.eqb (Request.Method r) (Method e)) then false
  else if String.eqb (Request.Path r) (Path e) ||
          ((1 <? String.length (Path e))%nat &&
           negb (Ascii.eqb (byte (Path e) (String.length (Path e) - 2)) "/") &&
           Ascii.eqb (byte (Path e) (String.length (Path e) - 1)) "/" &&
           String.prefix (Path e) (Request.Path r))
  then true
  else false.

(** An entry whose path ends in a single slash serves the paths below
    it. *)
Definition subtree {H} (e : t H) : bool :=
  (1 <? String.length (Path e))%nat &&
  negb (Ascii.eqb (byte (Path e) (String.length (Path e) - 2)) "/") &&
  Ascii.eqb (byte (Path e) (String.length (Path e) - 1)) "/".

(** Two entries that some request could both match: the same method, and
    the same path or one inside the subtree of the other. *)
Definition overlap {H} (e1 e2 : t H) : bool :=
  String.eqb (Method e1) (Method e2) &&
  (String.eqb (Path e1) (Path e2) ||
   subtree e1 && String.prefix (Path e1) (Path e2) ||
   subtree e2 && String.prefix (Path e2) (Path e1)).
End Entry.

Module Router.
Record t (H : Type) : Type := Mk { routes : list (Entry.t H) }.
Arguments Mk {H} routes.
Arguments routes {H} _.

Definition NewRouter {H} : t H := Mk [].

Definition Route {H} (method path : string) (handler : H) (r : t H) : t H :=
  let e := Entry.Mk method path handler in
  Mk (routes r ++ [e]).

(** The [for _, e := range t.routes] loop: the handler that serves the
    request, or [None] for [http.NotFound]. *)
Fixpoint serve {H} (entries : list (Entry.t H)) (r : Request.t) : option H :=
  match entries with
  | [] => None
  | e :: rest => if Entry.Match e r then Some (Entry.Handler e) else serve rest r
  end.

Definition ServeHTTP {H} (t : t H) (r : Request.t) : option H :=
  serve (routes t) r.

(** No two entries of the list overlap. *)
Fixpoint no_overlap {H} (entries : list (Entry.t H)) : bool :=
  match entries with
  | [] => true
  | e :: rest =>
    forallb (λ e', negb (Entry.overlap e e')) rest && no_overlap rest
  end.
End Router.

(** The handlers the service registers: one per method of the app and of
    the APIs, plain or behind one of the two [Authenticate] wrappers. *)
Module Service.
Inductive endpoint : Type :=
  | app_HomePage | app_LoginPage | app_Logout | app_RegisterPage
  | Health_Healthcheck
  | User_Register | Session_Login | Session_Logout
  | User_Profile
  | Contacts_Create | Contacts_List | Contacts_Sync | Contacts_Update
  | Contacts_Trash | Contacts_Untrash | Contacts_Delete
  | Bodies_Upload | Bodies_List | Bodies_Sync | Bodies_Download
  | Bodies_Trash | Bodies_Untrash | Bodies_Delete
  | Files_Upload | Files_List | Files_Sync | Files_Download
  | Files_Trash | Files_Untrash | Files_Delete
  | Drafts_Create | Drafts_List
  | Messages_List.

Inductive handler : Type :=
  | Plain (e : endpoint)
  | app_Authenticate (e : endpoint)
  | api_Authenticate (e : endpoint).

Definition routes (r : Router.t handler) : Router.t handler :=
  let r := Router.Route "GET" "/" (app_Authenticate app_HomePage) r in
  let r := Router.Route "GET" "/login" (Plain app_LoginPage) r in
  let r := Router.Route "GET" "/logout" (Plain app_Logout) r in
  let r := Router.Route "GET" "/register" (Plain app_RegisterPage) r in
  let r := Router.Route "GET" "/api/v1/health" (Plain Health_Healthcheck) r in
  let r := Router.Route "POST" "/api/v1/auth/register" (Plain User_Register) r in
  let r := Router.Route "POST" "/api/v1/auth/authenticate" (Plain Session_Login) r in
  let r := Router.Route "POST" "/api/v1/auth/logout" (Plain Session_Logout) r in
  let r := Router.Route "PATCH" "/api/v1/user/profile" (api_Authenticate User_Profile) r in
  let r := Router.Route "GET" "/api/v1/user/profile" (api_Authenticate User_Profile) r in
  let r := Router.Route "POST" "/api/v1/contacts" (api_Authenticate Contacts_Create) r in
  let r := Router.Route "GET" "/api/v1/contacts" (api_Authenticate Contacts_List) r in
  let r := Router.Route "POST" "/api/v1/contacts/sync" (api_Authenticate Contacts_Sync) r in
  let r := Router.Route "PUT" "/api/v1/contacts" (api_Authenticate Contacts_Update) r in
  let r := Router.Route "POST" "/api/v1/contacts/trash" (api_Authenticate Contacts_Trash) r in
  let r := Router.Route "POST" "/api/v1/contacts/untrash" (api_Authenticate Contacts_Untrash) r in
  let r := Router.Route "DELETE" "/api/v1/contacts/delete" (api_Authenticate Contacts_Delete) r in
  let r := Router.Route "POST" "/api/v1/bodies/upload" (api_Authenticate Bodies_Upload) r in
  let r := Router.Route "GET" "/api/v1/bodies" (api_Authenticate Bodies_List) r in
  let r := Router.Route "POST" "/api/v1/bodies/sync" (api_Authenticate Bodies_Sync) r in
  let r := Router.Route "HEAD" "/api/v1/bodies/" (api_Authenticate Bodies_Download) r in
  let r := Router.Route "GET" "/api/v1/bodies/" (api_Authenticate Bodies_Download) r in
  let r := Router.Route "POST" "/api/v1/bodies/trash" (api_Authenticate Bodies_Trash) r in
  let r := Router.Route "POST" "/api/v1/bodies/untrash" (api_Authenticate Bodies_Untrash) r in
  let r := Router.Route "DELETE" "/api/v1/bodies/delete" (api_Authenticate Bodies_Delete) r in
  let r := Router.Route "POST" "/api/v1/files/upload" (api_Authenticate Files_Upload) r in
  let r := Router.Route "GET" "/api/v1/files" (api_Authenticate Files_List) r in
  let r := Router.Route "POST" "/api/v1/files/sync" (api_Authenticate Files_Sync) r in
  let r := Router.Route "HEAD" "/api/v1/files/" (api_Authenticate Files_Download) r in
  let r := Router.Route "GET" "/api/v1/files/" (api_Authenticate Files_Download) r in
  let r := Router.Route "POST" "/api/v1/files/trash" (api_Authenticate Files_Trash) r in
  let r := Router.Route "POST" "/api/v1/files/untrash" (api_Authenticate Files_Untrash) r in
  let r := Router.Route "DELETE" "/api/v1/files/delete" (api_Authenticate Files_Delete) r in
  let r := Router.Route "POST" "/api/v1/drafts" (api_Authenticate Drafts_Create) r in
  let r := Router.Route "GET" "/api/v1/drafts" (api_Authenticate Drafts_List) r in
  let r := Router.Route "GET" "/api/v1/messages" (api_Authenticate Messages_List) r in
  r.
End Service.

(** ** The profile handler

    The user repository, the JSON decoder and the response helpers are
    not part of the handler's file: they are parameters here, the
    repository as functions over its store. *)

Module UserApi.
Section handler.
Context {User profile Body Store E : Type}.
Context (ErrMissingUserContext : E) (is_ErrUsernameNotFound : E → bool).
Context (Username : User → string).
Context (Decode : Body → User → string + User).
Context (UpdateProfile : User → Store → (E + profile) * Store).
Context (GetProfile : string → Store → (E + profile) * Store).

(** What the handler writes: [helper.ReturnErr], [http.Error] or
    [helper.SetJsonResponse], each with its status. *)
Inductive response : Type :=
  | ReturnErr (err : E) (status : Z)
  | http_Error (msg : string) (status : Z)
  | SetJsonResponse (status : Z) (v : profile).

Definition StatusOK : Z := 200.
Definition StatusBadRequest : Z := 400.
Definition StatusForbidden : Z := 403.
Definition StatusInternalServerError : Z := 500.

(** [ctxUser] is the user the request context carries, if any; the
    result is the response written, if any, and the repository's store
    after the call. *)
Definition Profile (ctxUser : option User) (method : string) (body : Body)
    (s : Store) : option response * Store :=
  match ctxUser with
  | None => (Some (ReturnErr ErrMissingUserContext StatusInternalServerError), s)
  | Some user =>
    if String.eqb method "PUT" then
      match Decode body user with
      | inl msg => (Some (http_Error msg StatusBadRequest), s)
      | inr user =>
        match UpdateProfile user s with
        | (inl err, s') => (Some (ReturnErr err StatusInternalServerError), s')
        | (inr p, s') => (Some (SetJsonResponse StatusOK p), s')
        end
      end
    else if String.eqb method "GET" then
      match GetProfile (Username user) s with
      | (inl err, s') =>
        if is_ErrUsernameNotFound err
        then (Some (ReturnErr err StatusForbidden), s')
        else (Some (ReturnErr err StatusInternalServerError), s')
      | (inr p, s') => (Some (SetJsonResponse StatusOK p), s')
      end
    else (None, s)
  end.

End handler.
End UserApi.

(** ** The drafts reducer of the web app

    A JavaScript object is a finite map from property names to values,
    [gmap string V]; a property that is absent reads as [undefined]. *)

Module DraftsContext.
Section reducer.
Context {V : Type} `{EqDecision V} (undefined : V).

(** [o.k] *)
Definition prop (o : gmap string V) (k : string) : V := default undefined (o !! k).

(** [{ ...a, ...b }] *)
Definition spread (a b : gmap string V) : gmap string V := b ∪ a.

Record state : Type := State {
  drafts : list (gmap string V);
  editing : list (gmap string V);
}.

(** The actions, by their [type]; [other] is any type the reducer does
    not know. *)
Inductive action : Type :=
  | listDrafts (payload : list (gmap string V))
  | createDraft (payload : gmap string V)
  | deleteDraft (payload : V)
  | newDraftEdit (payload : gmap string V)
  | updateDraftEdit (payload : gmap string V)
  | closeDraftEdit (payload : V)
  | other (type : string).

Definition reducer (s : state) (a : action) : state :=
  match a with
  | listDrafts payload => State payload (editing s)
  | createDraft payload => State (drafts s ++ [payload]) (editing s)
  | deleteDraft payload =>
    State (filter (λ draft, prop draft "id" ≠ payload) (drafts s)) (editing s)
  | newDraftEdit payload => State (drafts s) (editing s ++ [payload])
  | updateDraftEdit payload =>
    State (drafts s)
          ((λ draft, if decide (prop draft "id" = prop payload "id")
                     then spread draft payload
                     else draft) <$> editing s)
  | closeDraftEdit payload =>
    State (drafts s) (filter (λ draft, prop draft "id" ≠ payload) (editing s))
  | other _ => s
  end.

End reducer.
End DraftsContext.

(** ** Threads of the mailbox page *)

Module Threads.
Section getThreads.
Context {Body Time : Type}.

Record payload : Type := Payload { headers : gmap string string; body : Body }.

Record message : Type := Message {
  id : string;
  m_payload : payload;
  m_createdAt : Time;
  modifiedAt : option Time;
  folder : Z;
}.

Record thread : Type := Thread {
  threadId : option string;
  t_payload : payload;
  createdAt : Time;
  messages : list message;
}.

(** [message.payload.headers["X-Thread-ID"]] *)
Definition thread_of (m : message) : option string :=
  headers (m_payload m) !! "X-Thread-ID".

(** A [Map] keeps its entries in insertion order. *)
Definition Map : Type := list (option string * thread).

Definition get (k : option string) (m : Map) : option thread :=
  snd <$> List.find (λ e, bool_decide (e.1 = k)) m.

(** [thread.messages.push(message)] on the thread the map holds under
    [k]. *)
Fixpoint push (k : option string) (msg : message) (m : Map) : Map :=
  match m with
  | [] => []
  | (k', th) :: rest =>
    if decide (k' = k)
    then (k', Thread (threadId th) (t_payload th) (createdAt th)
                     (messages th ++ [msg])) :: rest
    else (k', th) :: push k msg rest
  end.

(** One round of the loop over the messages. *)
Definition add (threadsById : Map) (msg : message) : Map :=
  let threadId := thread_of msg in
  let createdAt :=
    match modifiedAt msg with
    | Some at_ => at_
    | None => m_createdAt msg
    end in
  match get threadId threadsById with
  | Some _ => push threadId msg threadsById
  | None => threadsById ++ [(threadId, Thread threadId (m_payload msg) createdAt [msg])]
  end.

Definition getThreads (all : list message) (folder_ : option Z) : list thread :=
  let folder_ := default 0 folder_ in
  let threadsById := foldl add [] all in
  let threads := snd <$> threadsById in
  filter (λ th, (0 < length (filter (λ m, folder m = folder_) (messages th)))%nat)
         threads.

(** What the map holds after the loop has seen the messages [seen]. *)
Definition grouped (seen : list message) (m : Map) : Prop :=
  NoDup m.*1 ∧
  (∀ x, x ∈ seen → thread_of x ∈ m.*1) ∧
  ∀ k th, (k, th) ∈ m →
    threadId th = k ∧
    messages th = filter (λ x, thread_of x = k) seen ∧
    ∃ x0 rest, messages th = x0 :: rest ∧
      t_payload th = m_payload x0 ∧
      createdAt th =
        default (m_createdAt x0) (modifiedAt x0).

End getThreads.
End Threads.

(** ** Quoting the sender of a replied message

    A JavaScript string is a sequence of UTF-16 code units. *)

Module Reply.
Definition jsstring : Type := list N.

(** ['<'], ['>'], ['&lt;'], ['&gt;'] *)
Definition lt : N := 60.
Definition gt : N := 62.
Definition lt_entity : jsstring := [38; 108; 116; 59]%N.
Definition gt_entity : jsstring := [38; 103; 116; 59]%N.

(** [s.replace(/c/g, by)] for a one-character pattern and a replacement
    without [$]. *)
Fixpoint replace (c : N) (by_ : jsstring) (s : jsstring) : jsstring :=
  match s with
  | [] => []
  | u :: rest =>
    if decide (u = c) then by_ ++ replace c by_ rest else u :: replace c by_ rest
  end.

(** [parsed.from.replace(/</g, '&lt;').replace(/>/g, '&gt;')] *)
Definition sender (from : jsstring) : jsstring :=
  replace gt gt_entity (replace lt lt_entity from).
End Reply.

(** ** The synchronisation contract, in the words of the specification

    The predicates below restate the delta classification of the Sync
    Engine and the liveness predicate of the List Engine over the columns
    every entity table shares; the theorems compare them with what the
    repositories' SQL selects. *)

Module Spec.
Section columns.
Context {R : Type}.
Variables (owner historyId : R → Z) (deviceId : R → option string).

(** "device attribution indicates not the calling device
    (deviceId != callerDevice OR deviceId IS NULL)": with a calling device
    the row's device differs from it or is NULL; a caller without a device
    id only sees the rows without attribution (a comparison with NULL is
    never true). *)
Definition other_device (caller : option string) (r : R) : Prop :=
  match caller with
  | Some device => deviceId r ≠ Some device
  | None => deviceId r = None
  end.

#[global] Instance other_device_dec caller r : Decision (other_device caller r).
Proof. destruct caller; simpl; apply _. Defined.

(** The filter shared by the four buckets. *)
Definition changed_since (user : User.t) (since : Z) (r : R) : Prop :=
  owner r = User.Id user ∧ since < historyId r ∧
  other_device (User.DeviceId user) r.

(** inserted, updated, trashed: the same filter with [lastStmt = k]. *)
Definition in_bucket (lastStmt : R → Z) (k : Z) (user : User.t) (since : Z)
    (r : R) : Prop :=
  lastStmt r = k ∧ changed_since user since r.

(** "Only rows with lastStmt < 2 are included." *)
Definition live (lastStmt : R → Z) (user : User.t) (r : R) : Prop :=
  owner r = User.Id user ∧ lastStmt r < 2.

End columns.

Section classification.
Context {R D : Type}.
Variables (key : R → string) (owner historyId : R → Z)
  (deviceId : R → option string) (lastStmt : R → Z).
Variables (keyD : D → string) (ownerD historyIdD : D → Z)
  (deviceIdD : D → option string).

(** The four buckets of Sync(user, since) over an entity table and its
    tombstone table. *)
Definition classified (user : User.t) (since : Z)
    (table : list R) (tombstones : list D)
    (inserted updated trashed : list R) (deleted : list D) : Prop :=
  inserted ≡ₚ filter (in_bucket owner historyId deviceId lastStmt 0 user since) table ∧
  updated ≡ₚ filter (in_bucket owner historyId deviceId lastStmt 1 user since) table ∧
  trashed ≡ₚ filter (in_bucket owner historyId deviceId lastStmt 2 user since) table ∧
  deleted ≡ₚ filter (changed_since ownerD historyIdD deviceIdD user since) tombstones.

(** No row is in two of the entity buckets. *)
Definition exclusive (inserted updated trashed : list R) : Prop :=
  ∀ r, ¬ (r ∈ inserted ∧ r ∈ updated) ∧
       ¬ (r ∈ inserted ∧ r ∈ trashed) ∧
       ¬ (r ∈ updated ∧ r ∈ trashed).

(** "id: stable identifier, unique per user". *)
Definition keyed (table : list R) : Prop :=
  ∀ r1 r2, r1 ∈ table → r2 ∈ table →
    owner r1 = owner r2 → key r1 = key r2 → r1 = r2.

(** A record with a tombstone is gone from the entity table. *)
Definition buried (table : list R) (tombstones : list D) : Prop :=
  ∀ r d, r ∈ table → d ∈ tombstones → owner r = ownerD d → key r ≠ keyD d.

(** The rows a bulk request names: the caller's rows whose id is in the
    request's id set. *)
Definition listed (uid : Z) (values : list string) (r : R) : Prop :=
  owner r = uid ∧ key r ∈ values.

(** What a bulk request leaves of a row it names: trashed, active again,
    or nothing at all. *)
Definition bulk_outcome (o : Bulk.op) (r : R) : Prop :=
  match o with
  | Bulk.Trash => lastStmt r = 2
  | Bulk.Untrash => lastStmt r = 0
  | Bulk.Delete => False
  end.

(** No record identifier is in two of the four buckets. *)
Definition exclusive_keys (inserted updated trashed : list R)
    (deleted : list D) : Prop :=
  ∀ k, ¬ (k ∈ key <$> inserted ∧ k ∈ key <$> updated) ∧
       ¬ (k ∈ key <$> inserted ∧ k ∈ key <$> trashed) ∧
       ¬ (k ∈ key <$> updated ∧ k ∈ key <$> trashed) ∧
       ¬ (k ∈ key <$> inserted ∧ k ∈ keyD <$> deleted) ∧
       ¬ (k ∈ key <$> updated ∧ k ∈ keyD <$> deleted) ∧
       ¬ (k ∈ key <$> trashed ∧ k ∈ keyD <$> deleted).

End classification.

(** Both effects of Delete on the tables [t], for the uri set [values]:
    the listed blobs of the caller are gone, every tombstone of the caller
    for a listed uri carries the caller's device id, each removed blob has
    such a tombstone, and the other tombstones are as they were. *)
Definition removed_and_stamped (user : User.t) (values : list string)
    (t t2 : BlobTables.t) : Prop :=
  BlobTables.Blob t2 =
    filter (λ b, ¬ listed Blob.Uri Blob.UserId (User.Id user) values b)
      (BlobTables.Blob t) ∧
  (∀ d, d ∈ BlobTables.BlobDeleted t2 →
        listed BlobDeleted.Uri BlobDeleted.UserId (User.Id user) values d →
        BlobDeleted.DeviceId d = User.DeviceId user) ∧
  (∀ b, b ∈ BlobTables.Blob t →
        listed Blob.Uri Blob.UserId (User.Id user) values b →
        ∃ d, d ∈ BlobTables.BlobDeleted t2 ∧
             BlobDeleted.Uri d = Blob.Uri b ∧
             BlobDeleted.UserId d = Blob.UserId b ∧
             BlobDeleted.DeviceId d = User.DeviceId user) ∧
  filter (λ d, ¬ listed BlobDeleted.Uri BlobDeleted.UserId
                   (User.Id user) values d) (BlobTables.BlobDeleted t2) =
  filter (λ d, ¬ listed BlobDeleted.Uri BlobDeleted.UserId
                   (User.Id user) values d) (BlobTables.BlobDeleted t).

End Spec.

(** Running a repository method on tables, with a schedule of faults. *)
Definition run {T A} (m : DB T A) (t : T) (schedule : list bool)
    : Result A * T :=
  let '(result, c) := m (MkConn t schedule) in (result, tables c).

(** ** JSON texts

    A reader of JSON texts (RFC 8259) and what SQLite's [json_each] makes
    of them, for the worked data: the rows of the top-level array or
    object, or of the container a path of member names leads to. *)

Module Json.

Local Unset Elimination Schemes.
Inductive value : Type :=
  | JNull
  | JTrue
  | JFalse
  | JNumber (text : string)
  | JString (text : string)
  | JArray (items : list value)
  | JObject (members : list (string * value)).
Local Set Elimination Schemes.

Definition quote : ascii := "034"%char.
Definition backslash : ascii := "092"%char.

Definition is_space (a : ascii) : bool :=
  Ascii.eqb a " " || Ascii.eqb a "009" || Ascii.eqb a "010" || Ascii.eqb a "013".

Fixpoint skip (s : list ascii) : list ascii :=
  match s with
  | a :: rest => if is_space a then skip rest else s
  | [] => []
  end.

Definition is_digit (a : ascii) : bool :=
  ((48 <=? N_of_ascii a) && (N_of_ascii a <=? 57))%N.

Definition hex (a : ascii) : option N :=
  let n := N_of_ascii a in
  if ((48 <=? n) && (n <=? 57))%N then Some (n - 48)%N
  else if ((97 <=? n) && (n <=? 102))%N then Some (n - 87)%N
  else if ((65 <=? n) && (n <=? 70))%N then Some (n - 55)%N
  else None.

Definition hex4 (a b c d : ascii) : option N :=
  match hex a, hex b, hex c, hex d with
  | Some x, Some y, Some z, Some w => Some (((x * 16 + y) * 16 + z) * 16 + w)%N
  | _, _, _, _ => None
  end.

(** The bytes of a code point, in reverse. *)
Definition utf8_rev (n : N) : list ascii :=
  (if n <? 128 then [ascii_of_N n]
   else if n <? 2048 then
     [ascii_of_N (128 + n mod 64); ascii_of_N (192 + n / 64)]
   else if n <? 65536 then
     [ascii_of_N (128 + n mod 64); ascii_of_N (128 + (n / 64) mod 64);
      ascii_of_N (224 + n / 4096)]
   else
     [ascii_of_N (128 + n mod 64); ascii_of_N (128 + (n / 64) mod 64);
      ascii_of_N (128 + (n / 4096) mod 64); ascii_of_N (240 + n / 262144)])%N.

(** A string, after its opening quote. *)
Fixpoint text (s : list ascii) (acc : list ascii)
    : option (string * list ascii) :=
  match s with
  | [] => None
  | a :: rest =>
    if Ascii.eqb a quote
    then Some (String.string_of_list_ascii (reverse acc), rest)
    else if Ascii.eqb a backslash then
      match rest with
      | [] => None
      | e :: rest1 =>
        if Ascii.eqb e quote then text rest1 (quote :: acc)
        else if Ascii.eqb e backslash then text rest1 (backslash :: acc)
        else if Ascii.eqb e "/" then text rest1 ("/"%char :: acc)
        else if Ascii.eqb e "b" then text rest1 ("008"%char :: acc)
        else if Ascii.eqb e "f" then text rest1 ("012"%char :: acc)
        else if Ascii.eqb e "n" then text rest1 ("010"%char :: acc)
        else if Ascii.eqb e "r" then text rest1 ("013"%char :: acc)
        else if Ascii.eqb e "t" then text rest1 ("009"%char :: acc)
        else if Ascii.eqb e "u" then
          match rest1 with
          | h1 :: h2 :: h3 :: h4 :: rest2 =>
            match hex4 h1 h2 h3 h4 with
            | None => None
            | Some n =>
              match rest2 with
              | b :: u :: l1 :: l2 :: l3 :: l4 :: rest3 =>
                match hex4 l1 l2 l3 l4 with
                | Some low =>
                  if (Ascii.eqb b backslash && Ascii.eqb u "u" &&
                      (55296 <=? n) && (n <? 56320) &&
                      (56320 <=? low) && (low <? 57344))%N
                  then text rest3
                         (utf8_rev (65536 + (n - 55296) * 1024 + (low - 56320))%N
                          ++ acc)
                  else text rest2 (utf8_rev n ++ acc)
                | None => text rest2 (utf8_rev n ++ acc)
                end
              | _ => text rest2 (utf8_rev n ++ acc)
              end
            end
          | _ => None
          end
        else None
      end
    else if (N_of_ascii a <? 32)%N then None
    else text rest (a :: acc)
  end.

Fixpoint digits (s : list ascii) : list ascii * list ascii :=
  match s with
  | a :: rest =>
    if is_digit a then let '(ds, rest') := digits rest in (a :: ds, rest')
    else ([], s)
  | [] => ([], [])
  end.

(** [-? int frac? exp?] *)
Definition number (s : list ascii) : option (string * list ascii) :=
  let '(sign, s1) :=
    match s with
    | a :: rest => if Ascii.eqb a "-" then ([a], rest) else ([], s)
    | [] => ([], s)
    end in
  match s1 with
  | [] => None
  | d :: rest =>
    if negb (is_digit d) then None else
    let '(int, s2) :=
      if Ascii.eqb d "0" then ([d], rest)
      else let '(ds, rest') := digits rest in (d :: ds, rest') in
    let frac :=
      match s2 with
      | p :: rest' =>
        if Ascii.eqb p "." then
          match digits rest' with
          | ([], _) => None
          | (ds, s3) => Some (p :: ds, s3)
          end
        else Some ([], s2)
      | [] => Some ([], s2)
      end in
    match frac with
    | None => None
    | Some (fr, s3) =>
      let exp :=
        match s3 with
        | e :: rest' =>
          if Ascii.eqb e "e" || Ascii.eqb e "E" then
            let '(sg, s4) :=
              match rest' with
              | g :: rest'' =>
                if Ascii.eqb g "+" || Ascii.eqb g "-" then ([g], rest'')
                else ([], rest')
              | [] => ([], rest')
              end in
            match digits s4 with
            | ([], _) => None
            | (ds, s5) => Some (e :: sg ++ ds, s5)
            end
          else Some ([], s3)
        | [] => Some ([], s3)
        end in
      match exp with
      | None => None
      | Some (ex, s4) =>
        Some (String.string_of_list_ascii (sign ++ int ++ fr ++ ex), s4)
      end
    end
  end.

Fixpoint word (w : list ascii) (s : list ascii) : option (list ascii) :=
  match w, s with
  | [], _ => Some s
  | a :: w', b :: s' => if Ascii.eqb a b then word w' s' else None
  | _ :: _, [] => None
  end.

(** What the reader is after: a value, the rest of an array, the rest of
    an object. *)
Inductive goal : Type :=
  | Value
  | Items (acc : list value)
  | Members (acc : list (string * value)).

Fixpoint read (fuel : nat) (g : goal) (s : list ascii)
    : option (value * list ascii) :=
  match fuel with
  | O => None
  | S fuel =>
    match g with
    | Value =>
      match skip s with
      | [] => None
      | a :: rest =>
        if Ascii.eqb a "[" then
          match skip rest with
          | b :: rest' =>
            if Ascii.eqb b "]" then Some (JArray [], rest')
            else read fuel (Items []) rest
          | [] => None
          end
        else if Ascii.eqb a "{" then
          match skip rest with
          | b :: rest' =>
            if Ascii.eqb b "}" then Some (JObject [], rest')
            else read fuel (Members []) rest
          | [] => None
          end
        else if Ascii.eqb a quote then
          match text rest [] with
          | Some (t, rest') => Some (JString t, rest')
          | None => None
          end
        else if Ascii.eqb a "t" then
          match word (String.list_ascii_of_string "rue") rest with
          | Some rest' => Some (JTrue, rest')
          | None => None
          end
        else if Ascii.eqb a "f" then
          match word (String.list_ascii_of_string "alse") rest with
          | Some rest' => Some (JFalse, rest')
          | None => None
          end
        else if Ascii.eqb a "n" then
          match word (String.list_ascii_of_string "ull") rest with
          | Some rest' => Some (JNull, rest')
          | None => None
          end
        else
          match number (a :: rest) with
          | Some (t, rest') => Some (JNumber t, rest')
          | None => None
          end
      end
    | Items acc =>
      match read fuel Value s with
      | Some (v, rest) =>
        match skip rest with
        | a :: rest' =>
          if Ascii.eqb a "," then read fuel (Items (v :: acc)) rest'
          else if Ascii.eqb a "]" then Some (JArray (reverse (v :: acc)), rest')
          else None
        | [] => None
        end
      | None => None
      end
    | Members acc =>
      match skip s with
      | q :: rest =>
        if Ascii.eqb q quote then
          match text rest [] with
          | Some (k, rest1) =>
            match skip rest1 with
            | c :: rest2 =>
              if Ascii.eqb c ":" then
                match read fuel Value rest2 with
                | Some (v, rest3) =>
                  match skip rest3 with
                  | a :: rest4 =>
                    if Ascii.eqb a ","
                    then read fuel (Members ((k, v) :: acc)) rest4
                    else if Ascii.eqb a "}"
                    then Some (JObject (reverse ((k, v) :: acc)), rest4)
                    else None
                  | [] => None
                  end
                | None => None
                end
              else None
            | [] => None
            end
          | None => None
          end
        else None
      | [] => None
      end
    end
  end.

Definition parse (doc : string) : option value :=
  let s := String.list_ascii_of_string doc in
  match read (2 * length s + 2) Value s with
  | Some (v, rest) =>
    match skip rest with
    | [] => Some v
    | _ :: _ => None
    end
  | None => None
  end.

(** A container among the values is given as JSON text again. *)
Definition hex_digit (n : N) : ascii :=
  (if n <? 10 then ascii_of_N (48 + n) else ascii_of_N (87 + n))%N.

Fixpoint escaped (s : list ascii) : list ascii :=
  match s with
  | [] => []
  | a :: rest =>
    (if Ascii.eqb a quote then [backslash; quote]
     else if Ascii.eqb a backslash then [backslash; backslash]
     else if Ascii.eqb a "008" then [backslash; "b"]%char
     else if Ascii.eqb a "012" then [backslash; "f"]%char
     else if Ascii.eqb a "010" then [backslash; "n"]%char
     else if Ascii.eqb a "013" then [backslash; "r"]%char
     else if Ascii.eqb a "009" then [backslash; "t"]%char
     else if (N_of_ascii a <? 32)%N then
       [backslash; "u"; "0"; "0"; hex_digit (N_of_ascii a / 16);
        hex_digit (N_of_ascii a mod 16)]%char
     else [a]) ++ escaped rest
  end.

Definition quoted (t : string) : list ascii :=
  quote :: escaped (String.list_ascii_of_string t) ++ [quote].

Fixpoint render (v : value) : list ascii :=
  match v with
  | JNull => String.list_ascii_of_string "null"
  | JTrue => String.list_ascii_of_string "true"
  | JFalse => String.list_ascii_of_string "false"
  | JNumber t => String.list_ascii_of_string t
  | JString t => quoted t
  | JArray items =>
    "["%char ::
    (fix go (l : list value) : list ascii :=
       match l with
       | [] => []
       | [x] => render x
       | x :: rest => render x ++ ","%char :: go rest
       end) items ++ ["]"%char]
  | JObject members =>
    "{"%char ::
    (fix go (l : list (string * value)) : list ascii :=
       match l with
       | [] => []
       | [(k, x)] => quoted k ++ ":"%char :: render x
       | (k, x) :: rest => quoted k ++ ":"%char :: render x ++ ","%char :: go rest
       end) members ++ ["}"%char]
  end.

(** The [value] column of a row, as it compares with a text column: a
    NULL never compares equal and is left out, [true] and [false] are 1
    and 0. *)
Definition column (v : value) : list string :=
  match v with
  | JNull => []
  | JTrue => ["1"]
  | JFalse => ["0"]
  | JNumber t => [if String.eqb t "-0" then "0" else t]
  | JString t => [t]
  | JArray _ | JObject _ => [String.string_of_list_ascii (render v)]
  end.

(** One row for each element of an array or member of an object; a
    value that is no container is its own single row. *)
Definition each (v : value) : list string :=
  match v with
  | JArray items => items ≫= column
  | JObject members => members.*2 ≫= column
  | _ => column v
  end.

(** A path: [$] followed by steps [.name], [."name"], [[n]] and
    [[#-n]]. *)
Inductive step : Type :=
  | Key (k : string)
  | At (i : nat)
  | FromEnd (i : nat).

(** The text up to the first character [stop] holds for. *)
Fixpoint upto (stop : ascii → bool) (s : list ascii)
    : list ascii * list ascii :=
  match s with
  | a :: rest =>
    if stop a then ([], s)
    else let '(k, rest') := upto stop rest in (a :: k, rest')
  | [] => ([], [])
  end.

Definition index (ds : list ascii) : nat :=
  foldl (λ n d, 10 * n + N.to_nat (N_of_ascii d - 48))%nat 0%nat ds.

Fixpoint steps (fuel : nat) (s : list ascii) : option (list step) :=
  match fuel with
  | O => None
  | S fuel =>
    match s with
    | [] => Some []
    | a :: rest =>
      if Ascii.eqb a "." then
        match rest with
        | q :: rest1 =>
          if Ascii.eqb q quote then
            match upto (Ascii.eqb quote) rest1 with
            | (k, _ :: rest2) =>
              option_map (cons (Key (String.string_of_list_ascii k)))
                (steps fuel rest2)
            | (_, []) => None
            end
          else
            match upto (λ c, Ascii.eqb c "." || Ascii.eqb c "[") rest with
            | ([], _) => None
            | (k, rest2) =>
              option_map (cons (Key (String.string_of_list_ascii k)))
                (steps fuel rest2)
            end
        | [] => None
        end
      else if Ascii.eqb a "[" then
        match rest with
        | h :: m :: rest1 =>
          if Ascii.eqb h "#" && Ascii.eqb m "-" then
            match digits rest1 with
            | (d :: ds, c :: rest2) =>
              if Ascii.eqb c "]"
              then option_map (cons (FromEnd (index (d :: ds))))
                     (steps fuel rest2)
              else None
            | _ => None
            end
          else
            match digits rest with
            | (d :: ds, c :: rest2) =>
              if Ascii.eqb c "]"
              then option_map (cons (At (index (d :: ds)))) (steps fuel rest2)
              else None
            | _ => None
            end
        | _ => None
        end
      else None
    end
  end.

Definition path (p : string) : option (list step) :=
  match String.list_ascii_of_string p with
  | d :: rest => if Ascii.eqb d "$" then steps (S (length rest)) rest else None
  | [] => None
  end.

Fixpoint member (k : string) (members : list (string * value)) : option value :=
  match members with
  | [] => None
  | (k', v) :: rest => if String.eqb k' k then Some v else member k rest
  end.

Fixpoint resolve (names : list step) (v : value) : option value :=
  match names with
  | [] => Some v
  | Key k :: rest =>
    match v with
    | JObject members =>
      match member k members with
      | Some v' => resolve rest v'
      | None => None
      end
    | _ => None
    end
  | At i :: rest =>
    match v with
    | JArray items =>
      match items !! i with
      | Some v' => resolve rest v'
      | None => None
      end
    | _ => None
    end
  | FromEnd i :: rest =>
    match v with
    | JArray items =>
      if decide (1 ≤ i ≤ length items)%nat then
        match items !! (length items - i)%nat with
        | Some v' => resolve rest v'
        | None => None
        end
      else None
    | _ => None
    end
  end.

(** [json_each(doc)] and [json_each(doc, p)], for JSON as RFC 8259 has
    it: [None] for a text that is not JSON or a path that is not
    well-formed, no row when the path leads nowhere. *)
Definition json_each (doc : string) (p : option string)
    : option (list string) :=
  match parse doc with
  | None => None
  | Some v =>
    match p with
    | None => Some (each v)
    | Some p =>
      match path p with
      | None => None
      | Some names =>
        match resolve names v with
        | Some v' => Some (each v')
        | None => Some []
        end
      end
    end
  end.

End Json.

(** ** Worked data

    The scenario of the specification: one user with two devices, contact
    A created first and B second by device D1. *)

Module Example.

Definition quote : ascii := Json.quote.

Fixpoint strip (prefix s : string) : option string :=
  match prefix, s with
  | EmptyString, _ => Some s
  | String a prefix', String b s' =>
    if Ascii.eqb a b then strip prefix' s' else None
  | String _ _, EmptyString => None
  end.

Definition uris_member : string :=
  String "{" (String quote ("uris" +:+ String quote ":")).

(** SQLite's [json_each] on the request texts. *)
Definition read_json_each (doc : string) (path : option string)
    : option (list string) :=
  Json.json_each doc path.

(** One way the parts outside the repository files can fit together: the
    helper puts a marker before a device id, and the column keeps the id
    that follows the marker. *)
Definition outside : Outside := {|
  getPrefixedDeviceId := λ d,
    match d with
    | Some id => if decide (id = "") then None else Some ("device:" +:+ id)
    | None => None
    end;
  deviceColumn := λ v,
    match v with
    | Some text => strip "device:" text
    | None => None
    end;
  json_each := read_json_each;
|}.

(** The id lists [["contact-b"]] and [["nobody"]] and the uri list
    [{"uris":["blob-1"]}] as request texts. *)
Definition quoted (s : string) : string := String quote (s +:+ String quote "").
Definition ids_B : string := "[" +:+ quoted "contact-b" +:+ "]".
Definition ids_nobody : string := "[" +:+ quoted "nobody" +:+ "]".
Definition uris_1 : string := uris_member +:+ "[" +:+ quoted "blob-1" +:+ "]}".

Definition alice_D1 : User.t := User.Mk 1 (Some "D1").
Definition alice_D2 : User.t := User.Mk 1 (Some "D2").

Definition contact_A : Contact.t :=
  Contact.Mk "contact-a" 1 (Some "ann@example.org") (Some "Ann") (Some "Arden")
    100 None 1 1 0 (Some "D1").

Definition contact_B : Contact.t :=
  Contact.Mk "contact-b" 1 (Some "bob@example.org") (Some "Bob") (Some "Birch")
    200 None 2 2 0 (Some "D1").

(** Both contacts created by D1, nothing updated or trashed. *)
Definition created : ContactTables.t :=
  ContactTables.Mk [contact_A; contact_B] [] {[ 1 := 2 ]}.

(** Then A updated by device D2: historyId 3, lastStmt 1. *)
Definition contact_A_updated : Contact.t :=
  Contact.Mk "contact-a" 1 (Some "ann@example.org") (Some "Ann") (Some "Ardent")
    100 (Some 250) 1 3 1 (Some "D2").

Definition updated : ContactTables.t :=
  ContactTables.Mk [contact_A_updated; contact_B] [] {[ 1 := 3 ]}.

(** A second user who happens to have a contact with the id of B. *)
Definition contact_Z : Contact.t :=
  Contact.Mk "contact-b" 2 (Some "zoe@example.org") (Some "Zoe") (Some "Zimmer")
    150 None 1 1 0 (Some "D9").

Definition shared : ContactTables.t :=
  ContactTables.Mk [contact_A; contact_B; contact_Z] [] {[ 1 := 2; 2 := 1 ]}.

(** Request payloads: the id list of A, a contact to create, and what the
    table fills in for it. *)
Definition ids_A : string := "[" +:+ quoted "contact-a" +:+ "]".

Definition carol : Contact.t :=
  Contact.Mk "" 0 (Some "carol@example.org") (Some "Carol") (Some "Cedar")
    0 None 0 0 0 None.

Definition defaults : Defaults.t := Defaults.Mk "contact-c" 300 3 0 0.

(** The request that gives contact B the name and address of contact A. *)
Definition B_as_A : Contact.t :=
  Contact.Mk "contact-b" 0 (Some "ann@example.org") (Some "Ann") (Some "Arden")
    0 None 0 0 0 None.

(** The request that gives contact B a new first name. *)
Definition renamed_B : Contact.t :=
  Contact.Mk "contact-b" 0 (Some "bob@example.org") (Some "Robert") (Some "Birch")
    0 None 0 0 0 None.

(** One live blob and one trashed blob of the first user. *)
Definition blob_1 : Blob.t :=
  Blob.Mk "blob-1" 1 "h1" "notes.txt" "" "/files/1" 12 "text/plain"
    100 None 1 1 0 (Some "D1").

Definition blob_2 : Blob.t :=
  Blob.Mk "blob-2" 1 "h2" "old.txt" "" "/files/2" 7 "text/plain"
    90 None 2 2 2 (Some "D2").

Definition blobs : BlobTables.t :=
  BlobTables.Mk [blob_1; blob_2] [] {[ 1 := 2 ]}.

End Example.

(** ** Further worked data *)

Module Sample.

(** Two drafts of the first user: one live, written by device D1, and one
    in the trash, written by device D2. *)
Definition draft_1 : Draft.t :=
  Draft.Mk "draft-1" 1 "m-1" None "t-1" false false (Some "{}") None
    100 None 1 1 0 (Some "D1").

Definition draft_2 : Draft.t :=
  Draft.Mk "draft-2" 1 "m-2" None "t-2" false false (Some "{}") None
    200 None 2 2 2 (Some "D2").

Definition drafts : DraftTables.t :=
  DraftTables.Mk [draft_1; draft_2] [] {[ 1 := 2 ]}.

(** The id list [["draft-1"]] as a request text, and a request that gives
    draft 1 a new payload. *)
Definition ids_draft_1 : string := "[" +:+ Example.quoted "draft-1" +:+ "]".

Definition draft_1_edited : Draft.t :=
  Draft.Mk "draft-1" 0 "" None "" false false (Some "{}") None
    0 None 0 0 0 None.

(** What the table fills in for a new draft, and a request that edits
    it. *)
Definition draft_defaults : Defaults.t := Defaults.Mk "draft-3" 300 3 0 0.

Definition draft_3_edited : Draft.t :=
  Draft.Mk "draft-3" 0 "" None "" false false (Some "{}") None
    0 None 0 0 0 None.

(** Requests of the blob repository: new contents for blob 1, a blob to
    create, and what the table fills in for it. *)
Definition blob_1_edited : Blob.t :=
  Blob.Mk "blob-1" 0 "h1b" "renamed.txt" "hello" "/elsewhere" 15 "text/html"
    0 None 0 0 0 None.

Definition blob_3 : Blob.t :=
  Blob.Mk "" 0 "h3" "photo.png" "" "/files/3" 2048 "image/png"
    0 None 0 0 0 None.

Definition blob_defaults : Defaults.t := Defaults.Mk "blob-3" 300 3 0 0.

(** Three messages of the mailbox: two of one thread, in the inbox
    (folder 0) and among the sent messages (folder 1), and one of another
    thread. *)
Definition message (id thread : string) (folder : Z)
    : @Threads.message string Z :=
  Threads.Message id (Threads.Payload {[ "X-Thread-ID" := thread ]} "")
    10 None folder.

Definition mailbox : list (@Threads.message string Z) :=
  [message "m1" "t1" 0; message "m2" "t2" 1; message "m3" "t1" 1].

End Sample.

(* ================================================================== *)
(** * Properties *)

(** ** SQL conditions *)

Lemma holds_and a b : Sql.holds (a &&& b) ↔ Sql.holds a ∧ Sql.holds b.
Proof.
  unfold Sql.holds. destruct a as [[]|], b as [[]|]; simpl; intuition congruence.
Qed.

Lemma holds_or a b : Sql.holds (a ||| b) ↔ Sql.holds a ∨ Sql.holds b.
Proof.
  unfold Sql.holds. destruct a as [[]|], b as [[]|]; simpl; intuition congruence.
Qed.

Lemma holds_eqz a b : Sql.holds (Sql.eqz a b) ↔ a = b.
Proof.
  unfold Sql.holds, Sql.eqz. case_bool_decide; naive_solver.
Qed.

Lemma holds_nez a b : Sql.holds (Sql.nez a b) ↔ a ≠ b.
Proof.
  unfold Sql.holds, Sql.nez. case_bool_decide; naive_solver.
Qed.

Lemma holds_ltz a b : Sql.holds (Sql.ltz a b) ↔ a < b.
Proof.
  unfold Sql.holds, Sql.ltz. case_bool_decide; naive_solver.
Qed.

Lemma holds_gtz a b : Sql.holds (Sql.gtz a b) ↔ b < a.
Proof.
  unfold Sql.holds, Sql.gtz. case_bool_decide; naive_solver.
Qed.

Lemma holds_eqs a b : Sql.holds (Sql.eqs a b) ↔ a = b.
Proof.
  unfold Sql.holds, Sql.eqs. case_bool_decide; naive_solver.
Qed.

Lemma holds_in_list x values : Sql.holds (Sql.in_list x values) ↔ x ∈ values.
Proof.
  unfold Sql.holds, Sql.in_list. case_bool_decide; naive_solver.
Qed.

(** The SQL device filter is the specification's [other_device]. *)
Lemma holds_not_from_device {R} (deviceId : R → option string) caller r :
  Sql.holds (not_from_device (deviceId r) caller)
  ↔ Spec.other_device deviceId caller r.
Proof.
  unfold not_from_device, Spec.other_device.
  rewrite holds_or. unfold Sql.holds, Sql.ne, Sql.is_null.
  destruct (deviceId r) as [d|], caller as [c|]; simpl;
    try case_bool_decide; intuition congruence.
Qed.

Ltac sql_iff :=
  repeat (rewrite holds_and || rewrite holds_eqz || rewrite holds_nez
          || rewrite holds_ltz || rewrite holds_gtz || rewrite holds_eqs
          || rewrite holds_in_list || rewrite holds_not_from_device).

Lemma select_filter {R} (cond : R → Sql.tri) (P : R → Prop)
    `{!∀ r, Decision (P r)} (table : list R) :
  (∀ r, Sql.holds (cond r) ↔ P r) →
  Sql.select cond table = filter P table.
Proof. intros Hiff. unfold Sql.select. apply list_filter_iff, Hiff. Qed.

Lemma elem_of_select {R} (cond : R → Sql.tri) (table : list R) r :
  r ∈ Sql.select cond table ↔ Sql.holds (cond r) ∧ r ∈ table.
Proof. unfold Sql.select. by rewrite list_elem_of_filter. Qed.

Lemma desc_total {R} (created : R → Z) : Total (Sql.desc created).
Proof. intros a b. unfold Sql.desc. lia. Qed.

Lemma desc_trans {R} (created : R → Z) : Transitive (Sql.desc created).
Proof. intros a b c. unfold Sql.desc. lia. Qed.

Lemma order_by_desc_perm {R} (created : R → Z) (rows : list R) :
  Sql.order_by_desc created rows ≡ₚ rows.
Proof. apply merge_sort_Permutation. Qed.

Lemma order_by_desc_sorted {R} (created : R → Z) (rows : list R) :
  StronglySorted (Sql.desc created) (Sql.order_by_desc created rows).
Proof.
  apply StronglySorted_merge_sort; [apply desc_trans | apply desc_total].
Qed.

Lemma bucket_perm {R} (created : R → Z) (cond : R → Sql.tri) (P : R → Prop)
    `{!∀ r, Decision (P r)} (table : list R) :
  (∀ r, Sql.holds (cond r) ↔ P r) →
  Sql.order_by_desc created (Sql.select cond table) ≡ₚ filter P table.
Proof.
  intros Hiff. rewrite order_by_desc_perm. by rewrite (select_filter cond P).
Qed.

(** ** The classification, for any entity table *)

Section classification.
Context {R D : Type}.
Variables (owner historyId : R → Z) (deviceId : R → option string)
  (lastStmt : R → Z).
Variables (ownerD historyIdD : D → Z) (deviceIdD : D → option string).
Variables (user : User.t) (since : Z).
Variables (table : list R) (tombstones : list D).
Variables (inserted updated trashed : list R) (deleted : list D).
Hypothesis Hclass :
  Spec.classified owner historyId deviceId lastStmt ownerD historyIdD
    deviceIdD user since table tombstones inserted updated trashed deleted.

Lemma classified_inserted r :
  r ∈ inserted ↔
  r ∈ table ∧ Spec.in_bucket owner historyId deviceId lastStmt 0 user since r.
Proof.
  destruct Hclass as (-> & _). rewrite list_elem_of_filter. tauto.
Qed.

Lemma classified_updated r :
  r ∈ updated ↔
  r ∈ table ∧ Spec.in_bucket owner historyId deviceId lastStmt 1 user since r.
Proof.
  destruct Hclass as (_ & -> & _). rewrite list_elem_of_filter. tauto.
Qed.

Lemma classified_trashed r :
  r ∈ trashed ↔
  r ∈ table ∧ Spec.in_bucket owner historyId deviceId lastStmt 2 user since r.
Proof.
  destruct Hclass as (_ & _ & -> & _). rewrite list_elem_of_filter. tauto.
Qed.

Lemma classified_deleted d :
  d ∈ deleted ↔
  d ∈ tombstones ∧ Spec.changed_since ownerD historyIdD deviceIdD user since d.
Proof.
  destruct Hclass as (_ & _ & _ & ->). rewrite list_elem_of_filter. tauto.
Qed.

Lemma classified_exclusive : Spec.exclusive inserted updated trashed.
Proof.
  intros r.
  rewrite classified_inserted, classified_updated, classified_trashed.
  unfold Spec.in_bucket. repeat split; intros [[_ [? _]] [_ [? _]]]; lia.
Qed.

Lemma classified_exclusive_keys (key : R → string) (keyD : D → string) :
  Spec.keyed key owner table →
  Spec.buried key owner keyD ownerD table tombstones →
  Spec.exclusive_keys key keyD inserted updated trashed deleted.
Proof.
  intros Hkeyed Hburied k.
  rewrite !list_elem_of_fmap.
  setoid_rewrite classified_inserted.
  setoid_rewrite classified_updated.
  setoid_rewrite classified_trashed.
  setoid_rewrite classified_deleted.
  unfold Spec.in_bucket, Spec.changed_since.
  repeat split.
  1-3: intros [(r1 & -> & Hin1 & Hk1 & Ho1 & _) (r2 & Hkey & Hin2 & Hk2 & Ho2 & _)];
       assert (r1 = r2) by (apply Hkeyed; [done|done|congruence|done]);
       subst; lia.
  all: intros [(r & -> & Hin1 & _ & Ho1 & _) (d & Hkey & Hin2 & Ho2 & _)];
       apply (Hburied r d); [done|done|congruence|done].
Qed.

End classification.

(** ** Sync and List of the contact and blob repositories *)

Lemma contact_sync_where_spec k user history c :
  Sql.holds (ContactRepository.sync_where k user history c) ↔
  Spec.in_bucket Contact.UserId Contact.HistoryId Contact.DeviceId
    Contact.LastStmt k user (History.Id history) c.
Proof.
  unfold ContactRepository.sync_where, Spec.in_bucket, Spec.changed_since.
  sql_iff. tauto.
Qed.

Lemma contact_deleted_where_spec user history d :
  Sql.holds (ContactRepository.deleted_where user history d) ↔
  Spec.changed_since ContactDeleted.UserId ContactDeleted.HistoryId
    ContactDeleted.DeviceId user (History.Id history) d.
Proof.
  unfold ContactRepository.deleted_where, Spec.changed_since.
  sql_iff. tauto.
Qed.

Lemma contact_list_where_spec user c :
  Sql.holds (ContactRepository.list_where user c) ↔
  Spec.live Contact.UserId Contact.LastStmt user c.
Proof. unfold ContactRepository.list_where, Spec.live. sql_iff. tauto. Qed.

Lemma blob_sync_where_spec k user history b :
  Sql.holds (BlobRepository.sync_where k user history b) ↔
  Spec.in_bucket Blob.UserId Blob.HistoryId Blob.DeviceId
    Blob.LastStmt k user (History.Id history) b.
Proof.
  unfold BlobRepository.sync_where, Spec.in_bucket, Spec.changed_since.
  sql_iff. tauto.
Qed.

Lemma blob_updated_where_spec user history b :
  Sql.holds (BlobRepository.updated_where user history b) ↔
  Spec.in_bucket Blob.UserId Blob.HistoryId Blob.DeviceId
    Blob.LastStmt 1 user (History.Id history) b.
Proof.
  unfold BlobRepository.updated_where, Spec.in_bucket, Spec.changed_since.
  sql_iff. tauto.
Qed.

Lemma blob_deleted_where_spec user history d :
  Sql.holds (BlobRepository.deleted_where user history d) ↔
  Spec.changed_since BlobDeleted.UserId BlobDeleted.HistoryId
    BlobDeleted.DeviceId user (History.Id history) d.
Proof.
  unfold BlobRepository.deleted_where, Spec.changed_since.
  sql_iff. tauto.
Qed.

Lemma blob_list_where_spec user b :
  Sql.holds (BlobRepository.list_where user b) ↔
  Spec.live Blob.UserId Blob.LastStmt user b.
Proof. unfold BlobRepository.list_where, Spec.live. sql_iff. tauto. Qed.

(** Unfolds the connection monad along a run. *)
Ltac db_run :=
  cbv [run transaction QueryContext QueryRowContext ExecContext
       QueryRowReturning map_err mbind DB_bind mret DB_ret round_trip
       get_tables put_tables fail faults tables].

(** Without storage faults, Sync answers as soon as the user has a row in
    the sequence table. *)
Lemma contact_Sync_quiet user history t :
  run (ContactRepository.Sync user history) t [] =
  (match ContactTables.contact_history_seq t !! User.Id user with
   | Some h =>
     Ok (ContactSync.Mk h
           (Sql.order_by_desc Contact.CreatedAt
              (Sql.select (ContactRepository.sync_where 0 user history)
                 (ContactTables.contact t)))
           (Sql.order_by_desc Contact.CreatedAt
              (Sql.select (ContactRepository.sync_where 1 user history)
                 (ContactTables.contact t)))
           (Sql.order_by_desc Contact.CreatedAt
              (Sql.select (ContactRepository.sync_where 2 user history)
                 (ContactTables.contact t)))
           (Sql.select (ContactRepository.deleted_where user history)
              (ContactTables.contact_deleted t)))
   | None => Err (SqlErr ErrNoRows)
   end, t).
Proof.
  unfold ContactRepository.Sync, ContactRepository.select_history, seq_rows.
  db_run.
  destruct (ContactTables.contact_history_seq t !! User.Id user); reflexivity.
Qed.

Lemma blob_Sync_quiet user history t :
  run (BlobRepository.Sync user history) t [] =
  (match BlobTables.BlobHistorySeq t !! User.Id user with
   | Some h =>
     Ok (BlobSync.Mk h
           (Sql.order_by_desc Blob.CreatedAt
              (Sql.select (BlobRepository.sync_where 0 user history)
                 (BlobTables.Blob t)))
           (Sql.order_by_desc Blob.CreatedAt
              (Sql.select (BlobRepository.updated_where user history)
                 (BlobTables.Blob t)))
           (Sql.order_by_desc Blob.CreatedAt
              (Sql.select (BlobRepository.sync_where 2 user history)
                 (BlobTables.Blob t)))
           (Sql.select (BlobRepository.deleted_where user history)
              (BlobTables.BlobDeleted t)))
   | None => Err (SqlErr ErrNoRows)
   end, t).
Proof.
  unfold BlobRepository.Sync, BlobRepository.select_history, seq_rows.
  db_run.
  destruct (BlobTables.BlobHistorySeq t !! User.Id user); reflexivity.
Qed.

Lemma contact_Sync_classified user history t :
  Spec.classified Contact.UserId Contact.HistoryId Contact.DeviceId
    Contact.LastStmt ContactDeleted.UserId ContactDeleted.HistoryId
    ContactDeleted.DeviceId user (History.Id history)
    (ContactTables.contact t) (ContactTables.contact_deleted t)
    (Sql.order_by_desc Contact.CreatedAt
       (Sql.select (ContactRepository.sync_where 0 user history)
          (ContactTables.contact t)))
    (Sql.order_by_desc Contact.CreatedAt
       (Sql.select (ContactRepository.sync_where 1 user history)
          (ContactTables.contact t)))
    (Sql.order_by_desc Contact.CreatedAt
       (Sql.select (ContactRepository.sync_where 2 user history)
          (ContactTables.contact t)))
    (Sql.select (ContactRepository.deleted_where user history)
       (ContactTables.contact_deleted t)).
Proof.
  repeat split.
  1-3: apply bucket_perm, contact_sync_where_spec.
  erewrite select_filter; [done | apply contact_deleted_where_spec].
Qed.

Lemma blob_Sync_classified user history t :
  Spec.classified Blob.UserId Blob.HistoryId Blob.DeviceId
    Blob.LastStmt BlobDeleted.UserId BlobDeleted.HistoryId
    BlobDeleted.DeviceId user (History.Id history)
    (BlobTables.Blob t) (BlobTables.BlobDeleted t)
    (Sql.order_by_desc Blob.CreatedAt
       (Sql.select (BlobRepository.sync_where 0 user history)
          (BlobTables.Blob t)))
    (Sql.order_by_desc Blob.CreatedAt
       (Sql.select (BlobRepository.updated_where user history)
          (BlobTables.Blob t)))
    (Sql.order_by_desc Blob.CreatedAt
       (Sql.select (BlobRepository.sync_where 2 user history)
          (BlobTables.Blob t)))
    (Sql.select (BlobRepository.deleted_where user history)
       (BlobTables.BlobDeleted t)).
Proof.
  repeat split.
  - apply bucket_perm, blob_sync_where_spec.
  - apply bucket_perm, blob_updated_where_spec.
  - apply bucket_perm, blob_sync_where_spec.
  - erewrite select_filter; [done | apply blob_deleted_where_spec].
Qed.

(** C1. For every user, calling device and sinceHistoryId, Sync of the
    contact and of the blob repository partitions the changed rows by
    their current lastStmt under the device-exclusion filter: the inserted
    bucket holds exactly the user's rows with lastStmt = 0, historyId >
    sinceHistoryId and (deviceId <> callerDevice or deviceId NULL); the
    updated and trashed buckets the same with lastStmt = 1 and 2; the
    deleted bucket exactly the user's tombstones with historyId >
    sinceHistoryId under the same device filter.  Consequently no row is
    in two entity buckets, and where ids are unique per user and a
    tombstoned record is gone from the entity table, no record id is in
    two of the four buckets. *)
Theorem sync_partitions_changes :
  (∀ (user : User.t) (history : History.t) (t : ContactTables.t) (h : Z),
     ContactTables.contact_history_seq t !! User.Id user = Some h →
     ∃ s, run (ContactRepository.Sync user history) t [] = (Ok s, t) ∧
       ContactSync.History s = h ∧
       Spec.classified Contact.UserId Contact.HistoryId Contact.DeviceId
         Contact.LastStmt ContactDeleted.UserId ContactDeleted.HistoryId
         ContactDeleted.DeviceId user (History.Id history)
         (ContactTables.contact t) (ContactTables.contact_deleted t)
         (ContactSync.ContactsInserted s) (ContactSync.ContactsUpdated s)
         (ContactSync.ContactsTrashed s) (ContactSync.ContactsDeleted s) ∧
       Spec.exclusive (ContactSync.ContactsInserted s)
         (ContactSync.ContactsUpdated s) (ContactSync.ContactsTrashed s) ∧
       (Spec.keyed Contact.Id Contact.UserId (ContactTables.contact t) →
        Spec.buried Contact.Id Contact.UserId ContactDeleted.Id
          ContactDeleted.UserId (ContactTables.contact t)
          (ContactTables.contact_deleted t) →
        Spec.exclusive_keys Contact.Id ContactDeleted.Id
          (ContactSync.ContactsInserted s) (ContactSync.ContactsUpdated s)
          (ContactSync.ContactsTrashed s) (ContactSync.ContactsDeleted s)))
  ∧
  (∀ (user : User.t) (history : History.t) (t : BlobTables.t) (h : Z),
     BlobTables.BlobHistorySeq t !! User.Id user = Some h →
     ∃ s, run (BlobRepository.Sync user history) t [] = (Ok s, t) ∧
       BlobSync.History s = h ∧
       Spec.classified Blob.UserId Blob.HistoryId Blob.DeviceId
         Blob.LastStmt BlobDeleted.UserId BlobDeleted.HistoryId
         BlobDeleted.DeviceId user (History.Id history)
         (BlobTables.Blob t) (BlobTables.BlobDeleted t)
         (BlobSync.BlobsInserted s) (BlobSync.BlobsUpdated s)
         (BlobSync.BlobsTrashed s) (BlobSync.BlobsDeleted s) ∧
       Spec.exclusive (BlobSync.BlobsInserted s)
         (BlobSync.BlobsUpdated s) (BlobSync.BlobsTrashed s) ∧
       (Spec.keyed Blob.Uri Blob.UserId (BlobTables.Blob t) →
        Spec.buried Blob.Uri Blob.UserId BlobDeleted.Uri
          BlobDeleted.UserId (BlobTables.Blob t)
          (BlobTables.BlobDeleted t) →
        Spec.exclusive_keys Blob.Uri BlobDeleted.Uri
          (BlobSync.BlobsInserted s) (BlobSync.BlobsUpdated s)
          (BlobSync.BlobsTrashed s) (BlobSync.BlobsDeleted s))).
Proof.
  split; intros user history t h Hseq.
  - rewrite contact_Sync_quiet, Hseq.
    eexists; split; [reflexivity|]; simpl.
    pose proof (contact_Sync_classified user history t) as Hc.
    split; [done|]. split; [done|]. split.
    + eapply classified_exclusive; exact Hc.
    + intros Hk Hb.
      eapply classified_exclusive_keys; [exact Hc | exact Hk | exact Hb].
  - rewrite blob_Sync_quiet, Hseq.
    eexists; split; [reflexivity|]; simpl.
    pose proof (blob_Sync_classified user history t) as Hc.
    split; [done|]. split; [done|]. split.
    + eapply classified_exclusive; exact Hc.
    + intros Hk Hb.
      eapply classified_exclusive_keys; [exact Hc | exact Hk | exact Hb].
Qed.

Lemma contact_List_quiet user t :
  run (ContactRepository.List user) t [] =
  (match ContactTables.contact_history_seq t !! User.Id user with
   | Some h =>
     Ok (ContactList.Mk h
           (Sql.order_by_desc Contact.CreatedAt
              (Sql.select (ContactRepository.list_where user)
                 (ContactTables.contact t))))
   | None => Err (SqlErr ErrNoRows)
   end, t).
Proof.
  unfold ContactRepository.List, ContactRepository.select_history, seq_rows.
  db_run.
  destruct (ContactTables.contact_history_seq t !! User.Id user); reflexivity.
Qed.

Lemma blob_List_quiet user t :
  run (BlobRepository.List user) t [] =
  (match BlobTables.BlobHistorySeq t !! User.Id user with
   | Some h =>
     Ok (BlobList.Mk h
           (Sql.select (BlobRepository.list_where user) (BlobTables.Blob t)))
   | None => Err (SqlErr ErrNoRows)
   end, t).
Proof.
  unfold BlobRepository.List, BlobRepository.select_history, seq_rows.
  db_run.
  destruct (BlobTables.BlobHistorySeq t !! User.Id user); reflexivity.
Qed.

(** A read-only transaction of two statements under any schedule of
    faults: the tables are never touched. *)
Lemma contact_List_snapshot user t schedule :
  (run (ContactRepository.List user) t schedule).2 = t.
Proof.
  unfold ContactRepository.List, ContactRepository.select_history, seq_rows.
  destruct schedule as [|[] [|[] [|[] [|[] ?]]]]; db_run;
    destruct (ContactTables.contact_history_seq t !! User.Id user);
    reflexivity.
Qed.

Lemma blob_List_snapshot user t schedule :
  (run (BlobRepository.List user) t schedule).2 = t.
Proof.
  unfold BlobRepository.List, BlobRepository.select_history, seq_rows.
  destruct schedule as [|[] [|[] [|[] [|[] ?]]]]; db_run;
    destruct (BlobTables.BlobHistorySeq t !! User.Id user);
    reflexivity.
Qed.

(** C4. For every user, List returns exactly the user's rows with
    lastStmt < 2 together with the user's high-water-mark, read in one
    transaction that leaves the tables as they were: the contact list
    ordered by creation time descending, the blob list (whose query has no
    ORDER BY) in table order. *)
Theorem list_returns_live_rows :
  (∀ (user : User.t) (t : ContactTables.t) (h : Z),
     ContactTables.contact_history_seq t !! User.Id user = Some h →
     (∃ l, run (ContactRepository.List user) t [] = (Ok l, t) ∧
        ContactList.History l = h ∧
        ContactList.Contacts l ≡ₚ
          filter (Spec.live Contact.UserId Contact.LastStmt user)
            (ContactTables.contact t) ∧
        StronglySorted (Sql.desc Contact.CreatedAt) (ContactList.Contacts l)) ∧
     ∀ schedule, (run (ContactRepository.List user) t schedule).2 = t)
  ∧
  (∀ (user : User.t) (t : BlobTables.t) (h : Z),
     BlobTables.BlobHistorySeq t !! User.Id user = Some h →
     (∃ l, run (BlobRepository.List user) t [] = (Ok l, t) ∧
        BlobList.History l = h ∧
        BlobList.Blobs l =
          filter (Spec.live Blob.UserId Blob.LastStmt user)
            (BlobTables.Blob t)) ∧
     ∀ schedule, (run (BlobRepository.List user) t schedule).2 = t).
Proof.
  split; intros user t h Hseq; (split; [|intros; auto using contact_List_snapshot, blob_List_snapshot]).
  - rewrite contact_List_quiet, Hseq.
    eexists; split; [reflexivity|]; simpl. split; [done|]. split.
    + apply bucket_perm, contact_list_where_spec.
    + apply order_by_desc_sorted.
  - rewrite blob_List_quiet, Hseq.
    eexists; split; [reflexivity|]; simpl. split; [done|].
    apply select_filter, blob_list_where_spec.
Qed.

(** ** The first Sync against List *)

Lemma filter_iff_in {A} (P1 P2 : A → Prop)
    `{!∀ x, Decision (P1 x), !∀ x, Decision (P2 x)} (l : list A) :
  (∀ x, x ∈ l → (P1 x ↔ P2 x)) →
  filter P1 l = filter P2 l.
Proof.
  induction l as [|a l IH]; intros Hiff; [done|].
  rewrite !filter_cons.
  rewrite IH by (intros x Hx; apply Hiff; by right).
  apply decide_ext, Hiff. by left.
Qed.

(** C3, as amended.  For every user whose contacts have never been
    updated or trashed (lastStmt = 0, with the positive history ids the
    sequencer hands out), and without storage faults, the inserted bucket
    of Sync(user, 0) holds exactly the contacts of List(user) that are not
    attributed to the calling device (deviceId NULL or different from the
    caller's), and the two high-water-marks are equal. *)
Theorem first_sync_is_list_minus_own_changes :
  ∀ (user : User.t) (t : ContactTables.t) (h : Z),
    ContactTables.contact_history_seq t !! User.Id user = Some h →
    (∀ c, c ∈ ContactTables.contact t → Contact.UserId c = User.Id user →
          Contact.LastStmt c = 0 ∧ 0 < Contact.HistoryId c) →
    ∃ l s,
      run (ContactRepository.List user) t [] = (Ok l, t) ∧
      run (ContactRepository.Sync user (History.Mk 0)) t [] = (Ok s, t) ∧
      ContactSync.ContactsInserted s ≡ₚ
        filter (Spec.other_device Contact.DeviceId (User.DeviceId user))
          (ContactList.Contacts l) ∧
      ContactSync.History s = ContactList.History l.
Proof.
  intros user t h Hseq Hfresh.
  rewrite contact_List_quiet, contact_Sync_quiet, Hseq.
  do 2 eexists. split; [reflexivity|]. split; [reflexivity|]. simpl.
  split; [|done].
  rewrite (bucket_perm _ _ _ _ (contact_sync_where_spec 0 user _)).
  rewrite (bucket_perm _ _ _ _ (contact_list_where_spec user)).
  rewrite list_filter_filter. simpl.
  erewrite filter_iff_in; [reflexivity|].
  intros c Hc. unfold Spec.in_bucket, Spec.changed_since, Spec.live.
  split.
  - intros (Hk & Ho & _ & Hd). rewrite Hk. repeat split; done || lia.
  - intros (Hd & Ho & _). destruct (Hfresh c Hc Ho) as [Hk Hh]. done.
Qed.

(** C3 as stated fails: with both contacts created by device D1 and never
    updated or trashed, List returns both of them to D1 while the inserted
    bucket of D1's Sync(user, 0) is empty. *)
Lemma first_sync_differs_from_list :
  (∀ c, c ∈ ContactTables.contact Example.created →
        Contact.UserId c = User.Id Example.alice_D1 →
        Contact.LastStmt c = 0) ∧
  ∃ l s,
    run (ContactRepository.List Example.alice_D1) Example.created []
      = (Ok l, Example.created) ∧
    run (ContactRepository.Sync Example.alice_D1 (History.Mk 0)) Example.created []
      = (Ok s, Example.created) ∧
    ContactList.Contacts l = [Example.contact_B; Example.contact_A] ∧
    ContactSync.ContactsInserted s = [] ∧
    ¬ (ContactSync.ContactsInserted s ≡ₚ ContactList.Contacts l).
Proof.
  split.
  - intros c Hc _. unfold Example.created in Hc. simpl in Hc.
    apply list_elem_of_In in Hc. simpl in Hc.
    destruct Hc as [<-|[<-|[]]]; reflexivity.
  - do 2 eexists. split; [vm_compute; reflexivity|].
    split; [vm_compute; reflexivity|]. simpl.
    split; [reflexivity|]. split; [reflexivity|].
    intros Hp. by apply Permutation_nil_l in Hp.
Qed.

(** ** Statements that rewrite rows *)

Section update_where.
Context {R : Type} (owner : R → Z).
Variables (cond : R → Sql.tri) (set : R → R) (after : Z → R → R).

Lemma next_history_mono uid seq v :
  default 0 (seq !! v) ≤ default 0 ((next_history uid seq).2 !! v).
Proof.
  unfold next_history. simpl. destruct (decide (uid = v)) as [->|Hne].
  - rewrite lookup_insert_eq. simpl. lia.
  - by rewrite lookup_insert_ne.
Qed.

Lemma update_where_nomatch table seq :
  (∀ r, r ∈ table → ¬ Sql.holds (cond r)) →
  update_where owner cond set after table seq = (table, [], seq).
Proof.
  induction table as [|r table IH]; intros Hno; [done|]. simpl.
  rewrite decide_False by (apply Hno; by left).
  rewrite IH by (intros x Hx; apply Hno; by right). done.
Qed.

Lemma update_where_mono table seq v :
  default 0 (seq !! v) ≤ default 0 ((update_where owner cond set after table seq).2 !! v).
Proof.
  revert seq. induction table as [|r table IH]; intros seq; simpl; [done|].
  destruct (decide (Sql.holds (cond r))).
  - specialize (IH (<[owner r := default 0 (seq !! owner r) + 1]> seq)).
    destruct (update_where _ _ _ _ table _) as [[t' ret] seq'] eqn:E. simpl in *.
    etrans; [|exact IH].
    apply (next_history_mono (owner r) seq v).
  - specialize (IH seq).
    destruct (update_where _ _ _ _ table _) as [[t' ret] seq'] eqn:E. done.
Qed.

Lemma update_where_seq_frame table seq v :
  (∀ r, r ∈ table → Sql.holds (cond r) → owner r ≠ v) →
  (update_where owner cond set after table seq).2 !! v = seq !! v.
Proof.
  revert seq. induction table as [|r table IH]; intros seq Hv; simpl; [done|].
  destruct (decide (Sql.holds (cond r))) as [Hr|Hr].
  - specialize (IH (<[owner r := default 0 (seq !! owner r) + 1]> seq)).
    destruct (update_where _ _ _ _ table _) as [[t' ret] seq'] eqn:E. simpl in *.
    rewrite IH by (intros x Hx; apply Hv; by right).
    apply lookup_insert_ne, Hv; [by left|done].
  - specialize (IH seq).
    destruct (update_where _ _ _ _ table _) as [[t' ret] seq'] eqn:E. simpl in *.
    apply IH. intros x Hx; apply Hv; by right.
Qed.

Lemma update_where_rows table seq :
  Forall2 (rewritten owner cond set after seq (update_where owner cond set after table seq).2)
    table (update_where owner cond set after table seq).1.1.
Proof.
  revert seq. induction table as [|r table IH]; intros seq; simpl; [constructor|].
  destruct (decide (Sql.holds (cond r))) as [Hr|Hr].
  - pose proof (update_where_mono table (<[owner r := default 0 (seq !! owner r) + 1]> seq)) as Hm.
    specialize (IH (<[owner r := default 0 (seq !! owner r) + 1]> seq)).
    destruct (update_where _ _ _ _ table _) as [[t' ret] seq'] eqn:E. simpl in *.
    constructor.
    + unfold rewritten. rewrite decide_True by done.
      eexists; split; [reflexivity|].
      specialize (Hm (owner r)). rewrite lookup_insert_eq in Hm. simpl in Hm. lia.
    + eapply Forall2_impl; [exact IH|].
      intros x y. unfold rewritten. destruct (decide _); [|done].
      intros (h0 & -> & Hh). exists h0. split; [done|].
      pose proof (next_history_mono (owner r) seq (owner x)) as Hn.
      unfold next_history in Hn; simpl in Hn. lia.
  - specialize (IH seq).
    destruct (update_where _ _ _ _ table _) as [[t' ret] seq'] eqn:E. simpl in *.
    constructor; [|done].
    unfold rewritten. by rewrite decide_False.
Qed.


Lemma rewritten_filter_frame (Q : R → Prop) `{!∀ r, Decision (Q r)}
    seq seq' table table' :
  (∀ r, Sql.holds (cond r) → ¬ Q r) →
  (∀ r h, Sql.holds (cond r) → ¬ Q (after h (set r))) →
  Forall2 (rewritten owner cond set after seq seq') table table' →
  filter Q table' = filter Q table.
Proof.
  intros Hold Hnew. induction 1 as [|r r' table table' Hr _ IH]; [done|].
  rewrite !filter_cons, IH. unfold rewritten in Hr.
  destruct (decide (Sql.holds (cond r))) as [Hc|Hc].
  - destruct Hr as (h & -> & _).
    rewrite !decide_False; [done|by apply Hold|by apply Hnew].
  - by subst.
Qed.

Lemma rewritten_count (Q : R → Prop) `{!∀ r, Decision (Q r)}
    seq seq' table table' :
  (∀ r h, Sql.holds (cond r) → Q (after h (set r))) →
  Forall2 (rewritten owner cond set after seq seq') table table' →
  length (filter Q table') =
  (length (filter (λ r, Sql.holds (cond r)) table) +
   length (filter (λ r, ¬ Sql.holds (cond r) ∧ Q r) table))%nat.
Proof.
  intros Hnew. induction 1 as [|r r' table table' Hr _ IH]; [done|].
  rewrite !filter_cons. unfold rewritten in Hr.
  destruct (decide (Sql.holds (cond r))) as [Hc|Hc].
  - destruct Hr as (h & -> & _).
    rewrite decide_True by by apply Hnew.
    rewrite decide_False by tauto. simpl. by rewrite IH.
  - subst r'. destruct (decide (Q r)).
    + rewrite decide_True by tauto. simpl. rewrite IH. lia.
    + rewrite decide_False by tauto. done.
Qed.

Lemma update_where_stamped_head table seq r0 rest :
  filter (λ r, Sql.holds (cond r)) table = r0 :: rest →
  ∃ ret, (update_where owner cond set after table seq).1.2 =
         after (default 0 (seq !! owner r0) + 1) (set r0) :: ret.
Proof.
  revert seq. induction table as [|r table IH]; intros seq; [done|].
  rewrite filter_cons. simpl.
  destruct (decide (Sql.holds (cond r))) as [Hc|Hc].
  - intros [= <- <-].
    destruct (update_where _ _ _ _ table _) as [[t' ret] seq'] eqn:E. simpl.
    by eexists.
  - intros Hf. destruct (IH seq Hf) as [ret Hret].
    destruct (update_where _ _ _ _ table _) as [[t' ret'] seq'] eqn:E. simpl in *.
    by eexists.
Qed.

Lemma update_where_stamped_length table seq :
  length (update_where owner cond set after table seq).1.2 =
  length (filter (λ r, Sql.holds (cond r)) table).
Proof.
  revert seq. induction table as [|r table IH]; intros seq; [done|].
  rewrite filter_cons. simpl.
  destruct (decide (Sql.holds (cond r))) as [Hc|Hc].
  - specialize (IH (<[owner r := default 0 (seq !! owner r) + 1]> seq)).
    destruct (update_where _ _ _ _ table _) as [[t' ret] seq'] eqn:E. simpl in *.
    by rewrite IH.
  - specialize (IH seq).
    destruct (update_where _ _ _ _ table _) as [[t' ret] seq'] eqn:E. done.
Qed.

Lemma update_where_stamped_shape table seq :
  Forall (λ r', r' ∈ (update_where owner cond set after table seq).1.1 ∧
                ∃ r h, r ∈ table ∧ Sql.holds (cond r) ∧ r' = after h (set r))
    (update_where owner cond set after table seq).1.2.
Proof.
  revert seq. induction table as [|r table IH]; intros seq; simpl; [constructor|].
  destruct (decide (Sql.holds (cond r))) as [Hc|Hc].
  - specialize (IH (<[owner r := default 0 (seq !! owner r) + 1]> seq)).
    destruct (update_where _ _ _ _ table _) as [[t' ret] seq'] eqn:E. simpl in *.
    constructor.
    + split; [by left|]. eexists _, _. split; [by left|done].
    + eapply Forall_impl; [exact IH|]. simpl.
      intros x (Hx & r1 & h1 & Hr1 & Hc1 & ->).
      split; [by right|]. eexists _, _. split; [by right|done].
  - specialize (IH seq).
    destruct (update_where _ _ _ _ table _) as [[t' ret] seq'] eqn:E. simpl in *.
    eapply Forall_impl; [exact IH|]. simpl.
    intros x (Hx & r1 & h1 & Hr1 & Hc1 & ->).
    split; [by right|]. eexists _, _. split; [by right|done].
Qed.

End update_where.

(** ** Bulk operations *)

Lemma ExecContext_run {T} (stmt : T → sqlerr + T) t schedule :
  run (ExecContext stmt) t schedule =
  match schedule with
  | true :: _ => (Err (SqlErr deadline_exceeded), t)
  | _ => match stmt t with
         | inl e => (Err (SqlErr e), t)
         | inr t' => (Ok tt, t')
         end
  end.
Proof.
  destruct schedule as [|[] ?]; db_run; try reflexivity;
    destruct (stmt t); reflexivity.
Qed.

Lemma length_zero_empty (s : string) : ¬ (0 < String.length s)%nat ↔ s = "".
Proof. destruct s; simpl; split; intros; (done || lia). Qed.

Lemma filter_all_in {A} (P : A → Prop) `{!∀ x, Decision (P x)} (l : list A) :
  (∀ x, x ∈ l → P x) → filter P l = l.
Proof.
  induction l as [|a l IH]; intros Hall; [done|].
  rewrite filter_cons_True by (apply Hall; by left).
  rewrite IH; [done|]. intros x Hx. apply Hall. by right.
Qed.

Lemma delete_where_filter_frame {R} (cond : R → Sql.tri) (Q : R → Prop)
    `{!∀ r, Decision (Q r)} table :
  (∀ r, Sql.holds (cond r) → ¬ Q r) →
  filter Q (delete_where cond table) = filter Q table.
Proof.
  intros Hq. unfold delete_where. rewrite list_filter_filter.
  apply list_filter_iff. intros r. split; [tauto|].
  intros HQ. split; [done|]. intros Hc. by apply (Hq r).
Qed.


Section update_where_more.
Context {R : Type} (owner : R → Z).
Variables (cond : R → Sql.tri) (set : R → R) (after : Z → R → R).

Lemma update_where_keeps_seq table seq v :
  is_Some (seq !! v) →
  is_Some ((update_where owner cond set after table seq).2 !! v).
Proof.
  revert seq. induction table as [|r table IH]; intros seq Hv; simpl; [done|].
  destruct (decide (Sql.holds (cond r))) as [Hr|Hr].
  - specialize (IH (<[owner r := default 0 (seq !! owner r) + 1]> seq)).
    destruct (update_where _ _ _ _ table _) as [[t' ret] seq'] eqn:E. simpl in *.
    apply IH. destruct (decide (owner r = v)) as [->|Hne].
    + rewrite lookup_insert_eq. by eexists.
    + by rewrite lookup_insert_ne.
  - specialize (IH seq).
    destruct (update_where _ _ _ _ table _) as [[t' ret] seq'] eqn:E. simpl in *.
    by apply IH.
Qed.

Lemma update_where_marks_seq table seq r :
  r ∈ table → Sql.holds (cond r) →
  is_Some ((update_where owner cond set after table seq).2 !! owner r).
Proof.
  revert seq. induction table as [|x table IH]; intros seq Hin Hc.
  { by apply elem_of_nil in Hin. }
  simpl. destruct (decide (Sql.holds (cond x))) as [Hx|Hx].
  - pose proof (update_where_keeps_seq table
      (<[owner x := default 0 (seq !! owner x) + 1]> seq) (owner r)) as Hk.
    specialize (IH (<[owner x := default 0 (seq !! owner x) + 1]> seq)).
    destruct (update_where _ _ _ _ table _) as [[t' ret] seq'] eqn:E. simpl in *.
    apply elem_of_cons in Hin as [->|Hin].
    + apply Hk. rewrite lookup_insert_eq. by eexists.
    + by apply IH.
  - specialize (IH seq).
    destruct (update_where _ _ _ _ table _) as [[t' ret] seq'] eqn:E. simpl in *.
    apply elem_of_cons in Hin as [->|Hin]; [done|]. by apply IH.
Qed.

End update_where_more.


(** ** Sync of the draft repository *)

Lemma draft_sync_where_spec k user history c :
  Sql.holds (DraftRepository.sync_where k user history c) ↔
  Spec.in_bucket Draft.UserId Draft.HistoryId Draft.DeviceId
    Draft.LastStmt k user (History.Id history) c.
Proof.
  unfold DraftRepository.sync_where, Spec.in_bucket, Spec.changed_since.
  sql_iff. tauto.
Qed.

Lemma draft_deleted_where_spec user history d :
  Sql.holds (DraftRepository.deleted_where user history d) ↔
  Spec.changed_since DraftDeleted.UserId DraftDeleted.HistoryId
    DraftDeleted.DeviceId user (History.Id history) d.
Proof.
  unfold DraftRepository.deleted_where, Spec.changed_since.
  sql_iff. tauto.
Qed.

(** Without storage faults, Sync answers as soon as the user has a row in
    the sequence table. *)
Lemma draft_Sync_quiet user history t :
  run (DraftRepository.Sync user history) t [] =
  (match DraftTables.DraftHistorySeq t !! User.Id user with
   | Some h =>
     Ok (DraftSync.Mk h
           (Sql.order_by_desc Draft.CreatedAt
              (Sql.select (DraftRepository.sync_where 0 user history)
                 (DraftTables.Draft t)))
           (Sql.order_by_desc Draft.CreatedAt
              (Sql.select (DraftRepository.sync_where 1 user history)
                 (DraftTables.Draft t)))
           (Sql.order_by_desc Draft.CreatedAt
              (Sql.select (DraftRepository.sync_where 2 user history)
                 (DraftTables.Draft t)))
           (Sql.select (DraftRepository.deleted_where user history)
              (DraftTables.DraftDeleted t)))
   | None => Err (SqlErr ErrNoRows)
   end, t).
Proof.
  unfold DraftRepository.Sync, DraftRepository.select_history, seq_rows.
  db_run.
  destruct (DraftTables.DraftHistorySeq t !! User.Id user); reflexivity.
Qed.

Lemma draft_Sync_classified user history t :
  Spec.classified Draft.UserId Draft.HistoryId Draft.DeviceId
    Draft.LastStmt DraftDeleted.UserId DraftDeleted.HistoryId
    DraftDeleted.DeviceId user (History.Id history)
    (DraftTables.Draft t) (DraftTables.DraftDeleted t)
    (Sql.order_by_desc Draft.CreatedAt
       (Sql.select (DraftRepository.sync_where 0 user history)
          (DraftTables.Draft t)))
    (Sql.order_by_desc Draft.CreatedAt
       (Sql.select (DraftRepository.sync_where 1 user history)
          (DraftTables.Draft t)))
    (Sql.order_by_desc Draft.CreatedAt
       (Sql.select (DraftRepository.sync_where 2 user history)
          (DraftTables.Draft t)))
    (Sql.select (DraftRepository.deleted_where user history)
       (DraftTables.DraftDeleted t)).
Proof.
  repeat split.
  1-3: apply bucket_perm, draft_sync_where_spec.
  erewrite select_filter; [done | apply draft_deleted_where_spec].
Qed.


(** ** Bulk operations of the contact repository *)

Section contact_bulk.
Context `{Outside}.

Lemma contact_bulk_cond_spec uid values c :
  Sql.holds (ContactRepository.bulk_cond uid values c) ↔
  Spec.listed Contact.Id Contact.UserId uid values c.
Proof. unfold ContactRepository.bulk_cond, Spec.listed. sql_iff. tauto. Qed.

Lemma contact_tables_eta t :
  ContactTables.Mk (ContactTables.contact t) (ContactTables.contact_deleted t)
    (ContactTables.contact_history_seq t) = t.
Proof. by destruct t. Qed.

(** The statements of the three bulk operations, on well-formed JSON. *)
Lemma contact_update_last_stmt_ok k dev uid idList values t :
  json_each idList None = Some values →
  ∃ t', ContactRepository.update_last_stmt k dev uid idList t = inr t' ∧
    ContactTables.contact_deleted t' = ContactTables.contact_deleted t ∧
    Forall2
      (rewritten Contact.UserId (ContactRepository.bulk_cond uid values)
         (Contact.set_last_stmt k (deviceColumn dev)) Contact.stamp
         (ContactTables.contact_history_seq t)
         (ContactTables.contact_history_seq t'))
      (ContactTables.contact t) (ContactTables.contact t') ∧
    (∀ v, v ≠ uid → ContactTables.contact_history_seq t' !! v =
                    ContactTables.contact_history_seq t !! v) ∧
    ((∀ c, c ∈ ContactTables.contact t →
           ¬ Spec.listed Contact.Id Contact.UserId uid values c) → t' = t).
Proof.
  intros Hjson. unfold ContactRepository.update_last_stmt, id_values.
  rewrite Hjson.
  pose proof (update_where_rows Contact.UserId
    (ContactRepository.bulk_cond uid values)
    (Contact.set_last_stmt k (deviceColumn dev)) Contact.stamp
    (ContactTables.contact t) (ContactTables.contact_history_seq t)) as Hrows.
  pose proof (λ v, update_where_seq_frame Contact.UserId
    (ContactRepository.bulk_cond uid values)
    (Contact.set_last_stmt k (deviceColumn dev)) Contact.stamp
    (ContactTables.contact t) (ContactTables.contact_history_seq t) v) as Hseq.
  pose proof (update_where_nomatch Contact.UserId
    (ContactRepository.bulk_cond uid values)
    (Contact.set_last_stmt k (deviceColumn dev)) Contact.stamp
    (ContactTables.contact t) (ContactTables.contact_history_seq t)) as Hno.
  destruct (update_where _ _ _ _ _ _) as [[table ret] seq]. simpl in *.
  eexists. split; [reflexivity|]. simpl. split; [done|]. split; [done|]. split.
  - intros v Hv. apply Hseq. intros c _ Hc%contact_bulk_cond_spec.
    destruct Hc as [-> _]. done.
  - intros Hnone.
    assert (Hno' : (table, ret, seq) = (ContactTables.contact t, [],
                      ContactTables.contact_history_seq t)).
    { apply Hno. intros c Hc. rewrite contact_bulk_cond_spec. by apply Hnone. }
    injection Hno' as -> -> ->. apply contact_tables_eta.
Qed.

End contact_bulk.


Section contact_bulk_theorems.
Context `{Outside}.

Lemma contact_delete_contacts_ok uid idList values t :
  json_each idList None = Some values →
  ContactRepository.delete_contacts uid idList t =
  inr (ContactTables.Mk
         (filter (λ c, ¬ Spec.listed Contact.Id Contact.UserId uid values c)
            (ContactTables.contact t))
         (ContactTables.contact_deleted t)
         (ContactTables.contact_history_seq t)).
Proof.
  intros Hjson. unfold ContactRepository.delete_contacts, id_values.
  rewrite Hjson. do 2 f_equal. unfold delete_where.
  apply list_filter_iff. intros c. by rewrite contact_bulk_cond_spec.
Qed.

End contact_bulk_theorems.

Section contact_frame.
Context `{Outside}.

Lemma contact_update_last_stmt_frame k dev uid idList t v :
  v ≠ uid →
  match ContactRepository.update_last_stmt k dev uid idList t with
  | inl _ => True
  | inr t' =>
    filter (λ c, Contact.UserId c = v) (ContactTables.contact t') =
    filter (λ c, Contact.UserId c = v) (ContactTables.contact t) ∧
    ContactTables.contact_deleted t' = ContactTables.contact_deleted t ∧
    ContactTables.contact_history_seq t' !! v =
    ContactTables.contact_history_seq t !! v
  end.
Proof.
  intros Hv. destruct (json_each idList None) as [values|] eqn:Hjson.
  - destruct (contact_update_last_stmt_ok k dev uid idList values t Hjson)
      as (t' & -> & Hdel & Hrows & Hseq & _).
    split; [|split; [done|by apply Hseq]].
    eapply rewritten_filter_frame; [| |exact Hrows].
    + intros c [Hc _]%contact_bulk_cond_spec. congruence.
    + intros c h [Hc _]%contact_bulk_cond_spec. simpl. congruence.
  - unfold ContactRepository.update_last_stmt, id_values. by rewrite Hjson.
Qed.

Lemma contact_delete_contacts_frame uid idList t v :
  v ≠ uid →
  match ContactRepository.delete_contacts uid idList t with
  | inl _ => True
  | inr t' =>
    filter (λ c, Contact.UserId c = v) (ContactTables.contact t') =
    filter (λ c, Contact.UserId c = v) (ContactTables.contact t) ∧
    ContactTables.contact_deleted t' = ContactTables.contact_deleted t ∧
    ContactTables.contact_history_seq t' !! v =
    ContactTables.contact_history_seq t !! v
  end.
Proof.
  intros Hv. unfold ContactRepository.delete_contacts, id_values.
  destruct (json_each idList None) as [values|]; [|done]. simpl.
  split; [|done]. apply delete_where_filter_frame.
  intros c [Hc _]%contact_bulk_cond_spec. congruence.
Qed.

Lemma contact_bulk_frame o user idList t schedule v :
  v ≠ User.Id user →
  filter (λ c, Contact.UserId c = v)
    (ContactTables.contact (run (ContactRepository.bulk o user idList) t schedule).2) =
  filter (λ c, Contact.UserId c = v) (ContactTables.contact t) ∧
  ContactTables.contact_deleted (run (ContactRepository.bulk o user idList) t schedule).2 =
  ContactTables.contact_deleted t ∧
  ContactTables.contact_history_seq (run (ContactRepository.bulk o user idList) t schedule).2 !! v =
  ContactTables.contact_history_seq t !! v.
Proof.
  intros Hv.
  destruct (decide (0 < String.length idList)%nat) as [Hlen|Hlen].
  - destruct o; unfold ContactRepository.bulk, ContactRepository.Trash,
      ContactRepository.Untrash, ContactRepository.Delete;
      rewrite decide_True by done; rewrite ExecContext_run;
      destruct schedule as [|[] ?]; try done.
    all: match goal with
         | |- context [ContactRepository.update_last_stmt ?k ?dev ?uid ?il ?tb] =>
           pose proof (contact_update_last_stmt_frame k dev uid il tb v Hv) as Hf;
           destruct (ContactRepository.update_last_stmt k dev uid il tb)
         | |- context [ContactRepository.delete_contacts ?uid ?il ?tb] =>
           pose proof (contact_delete_contacts_frame uid il tb v Hv) as Hf;
           destruct (ContactRepository.delete_contacts uid il tb)
         end; done.
  - destruct o; unfold ContactRepository.bulk, ContactRepository.Trash,
      ContactRepository.Untrash, ContactRepository.Delete;
      rewrite decide_False by done; done.
Qed.

End contact_frame.

Section contact_untrash.
Context `{Outside}.

Lemma contact_Untrash_resets (user : User.t) (idList : string)
    (values : list string) (t : ContactTables.t) :
  idList ≠ "" →
  json_each idList None = Some values →
  let device := deviceColumn (getPrefixedDeviceId (User.DeviceId user)) in
  ∃ t', run (ContactRepository.Untrash user idList) t [] = (Ok tt, t') ∧
    Forall2
      (rewritten Contact.UserId
         (ContactRepository.bulk_cond (User.Id user) values)
         (Contact.set_last_stmt 0 device) Contact.stamp
         (ContactTables.contact_history_seq t)
         (ContactTables.contact_history_seq t'))
      (ContactTables.contact t) (ContactTables.contact t') ∧
    (∀ c', c' ∈ ContactTables.contact t' →
           Spec.listed Contact.Id Contact.UserId (User.Id user) values c' →
           Contact.LastStmt c' = 0 ∧ Contact.DeviceId c' = device) ∧
    (∀ c, c ∈ ContactTables.contact t →
          Spec.listed Contact.Id Contact.UserId (User.Id user) values c →
          Contact.LastStmt c = 1 →
          ∃ h, default 0 (ContactTables.contact_history_seq t !! User.Id user) < h ∧
               Contact.stamp h (Contact.set_last_stmt 0 device c)
                 ∈ ContactTables.contact t') ∧
    (∀ c' (caller : User.t) (history : History.t),
       c' ∈ ContactTables.contact t' →
       Spec.listed Contact.Id Contact.UserId (User.Id user) values c' →
       User.Id caller = User.Id user →
       Spec.other_device Contact.DeviceId (User.DeviceId caller) c' →
       History.Id history < Contact.HistoryId c' →
       ∃ s, run (ContactRepository.Sync caller history) t' [] = (Ok s, t') ∧
            c' ∈ ContactSync.ContactsInserted s ∧
            (c' ∉ ContactSync.ContactsUpdated s) ∧
            (c' ∉ ContactSync.ContactsTrashed s)).
Proof.
  intros Hne Hjson device.
  unfold ContactRepository.Untrash.
  rewrite decide_True by (destruct idList; [done|simpl; lia]).
  rewrite ExecContext_run.
  pose proof (λ c, update_where_marks_seq Contact.UserId
    (ContactRepository.bulk_cond (User.Id user) values)
    (Contact.set_last_stmt 0 device) Contact.stamp
    (ContactTables.contact t) (ContactTables.contact_history_seq t) c) as Hmark.
  destruct (contact_update_last_stmt_ok 0 (getPrefixedDeviceId (User.DeviceId user))
              (User.Id user) idList values t Hjson)
    as (t' & Heq & Hdel & Hrows & Hseq & _).
  assert (Hmark' : ∀ c, c ∈ ContactTables.contact t →
            Sql.holds (ContactRepository.bulk_cond (User.Id user) values c) →
            is_Some (ContactTables.contact_history_seq t' !! Contact.UserId c)).
  { intros c Hc Hl. specialize (Hmark c Hc Hl).
    unfold ContactRepository.update_last_stmt, id_values in Heq.
    rewrite Hjson in Heq. fold device in Heq.
    destruct (update_where _ _ _ _ _ _) as [[table ret] seq].
    injection Heq as <-. exact Hmark. }
  rewrite Heq. exists t'. split; [reflexivity|]. split; [exact Hrows|].
  assert (Hback : ∀ c', c' ∈ ContactTables.contact t' →
            Spec.listed Contact.Id Contact.UserId (User.Id user) values c' →
            ∃ c h, c ∈ ContactTables.contact t ∧
                   Sql.holds (ContactRepository.bulk_cond (User.Id user) values c) ∧
                   c' = Contact.stamp h (Contact.set_last_stmt 0 device c)).
  { intros c' Hc' Hl. apply list_elem_of_lookup in Hc' as [i Hi].
    destruct (Forall2_lookup_r _ _ _ _ _ Hrows Hi) as (c & Hci & Hr).
    unfold rewritten in Hr. destruct (decide _) as [Hc|Hc].
    - destruct Hr as (h & -> & _). exists c, h.
      split; [by eapply list_elem_of_lookup_2|done].
    - subst c'. by apply contact_bulk_cond_spec in Hl. }
  split; [|split].
  - intros c' Hc' Hl. destruct (Hback c' Hc' Hl) as (c & h & _ & _ & ->). done.
  - intros c Hc Hl Hk. apply list_elem_of_lookup in Hc as [i Hi].
    destruct (Forall2_lookup_l _ _ _ _ _ Hrows Hi) as (c' & Hci & Hr).
    unfold rewritten in Hr.
    rewrite decide_True in Hr by by apply contact_bulk_cond_spec.
    destruct Hr as (h & -> & Hh). exists h. destruct Hl as [Hu _].
    rewrite Hu in Hh. split; [lia|]. by eapply list_elem_of_lookup_2.
  - intros c' caller history Hc' Hl Hid Hdev Hsince.
    destruct (Hback c' Hc' Hl) as (c & h & Hc & Hcond & Heq').
    destruct (Hmark' c Hc Hcond) as [h' Hh'].
    apply contact_bulk_cond_spec in Hcond as [Hu _].
    rewrite contact_Sync_quiet, Hid, <- Hu, Hh'.
    eexists. split; [reflexivity|]. simpl.
    pose proof (contact_Sync_classified caller history t') as Hcl.
    rewrite (classified_inserted _ _ _ _ _ _ _ _ _ _ _ _ _ _ _ Hcl).
    rewrite (classified_updated _ _ _ _ _ _ _ _ _ _ _ _ _ _ _ Hcl).
    rewrite (classified_trashed _ _ _ _ _ _ _ _ _ _ _ _ _ _ _ Hcl).
    unfold Spec.in_bucket, Spec.changed_since.
    assert (Contact.LastStmt c' = 0) as Hk by (by subst c').
    assert (Contact.UserId c' = User.Id caller) as Ho by (subst c'; simpl; congruence).
    rewrite Hk. split; [|split]; [tauto | intros (_ & ? & _); lia | intros (_ & ? & _); lia].
Qed.

End contact_untrash.

(** ** Bulk operations of the draft repository *)

Section draft_bulk.
Context `{Outside}.

Lemma draft_bulk_cond_spec uid values c :
  Sql.holds (DraftRepository.bulk_cond uid values c) ↔
  Spec.listed Draft.Id Draft.UserId uid values c.
Proof. unfold DraftRepository.bulk_cond, Spec.listed. sql_iff. tauto. Qed.

Lemma draft_tables_eta t :
  DraftTables.Mk (DraftTables.Draft t) (DraftTables.DraftDeleted t)
    (DraftTables.DraftHistorySeq t) = t.
Proof. by destruct t. Qed.

(** The statements of the three bulk operations, on well-formed JSON. *)
Lemma draft_update_last_stmt_ok k dev uid idList values t :
  json_each idList None = Some values →
  ∃ t', DraftRepository.update_last_stmt k dev uid idList t = inr t' ∧
    DraftTables.DraftDeleted t' = DraftTables.DraftDeleted t ∧
    Forall2
      (rewritten Draft.UserId (DraftRepository.bulk_cond uid values)
         (Draft.set_last_stmt k (deviceColumn dev)) Draft.stamp
         (DraftTables.DraftHistorySeq t)
         (DraftTables.DraftHistorySeq t'))
      (DraftTables.Draft t) (DraftTables.Draft t') ∧
    (∀ v, v ≠ uid → DraftTables.DraftHistorySeq t' !! v =
                    DraftTables.DraftHistorySeq t !! v) ∧
    ((∀ c, c ∈ DraftTables.Draft t →
           ¬ Spec.listed Draft.Id Draft.UserId uid values c) → t' = t).
Proof.
  intros Hjson. unfold DraftRepository.update_last_stmt, id_values.
  rewrite Hjson.
  pose proof (update_where_rows Draft.UserId
    (DraftRepository.bulk_cond uid values)
    (Draft.set_last_stmt k (deviceColumn dev)) Draft.stamp
    (DraftTables.Draft t) (DraftTables.DraftHistorySeq t)) as Hrows.
  pose proof (λ v, update_where_seq_frame Draft.UserId
    (DraftRepository.bulk_cond uid values)
    (Draft.set_last_stmt k (deviceColumn dev)) Draft.stamp
    (DraftTables.Draft t) (DraftTables.DraftHistorySeq t) v) as Hseq.
  pose proof (update_where_nomatch Draft.UserId
    (DraftRepository.bulk_cond uid values)
    (Draft.set_last_stmt k (deviceColumn dev)) Draft.stamp
    (DraftTables.Draft t) (DraftTables.DraftHistorySeq t)) as Hno.
  destruct (update_where _ _ _ _ _ _) as [[table ret] seq]. simpl in *.
  eexists. split; [reflexivity|]. simpl. split; [done|]. split; [done|]. split.
  - intros v Hv. apply Hseq. intros c _ Hc%draft_bulk_cond_spec.
    destruct Hc as [-> _]. done.
  - intros Hnone.
    assert (Hno' : (table, ret, seq) = (DraftTables.Draft t, [],
                      DraftTables.DraftHistorySeq t)).
    { apply Hno. intros c Hc. rewrite draft_bulk_cond_spec. by apply Hnone. }
    injection Hno' as -> -> ->. apply draft_tables_eta.
Qed.

End draft_bulk.


Section draft_frame.
Context `{Outside}.

Lemma draft_update_last_stmt_frame k dev uid idList t v :
  v ≠ uid →
  match DraftRepository.update_last_stmt k dev uid idList t with
  | inl _ => True
  | inr t' =>
    filter (λ c, Draft.UserId c = v) (DraftTables.Draft t') =
    filter (λ c, Draft.UserId c = v) (DraftTables.Draft t) ∧
    DraftTables.DraftDeleted t' = DraftTables.DraftDeleted t ∧
    DraftTables.DraftHistorySeq t' !! v =
    DraftTables.DraftHistorySeq t !! v
  end.
Proof.
  intros Hv. destruct (json_each idList None) as [values|] eqn:Hjson.
  - destruct (draft_update_last_stmt_ok k dev uid idList values t Hjson)
      as (t' & -> & Hdel & Hrows & Hseq & _).
    split; [|split; [done|by apply Hseq]].
    eapply rewritten_filter_frame; [| |exact Hrows].
    + intros c [Hc _]%draft_bulk_cond_spec. congruence.
    + intros c h [Hc _]%draft_bulk_cond_spec. simpl. congruence.
  - unfold DraftRepository.update_last_stmt, id_values. by rewrite Hjson.
Qed.

Lemma draft_delete_drafts_frame uid idList t v :
  v ≠ uid →
  match DraftRepository.delete_drafts uid idList t with
  | inl _ => True
  | inr t' =>
    filter (λ c, Draft.UserId c = v) (DraftTables.Draft t') =
    filter (λ c, Draft.UserId c = v) (DraftTables.Draft t) ∧
    DraftTables.DraftDeleted t' = DraftTables.DraftDeleted t ∧
    DraftTables.DraftHistorySeq t' !! v =
    DraftTables.DraftHistorySeq t !! v
  end.
Proof.
  intros Hv. unfold DraftRepository.delete_drafts, id_values.
  destruct (json_each idList None) as [values|]; [|done]. simpl.
  split; [|done]. apply delete_where_filter_frame.
  intros c [Hc _]%draft_bulk_cond_spec. congruence.
Qed.

Lemma draft_bulk_frame o user idList t schedule v :
  v ≠ User.Id user →
  filter (λ c, Draft.UserId c = v)
    (DraftTables.Draft (run (DraftRepository.bulk o user idList) t schedule).2) =
  filter (λ c, Draft.UserId c = v) (DraftTables.Draft t) ∧
  DraftTables.DraftDeleted (run (DraftRepository.bulk o user idList) t schedule).2 =
  DraftTables.DraftDeleted t ∧
  DraftTables.DraftHistorySeq (run (DraftRepository.bulk o user idList) t schedule).2 !! v =
  DraftTables.DraftHistorySeq t !! v.
Proof.
  intros Hv.
  destruct (decide (0 < String.length idList)%nat) as [Hlen|Hlen].
  - destruct o; unfold DraftRepository.bulk, DraftRepository.Trash,
      DraftRepository.Untrash, DraftRepository.Delete;
      rewrite decide_True by done; rewrite ExecContext_run;
      destruct schedule as [|[] ?]; try done.
    all: match goal with
         | |- context [DraftRepository.update_last_stmt ?k ?dev ?uid ?il ?tb] =>
           pose proof (draft_update_last_stmt_frame k dev uid il tb v Hv) as Hf;
           destruct (DraftRepository.update_last_stmt k dev uid il tb)
         | |- context [DraftRepository.delete_drafts ?uid ?il ?tb] =>
           pose proof (draft_delete_drafts_frame uid il tb v Hv) as Hf;
           destruct (DraftRepository.delete_drafts uid il tb)
         end; done.
  - destruct o; unfold DraftRepository.bulk, DraftRepository.Trash,
      DraftRepository.Untrash, DraftRepository.Delete;
      rewrite decide_False by done; done.
Qed.

End draft_frame.

Section draft_untrash.
Context `{Outside}.

Lemma draft_Untrash_resets (user : User.t) (idList : string)
    (values : list string) (t : DraftTables.t) :
  idList ≠ "" →
  json_each idList None = Some values →
  let device := deviceColumn (getPrefixedDeviceId (User.DeviceId user)) in
  ∃ t', run (DraftRepository.Untrash user idList) t [] = (Ok tt, t') ∧
    Forall2
      (rewritten Draft.UserId
         (DraftRepository.bulk_cond (User.Id user) values)
         (Draft.set_last_stmt 0 device) Draft.stamp
         (DraftTables.DraftHistorySeq t)
         (DraftTables.DraftHistorySeq t'))
      (DraftTables.Draft t) (DraftTables.Draft t') ∧
    (∀ c', c' ∈ DraftTables.Draft t' →
           Spec.listed Draft.Id Draft.UserId (User.Id user) values c' →
           Draft.LastStmt c' = 0 ∧ Draft.DeviceId c' = device) ∧
    (∀ c, c ∈ DraftTables.Draft t →
          Spec.listed Draft.Id Draft.UserId (User.Id user) values c →
          Draft.LastStmt c = 1 →
          ∃ h, default 0 (DraftTables.DraftHistorySeq t !! User.Id user) < h ∧
               Draft.stamp h (Draft.set_last_stmt 0 device c)
                 ∈ DraftTables.Draft t') ∧
    (∀ c' (caller : User.t) (history : History.t),
       c' ∈ DraftTables.Draft t' →
       Spec.listed Draft.Id Draft.UserId (User.Id user) values c' →
       User.Id caller = User.Id user →
       Spec.other_device Draft.DeviceId (User.DeviceId caller) c' →
       History.Id history < Draft.HistoryId c' →
       ∃ s, run (DraftRepository.Sync caller history) t' [] = (Ok s, t') ∧
            c' ∈ DraftSync.DraftsInserted s ∧
            (c' ∉ DraftSync.DraftsUpdated s) ∧
            (c' ∉ DraftSync.DraftsTrashed s)).
Proof.
  intros Hne Hjson device.
  unfold DraftRepository.Untrash.
  rewrite decide_True by (destruct idList; [done|simpl; lia]).
  rewrite ExecContext_run.
  pose proof (λ c, update_where_marks_seq Draft.UserId
    (DraftRepository.bulk_cond (User.Id user) values)
    (Draft.set_last_stmt 0 device) Draft.stamp
    (DraftTables.Draft t) (DraftTables.DraftHistorySeq t) c) as Hmark.
  destruct (draft_update_last_stmt_ok 0 (getPrefixedDeviceId (User.DeviceId user))
              (User.Id user) idList values t Hjson)
    as (t' & Heq & Hdel & Hrows & Hseq & _).
  assert (Hmark' : ∀ c, c ∈ DraftTables.Draft t →
            Sql.holds (DraftRepository.bulk_cond (User.Id user) values c) →
            is_Some (DraftTables.DraftHistorySeq t' !! Draft.UserId c)).
  { intros c Hc Hl. specialize (Hmark c Hc Hl).
    unfold DraftRepository.update_last_stmt, id_values in Heq.
    rewrite Hjson in Heq. fold device in Heq.
    destruct (update_where _ _ _ _ _ _) as [[table ret] seq].
    injection Heq as <-. exact Hmark. }
  rewrite Heq. exists t'. split; [reflexivity|]. split; [exact Hrows|].
  assert (Hback : ∀ c', c' ∈ DraftTables.Draft t' →
            Spec.listed Draft.Id Draft.UserId (User.Id user) values c' →
            ∃ c h, c ∈ DraftTables.Draft t ∧
                   Sql.holds (DraftRepository.bulk_cond (User.Id user) values c) ∧
                   c' = Draft.stamp h (Draft.set_last_stmt 0 device c)).
  { intros c' Hc' Hl. apply list_elem_of_lookup in Hc' as [i Hi].
    destruct (Forall2_lookup_r _ _ _ _ _ Hrows Hi) as (c & Hci & Hr).
    unfold rewritten in Hr. destruct (decide _) as [Hc|Hc].
    - destruct Hr as (h & -> & _). exists c, h.
      split; [by eapply list_elem_of_lookup_2|done].
    - subst c'. by apply draft_bulk_cond_spec in Hl. }
  split; [|split].
  - intros c' Hc' Hl. destruct (Hback c' Hc' Hl) as (c & h & _ & _ & ->). done.
  - intros c Hc Hl Hk. apply list_elem_of_lookup in Hc as [i Hi].
    destruct (Forall2_lookup_l _ _ _ _ _ Hrows Hi) as (c' & Hci & Hr).
    unfold rewritten in Hr.
    rewrite decide_True in Hr by by apply draft_bulk_cond_spec.
    destruct Hr as (h & -> & Hh). exists h. destruct Hl as [Hu _].
    rewrite Hu in Hh. split; [lia|]. by eapply list_elem_of_lookup_2.
  - intros c' caller history Hc' Hl Hid Hdev Hsince.
    destruct (Hback c' Hc' Hl) as (c & h & Hc & Hcond & Heq').
    destruct (Hmark' c Hc Hcond) as [h' Hh'].
    apply draft_bulk_cond_spec in Hcond as [Hu _].
    rewrite draft_Sync_quiet, Hid, <- Hu, Hh'.
    eexists. split; [reflexivity|]. simpl.
    pose proof (draft_Sync_classified caller history t') as Hcl.
    rewrite (classified_inserted _ _ _ _ _ _ _ _ _ _ _ _ _ _ _ Hcl).
    rewrite (classified_updated _ _ _ _ _ _ _ _ _ _ _ _ _ _ _ Hcl).
    rewrite (classified_trashed _ _ _ _ _ _ _ _ _ _ _ _ _ _ _ Hcl).
    unfold Spec.in_bucket, Spec.changed_since.
    assert (Draft.LastStmt c' = 0) as Hk by (by subst c').
    assert (Draft.UserId c' = User.Id caller) as Ho by (subst c'; simpl; congruence).
    rewrite Hk. split; [|split]; [tauto | intros (_ & ? & _); lia | intros (_ & ? & _); lia].
Qed.

End draft_untrash.

(** ** The bulk operations: best effort, confined to the caller *)

(** C7. For every user, Trash, Untrash and Delete of the contact
    repository succeed on an empty id list without a round trip to the
    storage, whatever the schedule of faults; and, without storage faults,
    they succeed on any well-formed id list whether or not the listed ids
    exist for that user: the rows that are not listed rows of the caller
    stay as they are, the tables are unchanged when no listed id exists
    (in particular for an empty id set), and the listed rows that exist
    are trashed, made active again, or removed. *)
Theorem bulk_operations_are_best_effort `{Outside} :
  ∀ (o : Bulk.op) (user : User.t) (idList : string) (t : ContactTables.t),
    (idList = "" →
     ∀ schedule, run (ContactRepository.bulk o user idList) t schedule = (Ok tt, t)) ∧
    (∀ values, json_each idList None = Some values →
       ∃ t', run (ContactRepository.bulk o user idList) t [] = (Ok tt, t') ∧
         ((∀ c, c ∈ ContactTables.contact t →
                ¬ Spec.listed Contact.Id Contact.UserId (User.Id user) values c) →
          t' = t) ∧
         filter (λ c, ¬ Spec.listed Contact.Id Contact.UserId (User.Id user) values c)
           (ContactTables.contact t') =
         filter (λ c, ¬ Spec.listed Contact.Id Contact.UserId (User.Id user) values c)
           (ContactTables.contact t) ∧
         (idList ≠ "" →
          ∀ c, c ∈ ContactTables.contact t' →
               Spec.listed Contact.Id Contact.UserId (User.Id user) values c →
               Spec.bulk_outcome Contact.LastStmt o c)).
Proof.
  intros o user idList t. split.
  - intros -> schedule. destruct o; reflexivity.
  - intros values Hjson.
    destruct (decide (0 < String.length idList)%nat) as [Hlen|Hlen].
    + destruct o; unfold ContactRepository.bulk, ContactRepository.Trash,
        ContactRepository.Untrash, ContactRepository.Delete;
        rewrite decide_True by done; rewrite ExecContext_run.
      1,2: match goal with
           | |- context [ContactRepository.update_last_stmt ?k ?dev ?uid ?il ?tb] =>
             destruct (contact_update_last_stmt_ok k dev uid il values tb Hjson)
               as (t' & -> & Hdel & Hrows & Hseq & Hsame)
           end;
           exists t'; (split; [reflexivity|]); (split; [exact Hsame|]); split;
           [ eapply rewritten_filter_frame; [| |exact Hrows];
             [ intros c Hc%contact_bulk_cond_spec; tauto
             | intros c h Hc%contact_bulk_cond_spec; tauto ]
           | intros _ c' Hc' Hlisted;
             apply list_elem_of_lookup in Hc' as [i Hi];
             destruct (Forall2_lookup_r _ _ _ _ _ Hrows Hi) as (c & _ & Hr);
             unfold rewritten in Hr;
             destruct (decide _) as [Hc|Hc];
             [ destruct Hr as (h & -> & _); reflexivity
             | subst c'; by apply contact_bulk_cond_spec in Hlisted ] ].
      rewrite (contact_delete_contacts_ok _ _ values) by done.
      eexists. split; [reflexivity|]. simpl. split; [|split].
      * intros Hnone. rewrite filter_all_in by done.
        apply contact_tables_eta.
      * rewrite list_filter_filter. apply list_filter_iff. tauto.
      * intros _ c Hc Hl. apply list_elem_of_filter in Hc. tauto.
    + apply length_zero_empty in Hlen. subst idList.
      exists t. split; [by destruct o|]. split; [done|]. split; [done|].
      done.
Qed.


(** C9. For every pair of distinct users U and V, every bulk operation
    (Trash, Untrash, Delete) of the contact and of the draft repository
    invoked by U, with any id list and under any schedule of storage
    faults, leaves V's rows as they were, with all their fields and in
    their order, as well as the tombstones and V's sequence row. *)
Theorem bulk_operations_leave_other_users_alone `{Outside} :
  ∀ (o : Bulk.op) (user : User.t) (idList : string) (schedule : list bool)
    (v : Z),
    v ≠ User.Id user →
    (∀ t : ContactTables.t,
       let t' := (run (ContactRepository.bulk o user idList) t schedule).2 in
       filter (λ c, Contact.UserId c = v) (ContactTables.contact t') =
       filter (λ c, Contact.UserId c = v) (ContactTables.contact t) ∧
       ContactTables.contact_deleted t' = ContactTables.contact_deleted t ∧
       ContactTables.contact_history_seq t' !! v =
       ContactTables.contact_history_seq t !! v) ∧
    (∀ t : DraftTables.t,
       let t' := (run (DraftRepository.bulk o user idList) t schedule).2 in
       filter (λ d, Draft.UserId d = v) (DraftTables.Draft t') =
       filter (λ d, Draft.UserId d = v) (DraftTables.Draft t) ∧
       DraftTables.DraftDeleted t' = DraftTables.DraftDeleted t ∧
       DraftTables.DraftHistorySeq t' !! v =
       DraftTables.DraftHistorySeq t !! v).
Proof.
  intros o user idList schedule v Hv. split; intros t t'.
  - by apply contact_bulk_frame.
  - by apply draft_bulk_frame.
Qed.

(** C10. For every user and non-empty, well-formed id list, Untrash of the
    contact and of the draft repository sets lastStmt to 0 and stamps
    deviceId with the caller's prefixed device id (as the column keeps it)
    on every listed row of that user, with no condition on the row's
    previous state: a never-trashed row with lastStmt = 1 is reset to 0
    and stamped with a new history id, after which Sync, for any caller of
    the same user who is not the attributed device and has not seen that
    history id, returns it in the inserted bucket and not in the updated
    or trashed one. *)
Theorem untrash_resets_every_listed_row `{Outside} :
  ∀ (user : User.t) (idList : string) (values : list string),
    idList ≠ "" →
    json_each idList None = Some values →
    let device := deviceColumn (getPrefixedDeviceId (User.DeviceId user)) in
    (∀ t : ContactTables.t,
     ∃ t', run (ContactRepository.Untrash user idList) t [] = (Ok tt, t') ∧
       Forall2
         (rewritten Contact.UserId
            (ContactRepository.bulk_cond (User.Id user) values)
            (Contact.set_last_stmt 0 device) Contact.stamp
            (ContactTables.contact_history_seq t)
            (ContactTables.contact_history_seq t'))
         (ContactTables.contact t) (ContactTables.contact t') ∧
       (∀ c', c' ∈ ContactTables.contact t' →
              Spec.listed Contact.Id Contact.UserId (User.Id user) values c' →
              Contact.LastStmt c' = 0 ∧ Contact.DeviceId c' = device) ∧
       (∀ c, c ∈ ContactTables.contact t →
             Spec.listed Contact.Id Contact.UserId (User.Id user) values c →
             Contact.LastStmt c = 1 →
             ∃ h, default 0 (ContactTables.contact_history_seq t !! User.Id user) < h ∧
                  Contact.stamp h (Contact.set_last_stmt 0 device c)
                    ∈ ContactTables.contact t') ∧
       (∀ c' (caller : User.t) (history : History.t),
          c' ∈ ContactTables.contact t' →
          Spec.listed Contact.Id Contact.UserId (User.Id user) values c' →
          User.Id caller = User.Id user →
          Spec.other_device Contact.DeviceId (User.DeviceId caller) c' →
          History.Id history < Contact.HistoryId c' →
          ∃ s, run (ContactRepository.Sync caller history) t' [] = (Ok s, t') ∧
               c' ∈ ContactSync.ContactsInserted s ∧
               (c' ∉ ContactSync.ContactsUpdated s) ∧
               (c' ∉ ContactSync.ContactsTrashed s))) ∧
    (∀ t : DraftTables.t,
     ∃ t', run (DraftRepository.Untrash user idList) t [] = (Ok tt, t') ∧
       Forall2
         (rewritten Draft.UserId
            (DraftRepository.bulk_cond (User.Id user) values)
            (Draft.set_last_stmt 0 device) Draft.stamp
            (DraftTables.DraftHistorySeq t)
            (DraftTables.DraftHistorySeq t'))
         (DraftTables.Draft t) (DraftTables.Draft t') ∧
       (∀ d', d' ∈ DraftTables.Draft t' →
              Spec.listed Draft.Id Draft.UserId (User.Id user) values d' →
              Draft.LastStmt d' = 0 ∧ Draft.DeviceId d' = device) ∧
       (∀ d, d ∈ DraftTables.Draft t →
             Spec.listed Draft.Id Draft.UserId (User.Id user) values d →
             Draft.LastStmt d = 1 →
             ∃ h, default 0 (DraftTables.DraftHistorySeq t !! User.Id user) < h ∧
                  Draft.stamp h (Draft.set_last_stmt 0 device d)
                    ∈ DraftTables.Draft t') ∧
       (∀ d' (caller : User.t) (history : History.t),
          d' ∈ DraftTables.Draft t' →
          Spec.listed Draft.Id Draft.UserId (User.Id user) values d' →
          User.Id caller = User.Id user →
          Spec.other_device Draft.DeviceId (User.DeviceId caller) d' →
          History.Id history < Draft.HistoryId d' →
          ∃ s, run (DraftRepository.Sync caller history) t' [] = (Ok s, t') ∧
               d' ∈ DraftSync.DraftsInserted s ∧
               (d' ∉ DraftSync.DraftsUpdated s) ∧
               (d' ∉ DraftSync.DraftsTrashed s))).
Proof.
  intros user idList values Hne Hjson device. split; intros t.
  - by apply contact_Untrash_resets.
  - by apply draft_Untrash_resets.
Qed.

(** ** Update *)

Section contact_update.
Context `{Outside}.

Lemma contact_update_cond_spec uid id c :
  Sql.holds (ContactRepository.update_cond uid id c) ↔ Contact.updatable uid id c.
Proof. unfold ContactRepository.update_cond, Contact.updatable. sql_iff. tauto. Qed.

(** The unique index rejects an update exactly when the statement rewrites
    a row and the written identity collides. *)
Lemma contact_update_violation now (contact : Contact.t) dev uid table seq :
  let result :=
    update_where Contact.UserId (ContactRepository.update_cond uid (Contact.Id contact))
      (Contact.set_fields (Contact.EmailAddress contact) (Contact.FirstName contact)
         (Contact.LastName contact) dev)
      (Contact.stamp_update now) table seq in
  Contact.unique_violation result.1.2 result.1.1 ↔
  filter (Contact.updatable uid (Contact.Id contact)) table ≠ [] ∧
  Contact.collides contact uid table.
Proof.
  intros result.
  pose proof (update_where_rows Contact.UserId
    (ContactRepository.update_cond uid (Contact.Id contact))
    (Contact.set_fields (Contact.EmailAddress contact) (Contact.FirstName contact)
       (Contact.LastName contact) dev)
    (Contact.stamp_update now) table seq) as Hrows.
  pose proof (update_where_stamped_shape Contact.UserId
    (ContactRepository.update_cond uid (Contact.Id contact))
    (Contact.set_fields (Contact.EmailAddress contact) (Contact.FirstName contact)
       (Contact.LastName contact) dev)
    (Contact.stamp_update now) table seq) as Hshape.
  pose proof (update_where_stamped_length Contact.UserId
    (ContactRepository.update_cond uid (Contact.Id contact))
    (Contact.set_fields (Contact.EmailAddress contact) (Contact.FirstName contact)
       (Contact.LastName contact) dev)
    (Contact.stamp_update now) table seq) as Hlen.
  fold result in Hrows, Hshape, Hlen.
  destruct result as [[table' ret] seq']. simpl in *.
  assert (Hhits : filter (λ r, Sql.holds
              (ContactRepository.update_cond uid (Contact.Id contact) r)) table =
            filter (Contact.updatable uid (Contact.Id contact)) table).
  { apply list_filter_iff. intros c. apply contact_update_cond_spec. }
  rewrite Hhits in Hlen.
  assert (Hid : ∀ c, c ∈ ret → Contact.identity c = Contact.identity contact).
  { intros c Hc. rewrite Forall_forall in Hshape.
    destruct (Hshape c Hc) as (_ & r & h & _ & _ & ->). reflexivity. }
  assert (Hcount : is_Some (Contact.identity contact) →
    ∀ c, c ∈ ret →
      length (Contact.holders c table') =
      (length (filter (Contact.updatable uid (Contact.Id contact)) table) +
       length (filter (λ o, ¬ Contact.updatable uid (Contact.Id contact) o ∧
                            Contact.identity o = Contact.identity contact) table))%nat).
  { intros Hsome c Hc. unfold Contact.holders. rewrite (Hid c Hc).
    assert (Hside : ∀ r h,
      Sql.holds (ContactRepository.update_cond uid (Contact.Id contact) r) →
      (λ o, is_Some (Contact.identity contact) ∧
            Contact.identity o = Contact.identity contact)
        (Contact.stamp_update now h
           (Contact.set_fields (Contact.EmailAddress contact)
              (Contact.FirstName contact) (Contact.LastName contact) dev r)))
      by (intros r h _; split; [done|reflexivity]).
    rewrite (rewritten_count _ _ _ _ _ _ _ _ _ Hside Hrows).
    rewrite Hhits. f_equal. f_equal. apply list_filter_iff. intros o.
    rewrite contact_update_cond_spec. tauto. }
  unfold Contact.unique_violation, Contact.collides. rewrite Exists_exists. split.
  - intros (c & Hc & Hgt).
    assert (Hsome : is_Some (Contact.identity contact)).
    { destruct (Contact.identity contact) eqn:E; [by eexists|].
      unfold Contact.holders in Hgt. rewrite (Hid c Hc) in Hgt.
      rewrite (filter_iff_in _ (λ _, False)) in Hgt.
      - clear -Hgt. induction table' as [|x l IH]; simpl in *; [lia|].
        rewrite filter_cons_False in Hgt by tauto. auto.
      - intros x _. split; [|done]. intros [[? [=]] _]. }
    split.
    + intros Hnil. rewrite Hnil in Hlen. destruct ret; [|done].
      by apply elem_of_nil in Hc.
    + split; [done|]. by rewrite <- (Hcount Hsome c Hc).
  - intros (Hne & Hsome & Hgt).
    destruct ret as [|c ret].
    { destruct (filter (Contact.updatable uid (Contact.Id contact)) table); done. }
    exists c. split; [by left|]. rewrite (Hcount Hsome c) by by left. done.
Qed.


Lemma contact_Update_outcomes now (user : User.t) (contact : Contact.t)
    (t : ContactTables.t) :
  let hits := filter (Contact.updatable (User.Id user) (Contact.Id contact))
                (ContactTables.contact t) in
  let device := deviceColumn (getPrefixedDeviceId (User.DeviceId user)) in
  let mark := default 0 (ContactTables.contact_history_seq t !! User.Id user) in
  let result := run (ContactRepository.Update now user contact) t [] in
  (result.1 = Err ErrContactNotFound ↔ hits = []) ∧
  (hits = [] → result.2 = t) ∧
  (hits ≠ [] → Contact.collides contact (User.Id user) (ContactTables.contact t) →
   result = (Err ErrDuplicateContact, t)) ∧
  (∀ c0 rest, hits = c0 :: rest →
     ¬ Contact.collides contact (User.Id user) (ContactTables.contact t) →
     let returned :=
       Contact.Mk (Contact.Id c0) (Contact.UserId c0)
         (Contact.EmailAddress contact) (Contact.FirstName contact)
         (Contact.LastName contact) (Contact.CreatedAt c0)
         (Contact.ModifiedAt c0) (Contact.TimelineId c0) (Contact.HistoryId c0)
         (Contact.LastStmt c0) (getPrefixedDeviceId (User.DeviceId user)) in
     let stored :=
       Contact.Mk (Contact.Id c0) (Contact.UserId c0)
         (Contact.EmailAddress contact) (Contact.FirstName contact)
         (Contact.LastName contact) (Contact.CreatedAt c0) (Some now)
         (Contact.TimelineId c0) (mark + 1) 1 device in
     ∃ t', result = (Ok returned, t') ∧ stored ∈ ContactTables.contact t' ∧
           ContactTables.contact_deleted t' = ContactTables.contact_deleted t ∧
           is_Some (ContactTables.contact_history_seq t' !! User.Id user)).
Proof.
  intros hits device mark result.
  pose proof (λ c, update_where_marks_seq Contact.UserId
    (ContactRepository.update_cond (User.Id user) (Contact.Id contact))
    (Contact.set_fields (Contact.EmailAddress contact) (Contact.FirstName contact)
       (Contact.LastName contact) device)
    (Contact.stamp_update now) (ContactTables.contact t)
    (ContactTables.contact_history_seq t) c) as Hmark.
  pose proof (contact_update_violation now contact device (User.Id user)
    (ContactTables.contact t) (ContactTables.contact_history_seq t)) as Hviol.
  pose proof (update_where_stamped_length Contact.UserId
    (ContactRepository.update_cond (User.Id user) (Contact.Id contact))
    (Contact.set_fields (Contact.EmailAddress contact) (Contact.FirstName contact)
       (Contact.LastName contact) device)
    (Contact.stamp_update now) (ContactTables.contact t)
    (ContactTables.contact_history_seq t)) as Hlen.
  pose proof (update_where_stamped_shape Contact.UserId
    (ContactRepository.update_cond (User.Id user) (Contact.Id contact))
    (Contact.set_fields (Contact.EmailAddress contact) (Contact.FirstName contact)
       (Contact.LastName contact) device)
    (Contact.stamp_update now) (ContactTables.contact t)
    (ContactTables.contact_history_seq t)) as Hshape.
  pose proof (update_where_stamped_head Contact.UserId
    (ContactRepository.update_cond (User.Id user) (Contact.Id contact))
    (Contact.set_fields (Contact.EmailAddress contact) (Contact.FirstName contact)
       (Contact.LastName contact) device)
    (Contact.stamp_update now) (ContactTables.contact t)
    (ContactTables.contact_history_seq t)) as Hhead.
  pose proof (update_where_nomatch Contact.UserId
    (ContactRepository.update_cond (User.Id user) (Contact.Id contact))
    (Contact.set_fields (Contact.EmailAddress contact) (Contact.FirstName contact)
       (Contact.LastName contact) device)
    (Contact.stamp_update now) (ContactTables.contact t)
    (ContactTables.contact_history_seq t)) as Hno.
  assert (Hhits : filter (λ r, Sql.holds
              (ContactRepository.update_cond (User.Id user) (Contact.Id contact) r))
              (ContactTables.contact t) = hits).
  { apply list_filter_iff. intros c. apply contact_update_cond_spec. }
  rewrite Hhits in Hlen, Hhead.
  assert (Hrun : result =
    match ContactRepository.update_contact now (Contact.EmailAddress contact)
            (Contact.FirstName contact) (Contact.LastName contact)
            (getPrefixedDeviceId (User.DeviceId user)) (User.Id user)
            (Contact.Id contact) t with
    | inl e => (Err (if is_ErrNoRows e then ErrContactNotFound
                     else if String.eqb (Error e) unique_contact_msg
                          then ErrDuplicateContact else SqlErr e), t)
    | inr (r :: _, t') => (Ok r, t')
    | inr ([], t') => (Err ErrContactNotFound, t')
    end).
  { unfold result, ContactRepository.Update. db_run.
    destruct (ContactRepository.update_contact _ _ _ _ _ _ _ _)
      as [e|[[|r rows] t']]; reflexivity. }
  unfold ContactRepository.update_contact, returning_where, Sql.select in Hrun.
  fold device in Hrun. rewrite Hhits in Hrun.
  destruct (update_where _ _ _ _ _ _) as [[table' ret] seq'] eqn:Hupd.
  simpl in Hviol, Hlen, Hshape, Hhead, Hno, Hmark.
  fold hits in Hviol.
  destruct (decide (Contact.unique_violation ret table')) as [Hv|Hv].
  - apply Hviol in Hv as [Hne Hcol]. simpl in Hrun.
    rewrite Hrun. simpl. repeat split; done.
  - destruct ret as [|r ret].
    + assert (hits = @nil Contact.t) as Hnil by (by destruct hits).
      assert (Hsame : (table', @nil Contact.t, seq') = (ContactTables.contact t, [],
                         ContactTables.contact_history_seq t)).
      { apply Hno. intros c Hc Hcond. apply contact_update_cond_spec in Hcond.
        assert (c ∈ hits) as Hin by (by apply list_elem_of_filter).
        rewrite Hnil in Hin. by apply elem_of_nil in Hin. }
      injection Hsame as -> ->. rewrite contact_tables_eta in Hrun.
      rewrite Hnil in Hrun. rewrite Hrun. simpl. repeat split; try done.
      intros c0 rest Heq. by rewrite Hnil in Heq.
    + destruct hits as [|c0 rest] eqn:Hh; [done|].
      destruct (Hhead c0 rest eq_refl) as [ret' Hret]. injection Hret as -> ->.
      assert (Contact.UserId c0 = User.Id user) as Hu.
      { assert (c0 ∈ c0 :: rest) as Hin by by left.
        rewrite <- Hh in Hin. unfold hits in Hin.
        apply list_elem_of_filter in Hin as [[? _] _]. done. }
      rewrite Hu in Hshape. fold mark in Hshape.
      rewrite Hrun. simpl. split; [done|]. split; [done|]. split.
      * intros _ Hcol. exfalso. apply Hv, Hviol. done.
      * intros c1 rest1 [= <- <-] _.
        eexists. split; [reflexivity|]. simpl.
        apply Forall_cons in Hshape as [[Hin (r0 & h0 & Hr0 & Hc0 & _)] _].
        split; [exact Hin|]. split; [done|].
        specialize (Hmark r0 Hr0 Hc0).
        apply contact_update_cond_spec in Hc0 as [Hu0 _]. by rewrite Hu0 in Hmark.
Qed.

End contact_update.

Section draft_update.
Context `{Outside}.

Lemma draft_update_cond_spec uid id d :
  Sql.holds (DraftRepository.update_cond uid id d) ↔ Draft.updatable uid id d.
Proof. unfold DraftRepository.update_cond, Draft.updatable. sql_iff. tauto. Qed.

Lemma draft_Update_outcomes now (user : User.t) (draft : Draft.t)
    (t : DraftTables.t) :
  let hits := filter (Draft.updatable (User.Id user) (Draft.Id draft))
                (DraftTables.Draft t) in
  let device := deviceColumn (getPrefixedDeviceId (User.DeviceId user)) in
  let mark := default 0 (DraftTables.DraftHistorySeq t !! User.Id user) in
  let result := run (DraftRepository.Update now user draft) t [] in
  (result.1 = Err ErrDraftNotFound ↔ hits = []) ∧
  (hits = [] → result.2 = t) ∧
  (∀ d0 rest, hits = d0 :: rest →
     let returned :=
       Draft.Mk (Draft.Id d0) (Draft.UserId d0) (Draft.MessageUid d0)
         (Draft.ParentUid d0) (Draft.ThreadUid d0) (Draft.Unread d0)
         (Draft.Starred d0) (Draft.Payload draft) (Draft.LabelIds d0)
         (Draft.CreatedAt d0) (Draft.ModifiedAt d0) (Draft.TimelineId d0)
         (Draft.HistoryId d0) (Draft.LastStmt d0)
         (getPrefixedDeviceId (User.DeviceId user)) in
     let stored :=
       Draft.Mk (Draft.Id d0) (Draft.UserId d0) (Draft.MessageUid d0)
         (Draft.ParentUid d0) (Draft.ThreadUid d0) (Draft.Unread d0)
         (Draft.Starred d0) (Draft.Payload draft) (Draft.LabelIds d0)
         (Draft.CreatedAt d0) (Some now) (Draft.TimelineId d0) (mark + 1) 1
         device in
     ∃ t', result = (Ok returned, t') ∧ stored ∈ DraftTables.Draft t' ∧
           DraftTables.DraftDeleted t' = DraftTables.DraftDeleted t ∧
           is_Some (DraftTables.DraftHistorySeq t' !! User.Id user)).
Proof.
  intros hits device mark result.
  pose proof (λ c, update_where_marks_seq Draft.UserId
    (DraftRepository.update_cond (User.Id user) (Draft.Id draft))
    (Draft.set_fields (Draft.Payload draft) device)
    (Draft.stamp_update now) (DraftTables.Draft t)
    (DraftTables.DraftHistorySeq t) c) as Hmark.
  pose proof (update_where_stamped_length Draft.UserId
    (DraftRepository.update_cond (User.Id user) (Draft.Id draft))
    (Draft.set_fields (Draft.Payload draft) device)
    (Draft.stamp_update now) (DraftTables.Draft t)
    (DraftTables.DraftHistorySeq t)) as Hlen.
  pose proof (update_where_stamped_shape Draft.UserId
    (DraftRepository.update_cond (User.Id user) (Draft.Id draft))
    (Draft.set_fields (Draft.Payload draft) device)
    (Draft.stamp_update now) (DraftTables.Draft t)
    (DraftTables.DraftHistorySeq t)) as Hshape.
  pose proof (update_where_stamped_head Draft.UserId
    (DraftRepository.update_cond (User.Id user) (Draft.Id draft))
    (Draft.set_fields (Draft.Payload draft) device)
    (Draft.stamp_update now) (DraftTables.Draft t)
    (DraftTables.DraftHistorySeq t)) as Hhead.
  pose proof (update_where_nomatch Draft.UserId
    (DraftRepository.update_cond (User.Id user) (Draft.Id draft))
    (Draft.set_fields (Draft.Payload draft) device)
    (Draft.stamp_update now) (DraftTables.Draft t)
    (DraftTables.DraftHistorySeq t)) as Hno.
  assert (Hhits : filter (λ r, Sql.holds
              (DraftRepository.update_cond (User.Id user) (Draft.Id draft) r))
              (DraftTables.Draft t) = hits).
  { apply list_filter_iff. intros c. apply draft_update_cond_spec. }
  rewrite Hhits in Hlen, Hhead.
  assert (Hrun : result =
    match DraftRepository.update_draft now (Draft.Payload draft)
            (getPrefixedDeviceId (User.DeviceId user)) (User.Id user)
            (Draft.Id draft) t with
    | inl e => (Err (if is_ErrNoRows e then ErrDraftNotFound else SqlErr e), t)
    | inr (r :: _, t') => (Ok r, t')
    | inr ([], t') => (Err ErrDraftNotFound, t')
    end).
  { unfold result, DraftRepository.Update. db_run.
    destruct (DraftRepository.update_draft _ _ _ _ _ _)
      as [e|[[|r rows] t']]; reflexivity. }
  unfold DraftRepository.update_draft, returning_where, Sql.select in Hrun.
  fold device in Hrun. rewrite Hhits in Hrun.
  destruct (update_where _ _ _ _ _ _) as [[table' ret] seq'] eqn:Hupd.
  simpl in Hlen, Hshape, Hhead, Hno, Hmark.
  destruct ret as [|r ret].
  - assert (hits = @nil Draft.t) as Hnil by (by destruct hits).
    assert (Hsame : (table', @nil Draft.t, seq') = (DraftTables.Draft t, [],
                       DraftTables.DraftHistorySeq t)).
    { apply Hno. intros c Hc Hcond. apply draft_update_cond_spec in Hcond.
      assert (c ∈ hits) as Hin by (by apply list_elem_of_filter).
      rewrite Hnil in Hin. by apply elem_of_nil in Hin. }
    injection Hsame as -> ->. rewrite draft_tables_eta in Hrun.
    rewrite Hnil in Hrun. rewrite Hrun. simpl. repeat split; try done.
    intros d0 rest Heq. by rewrite Hnil in Heq.
  - destruct hits as [|d0 rest] eqn:Hh; [done|].
    destruct (Hhead d0 rest eq_refl) as [ret' Hret]. injection Hret as -> ->.
    assert (Draft.UserId d0 = User.Id user) as Hu.
    { assert (d0 ∈ d0 :: rest) as Hin by by left.
      rewrite <- Hh in Hin. unfold hits in Hin.
      apply list_elem_of_filter in Hin as [[? _] _]. done. }
    rewrite Hu in Hshape. fold mark in Hshape.
    rewrite Hrun. simpl. split; [done|]. split; [done|].
    intros d1 rest1 [= <- <-].
    eexists. split; [reflexivity|]. simpl.
    apply Forall_cons in Hshape as [[Hin (r0 & h0 & Hr0 & Hc0 & _)] _].
    split; [exact Hin|]. split; [done|].
    specialize (Hmark r0 Hr0 Hc0).
    apply draft_update_cond_spec in Hc0 as [Hu0 _]. by rewrite Hu0 in Hmark.
Qed.

End draft_update.

(** C6, as amended.  Without storage faults, Update returns the NotFound
    error if and only if no row exists with that (userId, id) and
    lastStmt <> 2, and then changes nothing.  Otherwise the contact Update
    returns DuplicateContact, changing nothing, when the written (email,
    first name, last name) has no NULL part and would be held by more than
    one row; in every other case, and always for a draft, Update succeeds.
    The stored row then has the domain fields of the request, the next
    history id of the user's sequence, the caller's attribution as
    deviceId, the time of the statement as modifiedAt and lastStmt 1.  The
    record returned is the row as the statement wrote it: the domain
    fields of the request and the device id the statement was given, with
    historyId, lastStmt and modifiedAt as they were before the update. *)
Theorem update_outcomes `{Outside} :
  (∀ (now : Z) (user : User.t) (contact : Contact.t) (t : ContactTables.t),
     let hits := filter (Contact.updatable (User.Id user) (Contact.Id contact))
                   (ContactTables.contact t) in
     let device := deviceColumn (getPrefixedDeviceId (User.DeviceId user)) in
     let mark := default 0 (ContactTables.contact_history_seq t !! User.Id user) in
     let result := run (ContactRepository.Update now user contact) t [] in
     (result.1 = Err ErrContactNotFound ↔ hits = []) ∧
     (hits = [] → result.2 = t) ∧
     (hits ≠ [] → Contact.collides contact (User.Id user) (ContactTables.contact t) →
      result = (Err ErrDuplicateContact, t)) ∧
     (∀ c0 rest, hits = c0 :: rest →
        ¬ Contact.collides contact (User.Id user) (ContactTables.contact t) →
        let returned :=
          Contact.Mk (Contact.Id c0) (Contact.UserId c0)
            (Contact.EmailAddress contact) (Contact.FirstName contact)
            (Contact.LastName contact) (Contact.CreatedAt c0)
            (Contact.ModifiedAt c0) (Contact.TimelineId c0)
            (Contact.HistoryId c0) (Contact.LastStmt c0)
            (getPrefixedDeviceId (User.DeviceId user)) in
        let stored :=
          Contact.Mk (Contact.Id c0) (Contact.UserId c0)
            (Contact.EmailAddress contact) (Contact.FirstName contact)
            (Contact.LastName contact) (Contact.CreatedAt c0) (Some now)
            (Contact.TimelineId c0) (mark + 1) 1 device in
        ∃ t', result = (Ok returned, t') ∧ stored ∈ ContactTables.contact t' ∧
              ContactTables.contact_deleted t' = ContactTables.contact_deleted t ∧
              is_Some (ContactTables.contact_history_seq t' !! User.Id user))) ∧
  (∀ (now : Z) (user : User.t) (draft : Draft.t) (t : DraftTables.t),
     let hits := filter (Draft.updatable (User.Id user) (Draft.Id draft))
                   (DraftTables.Draft t) in
     let device := deviceColumn (getPrefixedDeviceId (User.DeviceId user)) in
     let mark := default 0 (DraftTables.DraftHistorySeq t !! User.Id user) in
     let result := run (DraftRepository.Update now user draft) t [] in
     (result.1 = Err ErrDraftNotFound ↔ hits = []) ∧
     (hits = [] → result.2 = t) ∧
     (∀ d0 rest, hits = d0 :: rest →
        let returned :=
          Draft.Mk (Draft.Id d0) (Draft.UserId d0) (Draft.MessageUid d0)
            (Draft.ParentUid d0) (Draft.ThreadUid d0) (Draft.Unread d0)
            (Draft.Starred d0) (Draft.Payload draft) (Draft.LabelIds d0)
            (Draft.CreatedAt d0) (Draft.ModifiedAt d0) (Draft.TimelineId d0)
            (Draft.HistoryId d0) (Draft.LastStmt d0)
            (getPrefixedDeviceId (User.DeviceId user)) in
        let stored :=
          Draft.Mk (Draft.Id d0) (Draft.UserId d0) (Draft.MessageUid d0)
            (Draft.ParentUid d0) (Draft.ThreadUid d0) (Draft.Unread d0)
            (Draft.Starred d0) (Draft.Payload draft) (Draft.LabelIds d0)
            (Draft.CreatedAt d0) (Some now) (Draft.TimelineId d0) (mark + 1) 1
            device in
        ∃ t', result = (Ok returned, t') ∧ stored ∈ DraftTables.Draft t' ∧
              DraftTables.DraftDeleted t' = DraftTables.DraftDeleted t ∧
              is_Some (DraftTables.DraftHistorySeq t' !! User.Id user))).
Proof.
  split; intros now user r t.
  - apply contact_Update_outcomes.
  - apply draft_Update_outcomes.
Qed.

(** C6 as stated fails: contact B exists for the user with lastStmt = 0,
    yet updating it to the name and address of contact A is answered with
    DuplicateContact, not with the updated record. *)
Lemma update_of_existing_contact_can_fail :
  filter (Contact.updatable (User.Id Example.alice_D2)
            (Contact.Id Example.B_as_A))
    (ContactTables.contact Example.created) = [Example.contact_B] ∧
  run (@ContactRepository.Update Example.outside 300 Example.alice_D2
         Example.B_as_A)
    Example.created [] = (Err ErrDuplicateContact, Example.created).
Proof. split; vm_compute; reflexivity. Qed.

(** ** Device attribution *)

Section contact_create.
Context `{Outside}.

(** What a successful Create returns and stores: the record handed back
    is the row as the INSERT wrote it, the stored row is the one the
    table then holds. *)
Lemma contact_Create_stores d (user : User.t) (contact c : Contact.t)
    (t t' : ContactTables.t) :
  run (ContactRepository.Create d user contact) t [] = (Ok c, t') →
  let row :=
    Contact.Mk (Defaults.Id d) (User.Id user)
      (Contact.EmailAddress contact) (Contact.FirstName contact)
      (Contact.LastName contact) (Defaults.Now d) None (Defaults.TimelineId d)
      (default 0 (ContactTables.contact_history_seq t !! User.Id user) + 1) 0
      (deviceColumn (getPrefixedDeviceId (User.DeviceId user))) in
  c = Contact.Mk (Defaults.Id d) (User.Id user)
        (Contact.EmailAddress contact) (Contact.FirstName contact)
        (Contact.LastName contact) (Defaults.Now d) None
        (Defaults.DefaultTimelineId d) (Defaults.DefaultHistoryId d) 0
        (getPrefixedDeviceId (User.DeviceId user)) ∧
  ContactTables.contact t' = ContactTables.contact t ++ [row] ∧
  ContactTables.contact_deleted t' = ContactTables.contact_deleted t ∧
  ContactTables.contact_history_seq t' =
    <[User.Id user := Contact.HistoryId row]> (ContactTables.contact_history_seq t).
Proof.
  unfold ContactRepository.Create, ContactRepository.insert_contact,
    next_history.
  db_run. cbv zeta.
  destruct (decide (Contact.unique_violation _ _)); simpl.
  - intros Heq. discriminate Heq.
  - intros [= <- <-]. done.
Qed.

End contact_create.

(** X22.  Whether a device is told of its own Create is decided by what
    the deviceId column keeps.  Create writes
    [getPrefixedDeviceId(user.DeviceId)] and hands back the record with
    that text, while Sync compares the stored column with the raw
    [user.DeviceId]: after a Create by device D1 the stored row is in the
    inserted bucket of D1's own Sync exactly when the stored device id
    differs from D1, and in that of another device D2 of the user exactly
    when it differs from D2; it is in no other bucket. *)
Theorem created_row_echo_follows_the_stored_device `{Outside}
    (u1 u2 : User.t) (D1 D2 : string) (d : Defaults.t)
    (contact c : Contact.t) (t t' : ContactTables.t) (history : History.t) :
  User.DeviceId u1 = Some D1 → User.DeviceId u2 = Some D2 →
  User.Id u2 = User.Id u1 →
  run (ContactRepository.Create d u1 contact) t [] = (Ok c, t') →
  History.Id history ≤
    default 0 (ContactTables.contact_history_seq t !! User.Id u1) →
  ∃ row s1 s2,
    ContactTables.contact t' = ContactTables.contact t ++ [row] ∧
    Contact.Id row = Contact.Id c ∧
    Contact.DeviceId c = getPrefixedDeviceId (Some D1) ∧
    Contact.DeviceId row = deviceColumn (getPrefixedDeviceId (Some D1)) ∧
    run (ContactRepository.Sync u1 history) t' [] = (Ok s1, t') ∧
    run (ContactRepository.Sync u2 history) t' [] = (Ok s2, t') ∧
    (row ∈ ContactSync.ContactsInserted s1 ↔ Contact.DeviceId row ≠ Some D1) ∧
    (row ∈ ContactSync.ContactsInserted s2 ↔ Contact.DeviceId row ≠ Some D2) ∧
    (row ∉ ContactSync.ContactsUpdated s1) ∧
    (row ∉ ContactSync.ContactsTrashed s1) ∧
    (row ∉ ContactSync.ContactsUpdated s2) ∧
    (row ∉ ContactSync.ContactsTrashed s2).
Proof.
  intros Hd1 Hd2 Hid Hrun Hsince.
  destruct (contact_Create_stores d u1 contact c t t' Hrun)
    as (Hc & Htable & Hdel & Hseq).
  cbv zeta in Htable, Hseq. rewrite Hd1 in Hc, Htable.
  eexists. rewrite !contact_Sync_quiet, Hid, Hseq, lookup_insert_eq.
  do 2 eexists. split; [exact Htable|].
  split; [by rewrite Hc|]. split; [by rewrite Hc|].
  split; [reflexivity|].
  split; [reflexivity|]. split; [reflexivity|]. simpl.
  pose proof (contact_Sync_classified u1 history t') as H1.
  pose proof (contact_Sync_classified u2 history t') as H2.
  rewrite (classified_inserted _ _ _ _ _ _ _ _ _ _ _ _ _ _ _ H1).
  rewrite (classified_updated _ _ _ _ _ _ _ _ _ _ _ _ _ _ _ H1).
  rewrite (classified_trashed _ _ _ _ _ _ _ _ _ _ _ _ _ _ _ H1).
  rewrite (classified_inserted _ _ _ _ _ _ _ _ _ _ _ _ _ _ _ H2).
  rewrite (classified_updated _ _ _ _ _ _ _ _ _ _ _ _ _ _ _ H2).
  rewrite (classified_trashed _ _ _ _ _ _ _ _ _ _ _ _ _ _ _ H2).
  unfold Spec.in_bucket, Spec.changed_since, Spec.other_device.
  rewrite ?Hd1, ?Hd2, ?Hid, ?Htable. simpl.
  assert (Hin : ∀ row : Contact.t, row ∈ ContactTables.contact t ++ [row]).
  { intros row. apply elem_of_app. right. by left. }
  split; [|split; [|split; [|split; [|split]]]].
  - split; [tauto|]. intros Hne. repeat split; try done; try lia; try apply Hin.
  - split; [tauto|]. intros Hne. repeat split; try done; try lia; try apply Hin.
  - intros (_ & ? & _). lia.
  - intros (_ & ? & _). lia.
  - intros (_ & ? & _). lia.
  - intros (_ & ? & _). lia.
Qed.

(** ** Blob Delete *)

Lemma bury_shape {R D} (owner : R → Z) (tombstone : Z → R → D) gone seq :
  Forall2 (λ r d, ∃ h, d = tombstone h r) gone
    (bury owner tombstone gone seq).1.
Proof.
  revert seq. induction gone as [|r gone IH]; intros seq; simpl; [constructor|].
  specialize (IH (<[owner r := default 0 (seq !! owner r) + 1]> seq)).
  destruct (bury _ _ gone _) as [ds seq']. simpl in *.
  constructor; [by eexists|done].
Qed.

Lemma elem_of_rewrite_where {R} (cond : R → Sql.tri) (set : R → R) table r' :
  r' ∈ rewrite_where cond set table ↔
  ∃ r, r ∈ table ∧
       r' = if decide (Sql.holds (cond r)) then set r else r.
Proof.
  unfold rewrite_where. rewrite list_elem_of_fmap. split; intros (r & ? & ?); exists r; done.
Qed.

Lemma rewrite_where_filter_frame {R} (cond : R → Sql.tri) (set : R → R)
    (Q : R → Prop) `{!∀ r, Decision (Q r)} table :
  (∀ r, Sql.holds (cond r) → ¬ Q r) →
  (∀ r, Sql.holds (cond r) → ¬ Q (set r)) →
  filter Q (rewrite_where cond set table) = filter Q table.
Proof.
  intros Hold Hnew. unfold rewrite_where.
  induction table as [|r table IH]; [done|].
  rewrite fmap_cons, !filter_cons, IH.
  destruct (decide (Sql.holds (cond r))) as [Hc|Hc]; [|done].
  rewrite !decide_False; [done|by apply Hold|by apply Hnew].
Qed.

Section blob_delete.
Context `{Outside}.

Lemma blob_bulk_cond_spec uid values b :
  Sql.holds (BlobRepository.bulk_cond uid values b) ↔
  Spec.listed Blob.Uri Blob.UserId uid values b.
Proof. unfold BlobRepository.bulk_cond, Spec.listed. sql_iff. tauto. Qed.

Lemma blob_deleted_cond_spec uid values d :
  Sql.holds (BlobRepository.deleted_cond uid values d) ↔
  Spec.listed BlobDeleted.Uri BlobDeleted.UserId uid values d.
Proof. unfold BlobRepository.deleted_cond, Spec.listed. sql_iff. tauto. Qed.

(** The two statements of Delete, one after the other. *)
Lemma blob_delete_then_stamp (user : User.t) uris values (t : BlobTables.t) :
  json_each uris BlobRepository.uris_path = Some values →
  ∃ t1 t2,
    BlobRepository.delete_blobs (User.Id user) uris t = inr t1 ∧
    BlobRepository.stamp_deleted (User.DeviceId user) (User.Id user) uris t1 = inr t2 ∧
    Spec.removed_and_stamped user values t t2.
Proof.
  intros Hjson.
  unfold BlobRepository.delete_blobs, BlobRepository.stamp_deleted, id_values.
  rewrite Hjson.
  pose proof (bury_shape Blob.UserId BlobDeleted.of_blob
    (Sql.select (BlobRepository.bulk_cond (User.Id user) values) (BlobTables.Blob t))
    (BlobTables.BlobHistorySeq t)) as Hshape.
  destruct (bury _ _ _ _) as [tombs seq']. simpl in Hshape.
  do 2 eexists. split; [reflexivity|]. split; [reflexivity|].
  unfold Spec.removed_and_stamped. simpl.
  assert (Htombs : ∀ d, d ∈ tombs →
    Spec.listed BlobDeleted.Uri BlobDeleted.UserId (User.Id user) values d).
  { intros d Hd. apply list_elem_of_lookup in Hd as [i Hi].
    destruct (Forall2_lookup_r _ _ _ _ _ Hshape Hi) as (b & Hb & h & ->).
    apply list_elem_of_lookup_2, elem_of_select in Hb as [Hb _].
    by apply blob_bulk_cond_spec in Hb. }
  split; [|split; [|split]].
  - unfold delete_where. apply list_filter_iff. intros b.
    by rewrite blob_bulk_cond_spec.
  - intros d' Hd' Hl. apply elem_of_rewrite_where in Hd' as (d & _ & ->).
    destruct (decide _) as [Hc|Hc]; [done|].
    by apply blob_deleted_cond_spec in Hl.
  - intros b Hb Hl.
    assert (b ∈ Sql.select (BlobRepository.bulk_cond (User.Id user) values)
                  (BlobTables.Blob t)) as Hgone.
    { apply elem_of_select. split; [by apply blob_bulk_cond_spec|done]. }
    apply list_elem_of_lookup in Hgone as [i Hi].
    destruct (Forall2_lookup_l _ _ _ _ _ Hshape Hi) as (d & Hd & h & ->).
    exists (BlobDeleted.set_device (User.DeviceId user) (BlobDeleted.of_blob h b)).
    split; [|done].
    apply elem_of_rewrite_where. exists (BlobDeleted.of_blob h b). split.
    + apply elem_of_app. right. by eapply list_elem_of_lookup_2.
    + rewrite decide_True; [done|]. by apply blob_deleted_cond_spec.
  - rewrite rewrite_where_filter_frame.
    + rewrite filter_app.
      assert (filter (λ d, ¬ Spec.listed BlobDeleted.Uri BlobDeleted.UserId
                              (User.Id user) values d) tombs = []) as ->.
      { destruct (filter _ tombs) as [|x rest] eqn:E; [done|].
        assert (Hx : x ∈ x :: rest) by by left.
        rewrite <- E in Hx. apply list_elem_of_filter in Hx as [Hn Hx].
        by apply Htombs in Hx. }
      by rewrite app_nil_r.
    + intros d Hc%blob_deleted_cond_spec. tauto.
    + intros d Hc%blob_deleted_cond_spec. simpl. tauto.
Qed.

Lemma blob_Delete_atomic (user : User.t) (uris : string) (t : BlobTables.t)
    (schedule : list bool) :
  uris ≠ "" →
  (∃ values t2,
     json_each uris BlobRepository.uris_path = Some values ∧
     run (BlobRepository.Delete user uris) t schedule = (Ok tt, t2) ∧
     Spec.removed_and_stamped user values t t2) ∨
  (∃ e, run (BlobRepository.Delete user uris) t schedule = (Err e, t)).
Proof.
  intros Hne. unfold BlobRepository.Delete.
  rewrite decide_True by (destruct uris; [done|simpl; lia]).
  destruct (json_each uris BlobRepository.uris_path) as [values|] eqn:Hjson.
  - destruct (blob_delete_then_stamp user uris values t Hjson)
      as (t1 & t2 & H1 & H2 & Hboth).
    destruct schedule as [|[] [|[] [|[] [|[] ?]]]]; db_run;
      rewrite ?H1; cbn; rewrite ?H2; cbn;
      try (right; eexists; reflexivity);
      left; exists values, t2; done.
  - right.
    assert (H1 : BlobRepository.delete_blobs (User.Id user) uris t = inl malformed_json).
    { unfold BlobRepository.delete_blobs, id_values. by rewrite Hjson. }
    destruct schedule as [|[] [|[] ?]]; db_run; rewrite ?H1;
      eexists; reflexivity.
Qed.

End blob_delete.

(** C5. For every user and non-empty uri list, Blob Delete removes the
    matching Blob rows and stamps the corresponding tombstones with the
    caller's device id inside a single transaction: under every schedule
    of storage faults, and for malformed uri lists too, either it succeeds
    and both the removal and the stamp have taken effect, or it returns an
    error and the tables are unchanged.  Without faults and with a
    well-formed uri list it succeeds. *)
Theorem blob_delete_is_atomic `{Outside} :
  ∀ (user : User.t) (uris : string) (t : BlobTables.t),
    uris ≠ "" →
    (∀ schedule,
       (∃ values t2,
          json_each uris BlobRepository.uris_path = Some values ∧
          run (BlobRepository.Delete user uris) t schedule = (Ok tt, t2) ∧
          Spec.removed_and_stamped user values t t2) ∨
       (∃ e, run (BlobRepository.Delete user uris) t schedule = (Err e, t))) ∧
    (∀ values,
       json_each uris BlobRepository.uris_path = Some values →
       ∃ t2, run (BlobRepository.Delete user uris) t [] = (Ok tt, t2) ∧
             Spec.removed_and_stamped user values t t2).
Proof.
  intros user uris t Hne. split.
  - intros schedule. by apply blob_Delete_atomic.
  - intros values Hjson.
    destruct (blob_delete_then_stamp user uris values t Hjson)
      as (t1 & t2 & H1 & H2 & Hboth).
    exists t2. split; [|done].
    unfold BlobRepository.Delete.
    rewrite decide_True by (destruct uris; [done|simpl; lia]).
    db_run. rewrite H1. cbn. rewrite H2. reflexivity.
Qed.

(** ** GetBlobByUri *)

Lemma blob_by_uri_where_spec uid uri b :
  Sql.holds (BlobRepository.by_uri_where uid uri b) ↔ Blob.findable uid uri b.
Proof. unfold BlobRepository.by_uri_where, Blob.findable. sql_iff. tauto. Qed.

Lemma blob_GetBlobByUri_answer (user : User.t) (uri : string)
    (t : BlobTables.t) (schedule : list bool) :
  (BlobRepository.GetBlobByUri user uri (MkConn t schedule)).1 =
  match schedule with
  | true :: _ => (Blob.zero, Some (SqlErr deadline_exceeded))
  | _ =>
    match filter (Blob.findable (User.Id user) uri) (BlobTables.Blob t) with
    | b :: _ => (b, None)
    | [] => (Blob.zero, None)
    end
  end.
Proof.
  unfold BlobRepository.GetBlobByUri.
  destruct schedule as [|[] ?]; db_run; try reflexivity;
    rewrite (select_filter _ (Blob.findable (User.Id user) uri))
      by apply blob_by_uri_where_spec;
    destruct (filter _ _); reflexivity.
Qed.

(** C8. For every user and uri, GetBlobByUri returns the zero-value Blob
    with no error when no row with that (userId, uri) and lastStmt < 2
    exists, and returns the stored row when one exists; so, the tables
    holding no all-zero row, the zero-value record with no error is
    returned exactly when the storage does not fail and no such row
    exists.  In particular a trashed blob (lastStmt = 2) is treated as not
    found and yields the zero-value record rather than an error. *)
Theorem get_blob_by_uri_not_found_is_zero :
  ∀ (user : User.t) (uri : string) (t : BlobTables.t),
    let found := filter (Blob.findable (User.Id user) uri) (BlobTables.Blob t) in
    (found = [] →
     (BlobRepository.GetBlobByUri user uri (MkConn t [])).1 = (Blob.zero, None)) ∧
    (∀ b rest, found = b :: rest →
     (BlobRepository.GetBlobByUri user uri (MkConn t [])).1 = (b, None) ∧
     b ∈ BlobTables.Blob t ∧ Blob.findable (User.Id user) uri b) ∧
    (Blob.zero ∉ BlobTables.Blob t →
     ∀ schedule,
       (BlobRepository.GetBlobByUri user uri (MkConn t schedule)).1
         = (Blob.zero, None) ↔
       head schedule ≠ Some true ∧ found = []) ∧
    ((∀ b, b ∈ BlobTables.Blob t → Blob.UserId b = User.Id user →
           Blob.Uri b = uri → Blob.LastStmt b = 2) →
     (BlobRepository.GetBlobByUri user uri (MkConn t [])).1 = (Blob.zero, None)).
Proof.
  intros user uri t found.
  assert (Hhead : ∀ b rest, found = b :: rest →
            b ∈ BlobTables.Blob t ∧ Blob.findable (User.Id user) uri b).
  { intros b rest Hf. assert (b ∈ found) as Hb by (rewrite Hf; by left).
    apply list_elem_of_filter in Hb. tauto. }
  split; [|split; [|split]].
  - intros Hnil. rewrite blob_GetBlobByUri_answer. fold found. by rewrite Hnil.
  - intros b rest Hf. rewrite blob_GetBlobByUri_answer. fold found.
    rewrite Hf. split; [done|]. by eapply Hhead.
  - intros Hzero schedule. rewrite blob_GetBlobByUri_answer. fold found.
    destruct schedule as [|[] ?]; simpl.
    + destruct found as [|b rest] eqn:Hf; [done|].
      split; [|by intros [_ ?]]. intros [= ->]. exfalso.
      apply Hzero. by eapply Hhead.
    + split; [done|]. by intros [? _].
    + destruct found as [|b rest] eqn:Hf; [done|].
      split; [|by intros [_ ?]]. intros [= ->]. exfalso.
      apply Hzero. by eapply Hhead.
  - intros Htrashed. rewrite blob_GetBlobByUri_answer. fold found.
    destruct found as [|b rest] eqn:Hf; [done|]. exfalso.
    destruct (Hhead b rest eq_refl) as (Hb & Hu & Huri & Hlt).
    specialize (Htrashed b Hb Hu Huri). lia.
Qed.

(** ** Further properties of the repositories *)

(** A schedule of storage faults can only make a read transaction fail:
    the answer is the one of the undisturbed run, or the storage's
    error. *)
Lemma contact_Sync_snapshot user history t schedule :
  run (ContactRepository.Sync user history) t schedule =
    run (ContactRepository.Sync user history) t [] ∨
  run (ContactRepository.Sync user history) t schedule =
    (Err (SqlErr deadline_exceeded), t).
Proof.
  unfold ContactRepository.Sync, ContactRepository.select_history, seq_rows.
  destruct schedule as [|[] [|[] [|[] [|[] [|[] [|[] [|[] ?]]]]]]]; db_run;
    destruct (ContactTables.contact_history_seq t !! User.Id user);
    auto.
Qed.

Lemma blob_Sync_snapshot user history t schedule :
  run (BlobRepository.Sync user history) t schedule =
    run (BlobRepository.Sync user history) t [] ∨
  run (BlobRepository.Sync user history) t schedule =
    (Err (SqlErr deadline_exceeded), t).
Proof.
  unfold BlobRepository.Sync, BlobRepository.select_history, seq_rows.
  destruct schedule as [|[] [|[] [|[] [|[] [|[] [|[] [|[] ?]]]]]]]; db_run;
    destruct (BlobTables.BlobHistorySeq t !! User.Id user);
    auto.
Qed.

Lemma draft_Sync_snapshot user history t schedule :
  run (DraftRepository.Sync user history) t schedule =
    run (DraftRepository.Sync user history) t [] ∨
  run (DraftRepository.Sync user history) t schedule =
    (Err (SqlErr deadline_exceeded), t).
Proof.
  unfold DraftRepository.Sync, DraftRepository.select_history, seq_rows.
  destruct schedule as [|[] [|[] [|[] [|[] [|[] [|[] [|[] ?]]]]]]]; db_run;
    destruct (DraftTables.DraftHistorySeq t !! User.Id user);
    auto.
Qed.

(** X1.  Sync is a snapshot read under every schedule of storage faults:
    for each of the three repositories, a Sync either gives exactly the
    answer of the undisturbed run or fails with the storage's error, and
    in both cases the tables are the ones it started from. *)
Theorem sync_is_a_snapshot_read user history schedule :
  (∀ t, (run (ContactRepository.Sync user history) t schedule =
           run (ContactRepository.Sync user history) t [] ∨
         run (ContactRepository.Sync user history) t schedule =
           (Err (SqlErr deadline_exceeded), t)) ∧
        (run (ContactRepository.Sync user history) t schedule).2 = t) ∧
  (∀ t, (run (BlobRepository.Sync user history) t schedule =
           run (BlobRepository.Sync user history) t [] ∨
         run (BlobRepository.Sync user history) t schedule =
           (Err (SqlErr deadline_exceeded), t)) ∧
        (run (BlobRepository.Sync user history) t schedule).2 = t) ∧
  (∀ t, (run (DraftRepository.Sync user history) t schedule =
           run (DraftRepository.Sync user history) t [] ∨
         run (DraftRepository.Sync user history) t schedule =
           (Err (SqlErr deadline_exceeded), t)) ∧
        (run (DraftRepository.Sync user history) t schedule).2 = t).
Proof.
  assert (Hc : ∀ t, (run (ContactRepository.Sync user history) t []).2 = t).
  { intros t. unfold ContactRepository.Sync, ContactRepository.select_history,
      seq_rows. db_run.
    by destruct (ContactTables.contact_history_seq t !! User.Id user). }
  assert (Hb : ∀ t, (run (BlobRepository.Sync user history) t []).2 = t).
  { intros t. unfold BlobRepository.Sync, BlobRepository.select_history,
      seq_rows. db_run.
    by destruct (BlobTables.BlobHistorySeq t !! User.Id user). }
  assert (Hd : ∀ t, (run (DraftRepository.Sync user history) t []).2 = t).
  { intros t. unfold DraftRepository.Sync, DraftRepository.select_history,
      seq_rows. db_run.
    by destruct (DraftTables.DraftHistorySeq t !! User.Id user). }
  split; [|split]; intros t.
  - destruct (contact_Sync_snapshot user history t schedule) as [E|E];
      (split; [auto|]); rewrite E; auto.
  - destruct (blob_Sync_snapshot user history t schedule) as [E|E];
      (split; [auto|]); rewrite E; auto.
  - destruct (draft_Sync_snapshot user history t schedule) as [E|E];
      (split; [auto|]); rewrite E; auto.
Qed.

(** X2.  A user without a row in the sequence table cannot read: List and
    Sync of the three repositories fail with [sql.ErrNoRows] (never an
    empty answer), under a schedule of faults with that or the storage's
    error, and the tables stay as they are. *)
Theorem reads_need_the_sequence_row user history :
  (∀ t, ContactTables.contact_history_seq t !! User.Id user = None →
     run (ContactRepository.List user) t [] = (Err (SqlErr ErrNoRows), t) ∧
     run (ContactRepository.Sync user history) t [] = (Err (SqlErr ErrNoRows), t) ∧
     ∀ schedule,
       (∃ e, run (ContactRepository.List user) t schedule = (Err e, t)) ∧
       (∃ e, run (ContactRepository.Sync user history) t schedule = (Err e, t))) ∧
  (∀ t, BlobTables.BlobHistorySeq t !! User.Id user = None →
     run (BlobRepository.List user) t [] = (Err (SqlErr ErrNoRows), t) ∧
     run (BlobRepository.Sync user history) t [] = (Err (SqlErr ErrNoRows), t) ∧
     ∀ schedule,
       (∃ e, run (BlobRepository.List user) t schedule = (Err e, t)) ∧
       (∃ e, run (BlobRepository.Sync user history) t schedule = (Err e, t))) ∧
  (∀ t, DraftTables.DraftHistorySeq t !! User.Id user = None →
     run (DraftRepository.List user) t [] = (Err (SqlErr ErrNoRows), t) ∧
     run (DraftRepository.Sync user history) t [] = (Err (SqlErr ErrNoRows), t) ∧
     ∀ schedule,
       (∃ e, run (DraftRepository.List user) t schedule = (Err e, t)) ∧
       (∃ e, run (DraftRepository.Sync user history) t schedule = (Err e, t))).
Proof.
  split; [|split]; intros t Hnone.
  - assert (HL : ∀ schedule, ∃ e,
        run (ContactRepository.List user) t schedule = (Err e, t)).
    { intros schedule.
      unfold ContactRepository.List, ContactRepository.select_history, seq_rows.
      destruct schedule as [|[] [|[] [|[] [|[] ?]]]]; db_run;
        rewrite ?Hnone; eauto. }
    assert (HS : ∀ schedule, ∃ e,
        run (ContactRepository.Sync user history) t schedule = (Err e, t)).
    { intros schedule.
      unfold ContactRepository.Sync, ContactRepository.select_history, seq_rows.
      destruct schedule as [|[] [|[] [|[] [|[] [|[] [|[] [|[] ?]]]]]]]; db_run;
        rewrite ?Hnone; eauto. }
    rewrite contact_List_quiet, contact_Sync_quiet, Hnone. auto.
  - assert (HL : ∀ schedule, ∃ e,
        run (BlobRepository.List user) t schedule = (Err e, t)).
    { intros schedule.
      unfold BlobRepository.List, BlobRepository.select_history, seq_rows.
      destruct schedule as [|[] [|[] [|[] [|[] ?]]]]; db_run;
        rewrite ?Hnone; eauto. }
    assert (HS : ∀ schedule, ∃ e,
        run (BlobRepository.Sync user history) t schedule = (Err e, t)).
    { intros schedule.
      unfold BlobRepository.Sync, BlobRepository.select_history, seq_rows.
      destruct schedule as [|[] [|[] [|[] [|[] [|[] [|[] [|[] ?]]]]]]]; db_run;
        rewrite ?Hnone; eauto. }
    rewrite blob_List_quiet, blob_Sync_quiet, Hnone. auto.
  - assert (HL : ∀ schedule, ∃ e,
        run (DraftRepository.List user) t schedule = (Err e, t)).
    { intros schedule.
      unfold DraftRepository.List, DraftRepository.select_history, seq_rows.
      destruct schedule as [|[] [|[] [|[] [|[] ?]]]]; db_run;
        rewrite ?Hnone; eauto. }
    assert (HS : ∀ schedule, ∃ e,
        run (DraftRepository.Sync user history) t schedule = (Err e, t)).
    { intros schedule.
      unfold DraftRepository.Sync, DraftRepository.select_history, seq_rows.
      destruct schedule as [|[] [|[] [|[] [|[] [|[] [|[] [|[] ?]]]]]]]; db_run;
        rewrite ?Hnone; eauto. }
    split; [|split; [|auto]].
    + unfold DraftRepository.List, DraftRepository.select_history, seq_rows.
      db_run. rewrite Hnone. reflexivity.
    + rewrite draft_Sync_quiet, Hnone. auto.
Qed.

Section contact_create_outcomes.
Context `{Outside}.

(** A row appended to a table violates the unique index exactly when no
    part of its identity is NULL and a row of the table holds it. *)
Lemma contact_insert_violation (row : Contact.t) (table : list Contact.t) :
  Contact.unique_violation [row] (table ++ [row]) ↔
  is_Some (Contact.identity row) ∧
  ∃ c, c ∈ table ∧ Contact.identity c = Contact.identity row.
Proof.
  unfold Contact.unique_violation, Contact.holders.
  rewrite Exists_cons, Exists_nil, filter_app, length_app.
  rewrite filter_cons, filter_nil.
  split.
  - intros [Hlen|[]].
    destruct (decide (is_Some (Contact.identity row) ∧
                      Contact.identity row = Contact.identity row))
      as [[Hs _]|Hn]; simpl in Hlen.
    + split; [done|].
      destruct (filter _ table) as [|x rest] eqn:E; [simpl in Hlen; lia|].
      assert (Hx : x ∈ x :: rest) by by left.
      rewrite <- E in Hx. apply list_elem_of_filter in Hx as [[_ Heq] Hx].
      by exists x.
    + destruct (filter _ table) as [|x rest] eqn:E; [simpl in Hlen; lia|].
      assert (Hx : x ∈ x :: rest) by by left.
      rewrite <- E in Hx. apply list_elem_of_filter in Hx as [[Hs _] _].
      exfalso. apply Hn. done.
  - intros [Hs (c & Hc & Heq)]. left.
    destruct (decide _) as [_|Hn]; [|exfalso; by apply Hn].
    assert (Hin : c ∈ filter (λ o, is_Some (Contact.identity row) ∧
                       Contact.identity o = Contact.identity row) table).
    { apply list_elem_of_filter. done. }
    destruct (filter _ table); [by apply not_elem_of_nil in Hin|].
    simpl. lia.
Qed.

End contact_create_outcomes.

(** X3.  Without storage faults, Create of a contact is refused with
    [ErrDuplicateContact], leaving the tables as they are, exactly when
    email address, first name and last name are all given and some stored
    contact already holds the three, whoever owns it and whether or not it
    lies in the trash; otherwise the contact is appended as a live row of
    the caller with the next history id.  The record returned is the row
    as the INSERT wrote it: the fields of the request, the generated id
    and creation time, the column defaults for timeline and history id,
    and the device id the statement was given. *)
Theorem create_refuses_exactly_the_duplicates `{Outside} d (user : User.t)
    (contact : Contact.t) (t : ContactTables.t) :
  (is_Some (Contact.identity contact) ∧
   (∃ c, c ∈ ContactTables.contact t ∧
         Contact.identity c = Contact.identity contact) →
   run (ContactRepository.Create d user contact) t [] =
     (Err ErrDuplicateContact, t)) ∧
  (¬ (is_Some (Contact.identity contact) ∧
      ∃ c, c ∈ ContactTables.contact t ∧
           Contact.identity c = Contact.identity contact) →
   let returned :=
     Contact.Mk (Defaults.Id d) (User.Id user)
       (Contact.EmailAddress contact) (Contact.FirstName contact)
       (Contact.LastName contact) (Defaults.Now d) None
       (Defaults.DefaultTimelineId d) (Defaults.DefaultHistoryId d) 0
       (getPrefixedDeviceId (User.DeviceId user)) in
   let stored :=
     Contact.Mk (Defaults.Id d) (User.Id user)
       (Contact.EmailAddress contact) (Contact.FirstName contact)
       (Contact.LastName contact) (Defaults.Now d) None
       (Defaults.TimelineId d)
       (default 0 (ContactTables.contact_history_seq t !! User.Id user) + 1)
       0 (deviceColumn (getPrefixedDeviceId (User.DeviceId user))) in
   run (ContactRepository.Create d user contact) t [] =
     (Ok returned,
      ContactTables.Mk (ContactTables.contact t ++ [stored])
        (ContactTables.contact_deleted t)
        (<[User.Id user := Contact.HistoryId stored]>
           (ContactTables.contact_history_seq t)))).
Proof.
  unfold ContactRepository.Create, ContactRepository.insert_contact,
    next_history.
  db_run. cbv zeta.
  match goal with
  | |- context [decide (Contact.unique_violation [?r] _)] => set (row := r)
  end.
  assert (Hid : Contact.identity row = Contact.identity contact) by done.
  pose proof (contact_insert_violation row (ContactTables.contact t)) as Hv.
  rewrite Hid in Hv.
  destruct (decide (Contact.unique_violation _ _)) as [Hyes|Hno]; simpl.
  - split.
    + intros _. by destruct t.
    + intros Hn. exfalso. apply Hn, Hv, Hyes.
  - split.
    + intros Hheld. exfalso. apply Hno, Hv, Hheld.
    + intros _. reflexivity.
Qed.

(** ** Trash, Untrash and Delete against the other operations *)

Section contact_marks.
Context `{Outside}.

(** What the statement of Trash ([k = 2]) and Untrash ([k = 0]) makes of a
    table, row by row. *)
Lemma contact_update_last_stmt_rows k dev uid idList values t :
  json_each idList None = Some values →
  ∃ t', ContactRepository.update_last_stmt k dev uid idList t = inr t' ∧
    ContactTables.contact_deleted t' = ContactTables.contact_deleted t ∧
    (∀ c', c' ∈ ContactTables.contact t' →
           Spec.listed Contact.Id Contact.UserId uid values c' →
           Contact.LastStmt c' = k ∧
           ∃ c, c ∈ ContactTables.contact t ∧ Contact.Id c = Contact.Id c' ∧
                Contact.UserId c = Contact.UserId c') ∧
    (∀ c', c' ∈ ContactTables.contact t' →
           ¬ Spec.listed Contact.Id Contact.UserId uid values c' →
           c' ∈ ContactTables.contact t) ∧
    (∀ c, c ∈ ContactTables.contact t →
          Spec.listed Contact.Id Contact.UserId uid values c →
          ∃ h, Contact.stamp h (Contact.set_last_stmt k (deviceColumn dev) c)
                 ∈ ContactTables.contact t') ∧
    (∀ c, c ∈ ContactTables.contact t →
          ¬ Spec.listed Contact.Id Contact.UserId uid values c →
          c ∈ ContactTables.contact t') ∧
    (∀ v, is_Some (ContactTables.contact_history_seq t !! v) →
          is_Some (ContactTables.contact_history_seq t' !! v)).
Proof.
  intros Hjson.
  pose proof (λ v, update_where_keeps_seq Contact.UserId
    (ContactRepository.bulk_cond uid values)
    (Contact.set_last_stmt k (deviceColumn dev)) Contact.stamp
    (ContactTables.contact t) (ContactTables.contact_history_seq t) v) as Hkeep.
  destruct (contact_update_last_stmt_ok k dev uid idList values t Hjson)
    as (t' & Heq & Hdel & Hrows & _ & _).
  assert (Hkeep' : ∀ v, is_Some (ContactTables.contact_history_seq t !! v) →
                        is_Some (ContactTables.contact_history_seq t' !! v)).
  { intros v Hv. specialize (Hkeep v Hv).
    unfold ContactRepository.update_last_stmt, id_values in Heq.
    rewrite Hjson in Heq.
    destruct (update_where _ _ _ _ _ _) as [[table ret] seq].
    injection Heq as <-. exact Hkeep. }
  exists t'. split; [exact Heq|]. split; [exact Hdel|].
  split; [|split; [|split; [|split]]].
  - intros c' Hc' Hl. apply list_elem_of_lookup in Hc' as [i Hi].
    destruct (Forall2_lookup_r _ _ _ _ _ Hrows Hi) as (c & Hci & Hr).
    unfold rewritten in Hr. destruct (decide _) as [Hc|Hc].
    + destruct Hr as (h & -> & _). split; [done|].
      exists c. split; [by eapply list_elem_of_lookup_2|done].
    + subst c'. by apply contact_bulk_cond_spec in Hl.
  - intros c' Hc' Hl. apply list_elem_of_lookup in Hc' as [i Hi].
    destruct (Forall2_lookup_r _ _ _ _ _ Hrows Hi) as (c & Hci & Hr).
    unfold rewritten in Hr. destruct (decide _) as [Hc|Hc].
    + destruct Hr as (h & -> & _). exfalso. apply Hl.
      apply contact_bulk_cond_spec in Hc. exact Hc.
    + subst c'. by eapply list_elem_of_lookup_2.
  - intros c Hc Hl. apply list_elem_of_lookup in Hc as [i Hi].
    destruct (Forall2_lookup_l _ _ _ _ _ Hrows Hi) as (c' & Hci & Hr).
    unfold rewritten in Hr.
    rewrite decide_True in Hr by by apply contact_bulk_cond_spec.
    destruct Hr as (h & -> & _). exists h. by eapply list_elem_of_lookup_2.
  - intros c Hc Hl. apply list_elem_of_lookup in Hc as [i Hi].
    destruct (Forall2_lookup_l _ _ _ _ _ Hrows Hi) as (c' & Hci & Hr).
    unfold rewritten in Hr.
    rewrite decide_False in Hr by by rewrite contact_bulk_cond_spec.
    subst c'. by eapply list_elem_of_lookup_2.
  - exact Hkeep'.
Qed.

Lemma contact_Trash_run (user : User.t) idList t :
  idList ≠ "" →
  run (ContactRepository.Trash user idList) t [] =
  match ContactRepository.update_last_stmt 2
          (getPrefixedDeviceId (User.DeviceId user)) (User.Id user) idList t with
  | inl e => (Err (SqlErr e), t)
  | inr t' => (Ok tt, t')
  end.
Proof.
  intros Hne. unfold ContactRepository.Trash.
  rewrite decide_True by (destruct idList; [done|simpl; lia]).
  by rewrite ExecContext_run.
Qed.

Lemma contact_Untrash_run (user : User.t) idList t :
  idList ≠ "" →
  run (ContactRepository.Untrash user idList) t [] =
  match ContactRepository.update_last_stmt 0
          (getPrefixedDeviceId (User.DeviceId user)) (User.Id user) idList t with
  | inl e => (Err (SqlErr e), t)
  | inr t' => (Ok tt, t')
  end.
Proof.
  intros Hne. unfold ContactRepository.Untrash.
  rewrite decide_True by (destruct idList; [done|simpl; lia]).
  by rewrite ExecContext_run.
Qed.

Lemma contact_Delete_run (user : User.t) idList values t :
  idList ≠ "" →
  json_each idList None = Some values →
  run (ContactRepository.Delete user idList) t [] =
  (Ok tt,
   ContactTables.Mk
     (filter (λ c, ¬ Spec.listed Contact.Id Contact.UserId (User.Id user) values c)
        (ContactTables.contact t))
     (ContactTables.contact_deleted t)
     (ContactTables.contact_history_seq t)).
Proof.
  intros Hne Hjson. unfold ContactRepository.Delete.
  rewrite decide_True by (destruct idList; [done|simpl; lia]).
  rewrite ExecContext_run.
  by rewrite (contact_delete_contacts_ok _ _ values).
Qed.

End contact_marks.

(** X4.  A trashed contact cannot be updated: once Trash has run for an
    id list, Update of a listed contact by the same user answers
    [ErrContactNotFound] and changes nothing; after Untrash of the list,
    Update of a contact the user holds no longer answers not found. *)
Theorem trashed_contact_cannot_be_updated `{Outside} now (user : User.t)
    (idList : string) (values : list string) (contact : Contact.t)
    (t : ContactTables.t) :
  idList ≠ "" →
  json_each idList None = Some values →
  Contact.Id contact ∈ values →
  let t1 := (run (ContactRepository.Trash user idList) t []).2 in
  let t2 := (run (ContactRepository.Untrash user idList) t1 []).2 in
  run (ContactRepository.Update now user contact) t1 [] =
    (Err ErrContactNotFound, t1) ∧
  ((∃ c, c ∈ ContactTables.contact t ∧ Contact.UserId c = User.Id user ∧
         Contact.Id c = Contact.Id contact) →
   (run (ContactRepository.Update now user contact) t2 []).1 ≠
     Err ErrContactNotFound).
Proof.
  intros Hne Hjson Hin t1 t2.
  subst t2 t1. rewrite contact_Trash_run by done.
  destruct (contact_update_last_stmt_rows 2
              (getPrefixedDeviceId (User.DeviceId user)) (User.Id user)
              idList values t Hjson)
    as (t1 & -> & _ & Hmarked & _ & Hfwd & _ & _). simpl.
  rewrite contact_Untrash_run by done.
  destruct (contact_update_last_stmt_rows 0
              (getPrefixedDeviceId (User.DeviceId user)) (User.Id user)
              idList values t1 Hjson)
    as (t2 & -> & _ & Hmarked2 & _ & Hfwd2 & _ & _). simpl.
  split.
  - destruct (contact_Update_outcomes now user contact t1)
      as (Hnf & Hsame & _).
    assert (Hhits : filter (Contact.updatable (User.Id user) (Contact.Id contact))
                      (ContactTables.contact t1) = []).
    { match goal with |- ?fl = [] => destruct fl as [|x rest] eqn:E end; [done|].
      assert (Hx : x ∈ x :: rest) by by left.
      rewrite <- E in Hx. apply list_elem_of_filter in Hx as [(Hu & Hi & Hk) Hx].
      exfalso. apply Hk. apply (Hmarked x Hx). split; [done|]. by rewrite Hi. }
    apply Hnf in Hhits as Hres. specialize (Hsame Hhits).
    destruct (run (ContactRepository.Update now user contact) t1 []) as [r tr].
    simpl in *. by subst.
  - intros (c & Hc & Hu & Hi) Hres.
    destruct (contact_Update_outcomes now user contact t2) as (Hnf & _).
    apply Hnf in Hres.
    assert (Hl : Spec.listed Contact.Id Contact.UserId (User.Id user) values c).
    { split; [done|]. by rewrite Hi. }
    destruct (Hfwd c Hc Hl) as (h & Hc1).
    assert (Hl1 : Spec.listed Contact.Id Contact.UserId (User.Id user) values
              (Contact.stamp h (Contact.set_last_stmt 2
                 (deviceColumn (getPrefixedDeviceId (User.DeviceId user))) c)))
      by exact Hl.
    destruct (Hfwd2 _ Hc1 Hl1) as (h2 & Hc2).
    assert (Hx : Contact.stamp h2 (Contact.set_last_stmt 0
                   (deviceColumn (getPrefixedDeviceId (User.DeviceId user)))
                   (Contact.stamp h (Contact.set_last_stmt 2
                      (deviceColumn (getPrefixedDeviceId (User.DeviceId user))) c)))
                 ∈ filter (Contact.updatable (User.Id user) (Contact.Id contact))
                     (ContactTables.contact t2)).
    { apply list_elem_of_filter. split; [|exact Hc2].
      unfold Contact.updatable. simpl. done. }
    rewrite Hres in Hx. by apply not_elem_of_nil in Hx.
Qed.

Lemma contact_List_members (user : User.t) (t : ContactTables.t) (h : Z) :
  ContactTables.contact_history_seq t !! User.Id user = Some h →
  ∃ l, run (ContactRepository.List user) t [] = (Ok l, t) ∧
       ContactList.History l = h ∧
       ∀ c, c ∈ ContactList.Contacts l ↔
            c ∈ ContactTables.contact t ∧ Contact.UserId c = User.Id user ∧
            Contact.LastStmt c < 2.
Proof.
  intros Hseq. rewrite contact_List_quiet, Hseq.
  eexists. split; [reflexivity|]. split; [reflexivity|]. simpl.
  intros c. rewrite order_by_desc_perm, elem_of_select, contact_list_where_spec.
  unfold Spec.live. tauto.
Qed.

(** X5.  Trash takes the listed contacts out of List and Untrash puts
    them back: after Trash of an id list no contact of the list is among
    the contacts List returns, while the caller's other live contacts
    still are; after Untrash of the same list every contact of the caller
    that the list names is returned again, with the fields it had. *)
Theorem trash_hides_and_untrash_restores `{Outside} (user : User.t)
    (idList : string) (values : list string) (t : ContactTables.t) :
  idList ≠ "" →
  json_each idList None = Some values →
  is_Some (ContactTables.contact_history_seq t !! User.Id user) →
  let t1 := (run (ContactRepository.Trash user idList) t []).2 in
  let t2 := (run (ContactRepository.Untrash user idList) t1 []).2 in
  ∃ l1 l2,
    run (ContactRepository.List user) t1 [] = (Ok l1, t1) ∧
    run (ContactRepository.List user) t2 [] = (Ok l2, t2) ∧
    (∀ c, c ∈ ContactList.Contacts l1 → Contact.Id c ∉ values) ∧
    (∀ c, c ∈ ContactTables.contact t → Contact.UserId c = User.Id user →
          Contact.LastStmt c < 2 → Contact.Id c ∉ values →
          c ∈ ContactList.Contacts l1 ∧ c ∈ ContactList.Contacts l2) ∧
    (∀ c, c ∈ ContactTables.contact t → Contact.UserId c = User.Id user →
          Contact.Id c ∈ values →
          ∃ c', c' ∈ ContactList.Contacts l2 ∧
                Contact.Id c' = Contact.Id c ∧
                Contact.EmailAddress c' = Contact.EmailAddress c ∧
                Contact.FirstName c' = Contact.FirstName c ∧
                Contact.LastName c' = Contact.LastName c ∧
                Contact.CreatedAt c' = Contact.CreatedAt c).
Proof.
  intros Hne Hjson Hseq t1 t2. subst t2 t1.
  rewrite contact_Trash_run by done.
  destruct (contact_update_last_stmt_rows 2
              (getPrefixedDeviceId (User.DeviceId user)) (User.Id user)
              idList values t Hjson)
    as (t1 & -> & _ & Hmarked & _ & Hfwd & Hkept & Hseq1). simpl.
  rewrite contact_Untrash_run by done.
  destruct (contact_update_last_stmt_rows 0
              (getPrefixedDeviceId (User.DeviceId user)) (User.Id user)
              idList values t1 Hjson)
    as (t2 & -> & _ & Hmarked2 & _ & Hfwd2 & Hkept2 & Hseq2). simpl.
  destruct (Hseq1 _ Hseq) as [h1 Hh1].
  destruct (Hseq2 _ (Hseq1 _ Hseq)) as [h2 Hh2].
  destruct (contact_List_members user t1 h1 Hh1) as (l1 & Hl1 & _ & Hin1).
  destruct (contact_List_members user t2 h2 Hh2) as (l2 & Hl2 & _ & Hin2).
  exists l1, l2. split; [exact Hl1|]. split; [exact Hl2|].
  split; [|split].
  - intros c [Hc [Hu Hk]]%Hin1 Hv.
    destruct (Hmarked c Hc) as [Hk2 _]; [by split|]. lia.
  - intros c Hc Hu Hk Hv.
    assert (Hnl : ¬ Spec.listed Contact.Id Contact.UserId (User.Id user) values c)
      by (intros [_ ?]; done).
    split.
    + apply Hin1. split; [|done]. by apply Hkept.
    + apply Hin2. split; [|done]. apply Hkept2; [|done]. by apply Hkept.
  - intros c Hc Hu Hv.
    assert (Hl : Spec.listed Contact.Id Contact.UserId (User.Id user) values c)
      by by split.
    destruct (Hfwd c Hc Hl) as (h & Hc1).
    destruct (Hfwd2 _ Hc1 Hl) as (h' & Hc2).
    eexists. split.
    + apply Hin2. split; [exact Hc2|]. simpl. split; [done|lia].
    + done.
Qed.

(** X6.  Delete is final: once Delete has run for an id list, none of the
    caller's contacts carries an id of the list; a second Delete, a Trash
    and an Untrash of the same list succeed and leave the contact table as
    it is, and Update of a listed contact answers [ErrContactNotFound]. *)
Theorem delete_is_final `{Outside} now (user : User.t) (idList : string)
    (values : list string) (contact : Contact.t) (t : ContactTables.t) :
  idList ≠ "" →
  json_each idList None = Some values →
  let t1 := (run (ContactRepository.Delete user idList) t []).2 in
  (∀ c, c ∈ ContactTables.contact t1 → Contact.UserId c = User.Id user →
        Contact.Id c ∉ values) ∧
  (∀ o, (run (ContactRepository.bulk o user idList) t1 []).1 = Ok tt ∧
        ContactTables.contact (run (ContactRepository.bulk o user idList) t1 []).2 =
          ContactTables.contact t1) ∧
  (Contact.Id contact ∈ values →
   run (ContactRepository.Update now user contact) t1 [] =
     (Err ErrContactNotFound, t1)).
Proof.
  intros Hne Hjson t1. subst t1.
  rewrite (contact_Delete_run user idList values) by done. simpl.
  set (t1 := ContactTables.Mk _ _ _).
  assert (Hgone : ∀ c, c ∈ ContactTables.contact t1 →
            ¬ Spec.listed Contact.Id Contact.UserId (User.Id user) values c).
  { intros c Hc. apply list_elem_of_filter in Hc as [Hc _]. exact Hc. }
  split; [|split].
  - intros c Hc Hu Hv. apply (Hgone c Hc). by split.
  - intros [].
    + simpl. rewrite contact_Trash_run by done.
      destruct (contact_update_last_stmt_ok 2
                  (getPrefixedDeviceId (User.DeviceId user)) (User.Id user)
                  idList values t1 Hjson) as (t' & -> & _ & _ & _ & Hsame).
      rewrite (Hsame Hgone). done.
    + simpl. rewrite contact_Untrash_run by done.
      destruct (contact_update_last_stmt_ok 0
                  (getPrefixedDeviceId (User.DeviceId user)) (User.Id user)
                  idList values t1 Hjson) as (t' & -> & _ & _ & _ & Hsame).
      rewrite (Hsame Hgone). done.
    + simpl. rewrite (contact_Delete_run user idList values) by done. simpl.
      split; [done|]. apply filter_all_in. exact Hgone.
  - intros Hin.
    destruct (contact_Update_outcomes now user contact t1) as (Hnf & Hsame & _).
    assert (Hhits : filter (Contact.updatable (User.Id user) (Contact.Id contact))
                      (ContactTables.contact t1) = []).
    { match goal with |- ?fl = [] => destruct fl as [|x rest] eqn:E end; [done|].
      assert (Hx : x ∈ x :: rest) by by left.
      rewrite <- E in Hx. apply list_elem_of_filter in Hx as [(Hu & Hi & Hk) Hx].
      exfalso. apply (Hgone x Hx). split; [done|]. by rewrite Hi. }
    apply Hnf in Hhits as Hres. specialize (Hsame Hhits).
    destruct (run (ContactRepository.Update now user contact) t1 []) as [r tr].
    simpl in *. by subst.
Qed.

(** ** Blob deletions and the devices *)

(** Modelled tombstones carry a history id above the mark their owner had
    before the removal, and the removal keeps the sequence rows. *)
Lemma bury_marks {R D} (owner : R → Z) (tombstone : Z → R → D) gone seq :
  Forall2 (λ r d, ∃ h, d = tombstone h r ∧ default 0 (seq !! owner r) < h)
    gone (bury owner tombstone gone seq).1 ∧
  (∀ v, is_Some (seq !! v) →
        is_Some ((bury owner tombstone gone seq).2 !! v)).
Proof.
  revert seq. induction gone as [|r gone IH]; intros seq; simpl.
  { split; [constructor|done]. }
  pose proof (λ v, next_history_mono (owner r) seq v) as Hmono.
  unfold next_history in Hmono. simpl in Hmono.
  specialize (IH (<[owner r := default 0 (seq !! owner r) + 1]> seq)).
  destruct (bury _ _ gone _) as [ds seq']. simpl in *.
  destruct IH as [IH1 IH2]. split.
  - constructor.
    + eexists. split; [reflexivity|lia].
    + eapply Forall2_impl; [exact IH1|].
      intros x d (h & -> & Hh). exists h. split; [done|].
      specialize (Hmono (owner x)). lia.
  - intros v Hv. apply IH2.
    destruct (decide (owner r = v)) as [->|Hne].
    + rewrite lookup_insert_eq. by eexists.
    + by rewrite lookup_insert_ne.
Qed.

Section blob_tombstones.
Context `{Outside}.

Lemma blob_Delete_run (user : User.t) uris values (t : BlobTables.t) :
  uris ≠ "" →
  json_each uris BlobRepository.uris_path = Some values →
  let gone := Sql.select (BlobRepository.bulk_cond (User.Id user) values)
                (BlobTables.Blob t) in
  let buried := bury Blob.UserId BlobDeleted.of_blob gone
                  (BlobTables.BlobHistorySeq t) in
  run (BlobRepository.Delete user uris) t [] =
  (Ok tt,
   BlobTables.Mk
     (delete_where (BlobRepository.bulk_cond (User.Id user) values)
        (BlobTables.Blob t))
     (rewrite_where (BlobRepository.deleted_cond (User.Id user) values)
        (BlobDeleted.set_device (User.DeviceId user))
        (BlobTables.BlobDeleted t ++ buried.1))
     buried.2).
Proof.
  intros Hne Hjson gone buried. subst buried gone.
  unfold BlobRepository.Delete.
  rewrite decide_True by (destruct uris; [done|simpl; lia]).
  match goal with
  | |- _ = (_, ?t2) =>
    assert (H1 : ∃ t1,
      BlobRepository.delete_blobs (User.Id user) uris t = inr t1 ∧
      BlobRepository.stamp_deleted (User.DeviceId user) (User.Id user) uris t1
        = inr t2)
  end.
  { unfold BlobRepository.delete_blobs, BlobRepository.stamp_deleted, id_values.
    rewrite Hjson. destruct (bury _ _ _ _) as [tombs seq'].
    eexists. split; [reflexivity|]. simpl. reflexivity. }
  destruct H1 as (t1 & H1 & H2).
  db_run. rewrite H1. cbn. rewrite H2. reflexivity.
Qed.

End blob_tombstones.

(** X7.  A device is not told of the blobs it deleted itself, whatever
    form the device id is stored in elsewhere: Delete stamps the
    tombstones with the caller's device id as Sync compares it.  After a
    Delete by a device, its own Sync returns no tombstone for a listed
    uri, and the Sync of another device of the same user, from a history
    id not above the mark before the deletion, returns a tombstone for
    every removed blob. *)
Theorem blob_deletions_are_not_echoed `{Outside} (user other : User.t)
    (D D2 : string) (uris : string) (values : list string)
    (t : BlobTables.t) (history : History.t) :
  uris ≠ "" →
  json_each uris BlobRepository.uris_path = Some values →
  User.DeviceId user = Some D →
  User.Id other = User.Id user → User.DeviceId other = Some D2 → D2 ≠ D →
  is_Some (BlobTables.BlobHistorySeq t !! User.Id user) →
  let t2 := (run (BlobRepository.Delete user uris) t []).2 in
  ∃ own others,
    run (BlobRepository.Sync user history) t2 [] = (Ok own, t2) ∧
    run (BlobRepository.Sync other history) t2 [] = (Ok others, t2) ∧
    (∀ d, d ∈ BlobSync.BlobsDeleted own → BlobDeleted.Uri d ∉ values) ∧
    (History.Id history ≤
       default 0 (BlobTables.BlobHistorySeq t !! User.Id user) →
     ∀ b, b ∈ BlobTables.Blob t → Blob.UserId b = User.Id user →
          Blob.Uri b ∈ values →
          ∃ d, d ∈ BlobSync.BlobsDeleted others ∧
               BlobDeleted.Uri d = Blob.Uri b).
Proof.
  intros Hne Hjson HD Hid HD2 Hdiff Hseq t2. subst t2.
  rewrite (blob_Delete_run user uris values) by done. simpl.
  set (gone := Sql.select _ _).
  destruct (bury_marks Blob.UserId BlobDeleted.of_blob gone
              (BlobTables.BlobHistorySeq t)) as [Hmarks Hkeep].
  destruct (bury _ _ _ _) as [tombs seq'] eqn:Hbury. simpl in *.
  destruct (Hkeep _ Hseq) as [h' Hh'].
  rewrite !blob_Sync_quiet. simpl. rewrite Hid, Hh'.
  do 2 eexists. split; [reflexivity|]. split; [reflexivity|]. simpl.
  split.
  - intros d [Hd Hin]%elem_of_select Hv.
    apply blob_deleted_where_spec in Hd as (Hu & _ & Hdev).
    apply elem_of_rewrite_where in Hin as (d0 & _ & ->).
    unfold Spec.other_device in Hdev. rewrite HD in Hdev.
    destruct (decide _) as [Hc|Hc].
    + simpl in Hdev. done.
    + apply Hc, blob_deleted_cond_spec. by split.
  - intros Hsince b Hb Hu Hv.
    assert (Hg : b ∈ gone).
    { apply elem_of_select. split; [|done].
      apply blob_bulk_cond_spec. by split. }
    apply list_elem_of_lookup in Hg as [i Hi].
    destruct (Forall2_lookup_l _ _ _ _ _ Hmarks Hi) as (d & Hd & h & -> & Hh).
    exists (BlobDeleted.set_device (User.DeviceId user) (BlobDeleted.of_blob h b)).
    split; [|done].
    apply elem_of_select. split.
    + apply blob_deleted_where_spec.
      unfold Spec.changed_since, Spec.other_device. simpl.
      rewrite HD2, HD, Hu in *. split; [done|]. split; [lia|congruence].
    + apply elem_of_rewrite_where. exists (BlobDeleted.of_blob h b). split.
      * apply elem_of_app. right. by eapply list_elem_of_lookup_2.
      * rewrite decide_True; [done|].
        apply blob_deleted_cond_spec. by split.
Qed.

(** ** Sync and List of the draft repository *)

Lemma draft_list_where_spec user d :
  Sql.holds (DraftRepository.list_where user d) ↔
  Spec.live Draft.UserId Draft.LastStmt user d.
Proof. unfold DraftRepository.list_where, Spec.live. sql_iff. tauto. Qed.

(** X8.  The draft repository reads like the contact repository.  For a
    user with a sequence row, Sync returns the user's high-water-mark and
    partitions the changed drafts by their lastStmt under the
    device-exclusion filter, no draft in two buckets and each bucket
    ordered by creation time descending; List returns the mark and exactly
    the user's drafts with lastStmt < 2, in the same order.  Both leave
    the tables as they are. *)
Theorem draft_sync_and_list (user : User.t) (history : History.t)
    (t : DraftTables.t) (h : Z) :
  DraftTables.DraftHistorySeq t !! User.Id user = Some h →
  (∃ s, run (DraftRepository.Sync user history) t [] = (Ok s, t) ∧
     DraftSync.History s = h ∧
     Spec.classified Draft.UserId Draft.HistoryId Draft.DeviceId
       Draft.LastStmt DraftDeleted.UserId DraftDeleted.HistoryId
       DraftDeleted.DeviceId user (History.Id history)
       (DraftTables.Draft t) (DraftTables.DraftDeleted t)
       (DraftSync.DraftsInserted s) (DraftSync.DraftsUpdated s)
       (DraftSync.DraftsTrashed s) (DraftSync.DraftsDeleted s) ∧
     Spec.exclusive (DraftSync.DraftsInserted s)
       (DraftSync.DraftsUpdated s) (DraftSync.DraftsTrashed s) ∧
     StronglySorted (Sql.desc Draft.CreatedAt) (DraftSync.DraftsInserted s) ∧
     StronglySorted (Sql.desc Draft.CreatedAt) (DraftSync.DraftsUpdated s) ∧
     StronglySorted (Sql.desc Draft.CreatedAt) (DraftSync.DraftsTrashed s)) ∧
  (∃ l, run (DraftRepository.List user) t [] = (Ok l, t) ∧
     DraftList.History l = h ∧
     DraftList.Drafts l ≡ₚ
       filter (Spec.live Draft.UserId Draft.LastStmt user) (DraftTables.Draft t) ∧
     StronglySorted (Sql.desc Draft.CreatedAt) (DraftList.Drafts l)).
Proof.
  intros Hseq. split.
  - rewrite draft_Sync_quiet, Hseq.
    eexists; split; [reflexivity|]; simpl.
    pose proof (draft_Sync_classified user history t) as Hc.
    split; [done|]. split; [done|]. split.
    + eapply classified_exclusive; exact Hc.
    + repeat split; apply order_by_desc_sorted.
  - unfold DraftRepository.List, DraftRepository.select_history, seq_rows.
    db_run. rewrite Hseq.
    eexists; split; [reflexivity|]; simpl. split; [done|]. split.
    + apply bucket_perm, draft_list_where_spec.
    + apply order_by_desc_sorted.
Qed.

(** ** Trash, Untrash and Update of the blob repository *)

Section blob_bulk.
Context `{Outside}.

Lemma blob_tables_eta t :
  BlobTables.Mk (BlobTables.Blob t) (BlobTables.BlobDeleted t)
    (BlobTables.BlobHistorySeq t) = t.
Proof. by destruct t. Qed.

(** The statements of the three bulk operations, on well-formed JSON. *)
Lemma blob_update_last_stmt_ok k dev uid idList values t :
  json_each idList BlobRepository.uris_path = Some values →
  ∃ t', BlobRepository.update_last_stmt k dev uid idList t = inr t' ∧
    BlobTables.BlobDeleted t' = BlobTables.BlobDeleted t ∧
    Forall2
      (rewritten Blob.UserId (BlobRepository.bulk_cond uid values)
         (Blob.set_last_stmt k (deviceColumn dev)) Blob.stamp
         (BlobTables.BlobHistorySeq t)
         (BlobTables.BlobHistorySeq t'))
      (BlobTables.Blob t) (BlobTables.Blob t') ∧
    (∀ v, v ≠ uid → BlobTables.BlobHistorySeq t' !! v =
                    BlobTables.BlobHistorySeq t !! v) ∧
    ((∀ c, c ∈ BlobTables.Blob t →
           ¬ Spec.listed Blob.Uri Blob.UserId uid values c) → t' = t).
Proof.
  intros Hjson. unfold BlobRepository.update_last_stmt, id_values.
  rewrite Hjson.
  pose proof (update_where_rows Blob.UserId
    (BlobRepository.bulk_cond uid values)
    (Blob.set_last_stmt k (deviceColumn dev)) Blob.stamp
    (BlobTables.Blob t) (BlobTables.BlobHistorySeq t)) as Hrows.
  pose proof (λ v, update_where_seq_frame Blob.UserId
    (BlobRepository.bulk_cond uid values)
    (Blob.set_last_stmt k (deviceColumn dev)) Blob.stamp
    (BlobTables.Blob t) (BlobTables.BlobHistorySeq t) v) as Hseq.
  pose proof (update_where_nomatch Blob.UserId
    (BlobRepository.bulk_cond uid values)
    (Blob.set_last_stmt k (deviceColumn dev)) Blob.stamp
    (BlobTables.Blob t) (BlobTables.BlobHistorySeq t)) as Hno.
  destruct (update_where _ _ _ _ _ _) as [[table ret] seq]. simpl in *.
  eexists. split; [reflexivity|]. simpl. split; [done|]. split; [done|]. split.
  - intros v Hv. apply Hseq. intros c _ Hc%blob_bulk_cond_spec.
    destruct Hc as [-> _]. done.
  - intros Hnone.
    assert (Hno' : (table, ret, seq) = (BlobTables.Blob t, [],
                      BlobTables.BlobHistorySeq t)).
    { apply Hno. intros c Hc. rewrite blob_bulk_cond_spec. by apply Hnone. }
    injection Hno' as -> -> ->. apply blob_tables_eta.
Qed.

End blob_bulk.

Section blob_marks.
Context `{Outside}.

(** What the statement of Trash ([k = 2]) and Untrash ([k = 0]) makes of a
    table, row by row. *)
Lemma blob_update_last_stmt_rows k dev uid idList values t :
  json_each idList BlobRepository.uris_path = Some values →
  ∃ t', BlobRepository.update_last_stmt k dev uid idList t = inr t' ∧
    BlobTables.BlobDeleted t' = BlobTables.BlobDeleted t ∧
    (∀ c', c' ∈ BlobTables.Blob t' →
           Spec.listed Blob.Uri Blob.UserId uid values c' →
           Blob.LastStmt c' = k ∧
           ∃ c, c ∈ BlobTables.Blob t ∧ Blob.Uri c = Blob.Uri c' ∧
                Blob.UserId c = Blob.UserId c') ∧
    (∀ c', c' ∈ BlobTables.Blob t' →
           ¬ Spec.listed Blob.Uri Blob.UserId uid values c' →
           c' ∈ BlobTables.Blob t) ∧
    (∀ c, c ∈ BlobTables.Blob t →
          Spec.listed Blob.Uri Blob.UserId uid values c →
          ∃ h, Blob.stamp h (Blob.set_last_stmt k (deviceColumn dev) c)
                 ∈ BlobTables.Blob t') ∧
    (∀ c, c ∈ BlobTables.Blob t →
          ¬ Spec.listed Blob.Uri Blob.UserId uid values c →
          c ∈ BlobTables.Blob t') ∧
    (∀ v, is_Some (BlobTables.BlobHistorySeq t !! v) →
          is_Some (BlobTables.BlobHistorySeq t' !! v)).
Proof.
  intros Hjson.
  pose proof (λ v, update_where_keeps_seq Blob.UserId
    (BlobRepository.bulk_cond uid values)
    (Blob.set_last_stmt k (deviceColumn dev)) Blob.stamp
    (BlobTables.Blob t) (BlobTables.BlobHistorySeq t) v) as Hkeep.
  destruct (blob_update_last_stmt_ok k dev uid idList values t Hjson)
    as (t' & Heq & Hdel & Hrows & _ & _).
  assert (Hkeep' : ∀ v, is_Some (BlobTables.BlobHistorySeq t !! v) →
                        is_Some (BlobTables.BlobHistorySeq t' !! v)).
  { intros v Hv. specialize (Hkeep v Hv).
    unfold BlobRepository.update_last_stmt, id_values in Heq.
    rewrite Hjson in Heq.
    destruct (update_where _ _ _ _ _ _) as [[table ret] seq].
    injection Heq as <-. exact Hkeep. }
  exists t'. split; [exact Heq|]. split; [exact Hdel|].
  split; [|split; [|split; [|split]]].
  - intros c' Hc' Hl. apply list_elem_of_lookup in Hc' as [i Hi].
    destruct (Forall2_lookup_r _ _ _ _ _ Hrows Hi) as (c & Hci & Hr).
    unfold rewritten in Hr. destruct (decide _) as [Hc|Hc].
    + destruct Hr as (h & -> & _). split; [done|].
      exists c. split; [by eapply list_elem_of_lookup_2|done].
    + subst c'. by apply blob_bulk_cond_spec in Hl.
  - intros c' Hc' Hl. apply list_elem_of_lookup in Hc' as [i Hi].
    destruct (Forall2_lookup_r _ _ _ _ _ Hrows Hi) as (c & Hci & Hr).
    unfold rewritten in Hr. destruct (decide _) as [Hc|Hc].
    + destruct Hr as (h & -> & _). exfalso. apply Hl.
      apply blob_bulk_cond_spec in Hc. exact Hc.
    + subst c'. by eapply list_elem_of_lookup_2.
  - intros c Hc Hl. apply list_elem_of_lookup in Hc as [i Hi].
    destruct (Forall2_lookup_l _ _ _ _ _ Hrows Hi) as (c' & Hci & Hr).
    unfold rewritten in Hr.
    rewrite decide_True in Hr by by apply blob_bulk_cond_spec.
    destruct Hr as (h & -> & _). exists h. by eapply list_elem_of_lookup_2.
  - intros c Hc Hl. apply list_elem_of_lookup in Hc as [i Hi].
    destruct (Forall2_lookup_l _ _ _ _ _ Hrows Hi) as (c' & Hci & Hr).
    unfold rewritten in Hr.
    rewrite decide_False in Hr by by rewrite blob_bulk_cond_spec.
    subst c'. by eapply list_elem_of_lookup_2.
  - exact Hkeep'.
Qed.

Lemma blob_Trash_run (user : User.t) idList t :
  idList ≠ "" →
  run (BlobRepository.Trash user idList) t [] =
  match BlobRepository.update_last_stmt 2
          (getPrefixedDeviceId (User.DeviceId user)) (User.Id user) idList t with
  | inl e => (Err (SqlErr e), t)
  | inr t' => (Ok tt, t')
  end.
Proof.
  intros Hne. unfold BlobRepository.Trash.
  rewrite decide_True by (destruct idList; [done|simpl; lia]).
  by rewrite ExecContext_run.
Qed.

Lemma blob_Untrash_run (user : User.t) idList t :
  idList ≠ "" →
  run (BlobRepository.Untrash user idList) t [] =
  match BlobRepository.update_last_stmt 0
          (getPrefixedDeviceId (User.DeviceId user)) (User.Id user) idList t with
  | inl e => (Err (SqlErr e), t)
  | inr t' => (Ok tt, t')
  end.
Proof.
  intros Hne. unfold BlobRepository.Untrash.
  rewrite decide_True by (destruct idList; [done|simpl; lia]).
  by rewrite ExecContext_run.
Qed.

End blob_marks.

Section blob_update.
Context `{Outside}.

Lemma blob_update_cond_spec uid uri d :
  Sql.holds (BlobRepository.update_cond uid uri d) ↔ Blob.updatable uid uri d.
Proof. unfold BlobRepository.update_cond, Blob.updatable. sql_iff. tauto. Qed.

Lemma blob_Update_outcomes now (user : User.t) (blob : Blob.t)
    (t : BlobTables.t) :
  let hits := filter (Blob.updatable (User.Id user) (Blob.Uri blob))
                (BlobTables.Blob t) in
  let device := deviceColumn (getPrefixedDeviceId (User.DeviceId user)) in
  let mark := default 0 (BlobTables.BlobHistorySeq t !! User.Id user) in
  let result := run (BlobRepository.Update now user blob) t [] in
  (result.1 = Err ErrBlobNotFound ↔ hits = []) ∧
  (hits = [] → result.2 = t) ∧
  (∀ d0 rest, hits = d0 :: rest →
     let returned :=
       Blob.Mk (Blob.Uri d0) (Blob.UserId d0) (Blob.Hash blob) (Blob.Name d0)
         (Blob.Snippet blob) (Blob.Path d0) (Blob.Size blob)
         (Blob.ContentType d0) (Blob.CreatedAt d0) (Blob.ModifiedAt d0)
         (Blob.TimelineId d0) (Blob.HistoryId d0) (Blob.LastStmt d0)
         (getPrefixedDeviceId (User.DeviceId user)) in
     let stored :=
       Blob.Mk (Blob.Uri d0) (Blob.UserId d0) (Blob.Hash blob) (Blob.Name d0)
         (Blob.Snippet blob) (Blob.Path d0) (Blob.Size blob)
         (Blob.ContentType d0) (Blob.CreatedAt d0) (Some now)
         (Blob.TimelineId d0) (mark + 1) 1 device in
     ∃ t', result = (Ok returned, t') ∧ stored ∈ BlobTables.Blob t' ∧
           BlobTables.BlobDeleted t' = BlobTables.BlobDeleted t ∧
           is_Some (BlobTables.BlobHistorySeq t' !! User.Id user)).
Proof.
  intros hits device mark result.
  pose proof (λ c, update_where_marks_seq Blob.UserId
    (BlobRepository.update_cond (User.Id user) (Blob.Uri blob))
    (Blob.set_fields (Blob.Hash blob) (Blob.Snippet blob) (Blob.Size blob) device)
    (Blob.stamp_update now) (BlobTables.Blob t)
    (BlobTables.BlobHistorySeq t) c) as Hmark.
  pose proof (update_where_stamped_length Blob.UserId
    (BlobRepository.update_cond (User.Id user) (Blob.Uri blob))
    (Blob.set_fields (Blob.Hash blob) (Blob.Snippet blob) (Blob.Size blob) device)
    (Blob.stamp_update now) (BlobTables.Blob t)
    (BlobTables.BlobHistorySeq t)) as Hlen.
  pose proof (update_where_stamped_shape Blob.UserId
    (BlobRepository.update_cond (User.Id user) (Blob.Uri blob))
    (Blob.set_fields (Blob.Hash blob) (Blob.Snippet blob) (Blob.Size blob) device)
    (Blob.stamp_update now) (BlobTables.Blob t)
    (BlobTables.BlobHistorySeq t)) as Hshape.
  pose proof (update_where_stamped_head Blob.UserId
    (BlobRepository.update_cond (User.Id user) (Blob.Uri blob))
    (Blob.set_fields (Blob.Hash blob) (Blob.Snippet blob) (Blob.Size blob) device)
    (Blob.stamp_update now) (BlobTables.Blob t)
    (BlobTables.BlobHistorySeq t)) as Hhead.
  pose proof (update_where_nomatch Blob.UserId
    (BlobRepository.update_cond (User.Id user) (Blob.Uri blob))
    (Blob.set_fields (Blob.Hash blob) (Blob.Snippet blob) (Blob.Size blob) device)
    (Blob.stamp_update now) (BlobTables.Blob t)
    (BlobTables.BlobHistorySeq t)) as Hno.
  assert (Hhits : filter (λ r, Sql.holds
              (BlobRepository.update_cond (User.Id user) (Blob.Uri blob) r))
              (BlobTables.Blob t) = hits).
  { apply list_filter_iff. intros c. apply blob_update_cond_spec. }
  rewrite Hhits in Hlen, Hhead.
  assert (Hrun : result =
    match BlobRepository.update_blob now (Blob.Hash blob) (Blob.Snippet blob)
            (Blob.Size blob)
            (getPrefixedDeviceId (User.DeviceId user)) (User.Id user)
            (Blob.Uri blob) t with
    | inl e => (Err (if is_ErrNoRows e then ErrBlobNotFound else SqlErr e), t)
    | inr (r :: _, t') => (Ok r, t')
    | inr ([], t') => (Err ErrBlobNotFound, t')
    end).
  { unfold result, BlobRepository.Update. db_run.
    destruct (BlobRepository.update_blob _ _ _ _ _ _ _ _)
      as [e|[[|r rows] t']]; reflexivity. }
  unfold BlobRepository.update_blob, returning_where, Sql.select in Hrun.
  fold device in Hrun. rewrite Hhits in Hrun.
  destruct (update_where _ _ _ _ _ _) as [[table' ret] seq'] eqn:Hupd.
  simpl in Hlen, Hshape, Hhead, Hno, Hmark.
  destruct ret as [|r ret].
  - assert (hits = @nil Blob.t) as Hnil by (by destruct hits).
    assert (Hsame : (table', @nil Blob.t, seq') = (BlobTables.Blob t, [],
                       BlobTables.BlobHistorySeq t)).
    { apply Hno. intros c Hc Hcond. apply blob_update_cond_spec in Hcond.
      assert (c ∈ hits) as Hin by (by apply list_elem_of_filter).
      rewrite Hnil in Hin. by apply elem_of_nil in Hin. }
    injection Hsame as -> ->. rewrite blob_tables_eta in Hrun.
    rewrite Hnil in Hrun. rewrite Hrun. simpl. repeat split; try done.
    intros d0 rest Heq. by rewrite Hnil in Heq.
  - destruct hits as [|d0 rest] eqn:Hh; [done|].
    destruct (Hhead d0 rest eq_refl) as [ret' Hret]. injection Hret as -> ->.
    assert (Blob.UserId d0 = User.Id user) as Hu.
    { assert (d0 ∈ d0 :: rest) as Hin by by left.
      rewrite <- Hh in Hin. unfold hits in Hin.
      apply list_elem_of_filter in Hin as [[? _] _]. done. }
    rewrite Hu in Hshape. fold mark in Hshape.
    rewrite Hrun. simpl. split; [done|]. split; [done|].
    intros d1 rest1 [= <- <-].
    eexists. split; [reflexivity|]. simpl.
    apply Forall_cons in Hshape as [[Hin (r0 & h0 & Hr0 & Hc0 & _)] _].
    split; [exact Hin|]. split; [done|].
    specialize (Hmark r0 Hr0 Hc0).
    apply blob_update_cond_spec in Hc0 as [Hu0 _]. by rewrite Hu0 in Hmark.
Qed.

End blob_update.

(** X9.  A trashed blob is not found, an untrashed one is found again:
    once Trash has run for a uri list, GetBlobByUri of a listed uri
    answers the zero-value blob without an error; after Untrash of the
    list, GetBlobByUri of a listed uri the caller holds a blob for
    answers a stored blob of the caller with that uri and lastStmt 0. *)
Theorem trashed_blob_is_not_found `{Outside} (user : User.t) (uris : string)
    (values : list string) (uri : string) (t : BlobTables.t) :
  uris ≠ "" →
  json_each uris BlobRepository.uris_path = Some values →
  uri ∈ values →
  let t1 := (run (BlobRepository.Trash user uris) t []).2 in
  let t2 := (run (BlobRepository.Untrash user uris) t1 []).2 in
  (BlobRepository.GetBlobByUri user uri (MkConn t1 [])).1 = (Blob.zero, None) ∧
  ((∃ b, b ∈ BlobTables.Blob t ∧ Blob.UserId b = User.Id user ∧
         Blob.Uri b = uri) →
   ∃ b', (BlobRepository.GetBlobByUri user uri (MkConn t2 [])).1 = (b', None) ∧
         b' ∈ BlobTables.Blob t2 ∧ Blob.UserId b' = User.Id user ∧
         Blob.Uri b' = uri ∧ Blob.LastStmt b' = 0).
Proof.
  intros Hne Hjson Hin t1 t2. subst t2 t1.
  rewrite blob_Trash_run by done.
  destruct (blob_update_last_stmt_rows 2
              (getPrefixedDeviceId (User.DeviceId user)) (User.Id user)
              uris values t Hjson)
    as (t1 & -> & _ & Hmarked & _ & Hfwd & _ & _). simpl.
  rewrite blob_Untrash_run by done.
  destruct (blob_update_last_stmt_rows 0
              (getPrefixedDeviceId (User.DeviceId user)) (User.Id user)
              uris values t1 Hjson)
    as (t2 & -> & _ & Hmarked2 & _ & Hfwd2 & _ & _). simpl.
  rewrite !blob_GetBlobByUri_answer.
  split.
  - destruct (filter _ (BlobTables.Blob t1)) as [|x rest] eqn:E; [done|].
    assert (Hx : x ∈ x :: rest) by by left.
    rewrite <- E in Hx. apply list_elem_of_filter in Hx as [(Hu & Hi & Hk) Hx].
    exfalso. destruct (Hmarked x Hx) as [Hk2 _]; [|lia].
    split; [done|]. by rewrite Hi.
  - intros (b & Hb & Hu & Hi).
    assert (Hl : Spec.listed Blob.Uri Blob.UserId (User.Id user) values b).
    { split; [done|]. by rewrite Hi. }
    destruct (Hfwd b Hb Hl) as (h & Hb1).
    destruct (Hfwd2 _ Hb1 Hl) as (h2 & Hb2).
    destruct (filter _ (BlobTables.Blob t2)) as [|x rest] eqn:E.
    + exfalso.
      assert (Hx : Blob.stamp h2 (Blob.set_last_stmt 0
                     (deviceColumn (getPrefixedDeviceId (User.DeviceId user)))
                     (Blob.stamp h (Blob.set_last_stmt 2
                        (deviceColumn (getPrefixedDeviceId (User.DeviceId user))) b)))
                   ∈ filter (Blob.findable (User.Id user) uri)
                       (BlobTables.Blob t2)).
      { apply list_elem_of_filter. split; [|exact Hb2].
        unfold Blob.findable. simpl. split; [done|]. split; [done|lia]. }
      rewrite E in Hx. by apply not_elem_of_nil in Hx.
    + exists x. split; [done|].
      assert (Hx : x ∈ x :: rest) by by left.
      rewrite <- E in Hx. apply list_elem_of_filter in Hx as [(Hxu & Hxi & Hk) Hx].
      split; [done|]. split; [done|]. split; [done|].
      apply (Hmarked2 x Hx). split; [done|]. by rewrite Hxi.
Qed.

(** X10.  Update of a blob answers [ErrBlobNotFound], changing nothing,
    when the caller holds no blob with that uri outside the trash;
    otherwise it succeeds.  The stored row then has hash, snippet and
    size as requested, the name, the path, the content type and the
    creation time as they were, modifiedAt set, lastStmt 1 and the next
    history id.  The record returned is the row as the statement wrote
    it: the same uri, owner and domain fields, the device id the
    statement was given, and modifiedAt, historyId and lastStmt as they
    were before the update. *)
Theorem blob_update_answers `{Outside} now (user : User.t) (blob : Blob.t)
    (t : BlobTables.t) :
  (filter (Blob.updatable (User.Id user) (Blob.Uri blob)) (BlobTables.Blob t)
     = [] →
   run (BlobRepository.Update now user blob) t [] = (Err ErrBlobNotFound, t)) ∧
  (∀ b0 rest,
     filter (Blob.updatable (User.Id user) (Blob.Uri blob)) (BlobTables.Blob t)
       = b0 :: rest →
     let returned :=
       Blob.Mk (Blob.Uri blob) (User.Id user) (Blob.Hash blob) (Blob.Name b0)
         (Blob.Snippet blob) (Blob.Path b0) (Blob.Size blob)
         (Blob.ContentType b0) (Blob.CreatedAt b0) (Blob.ModifiedAt b0)
         (Blob.TimelineId b0) (Blob.HistoryId b0) (Blob.LastStmt b0)
         (getPrefixedDeviceId (User.DeviceId user)) in
     let stored :=
       Blob.Mk (Blob.Uri blob) (User.Id user) (Blob.Hash blob) (Blob.Name b0)
         (Blob.Snippet blob) (Blob.Path b0) (Blob.Size blob)
         (Blob.ContentType b0) (Blob.CreatedAt b0) (Some now)
         (Blob.TimelineId b0)
         (default 0 (BlobTables.BlobHistorySeq t !! User.Id user) + 1) 1
         (deviceColumn (getPrefixedDeviceId (User.DeviceId user))) in
     ∃ t',
       run (BlobRepository.Update now user blob) t [] = (Ok returned, t') ∧
       stored ∈ BlobTables.Blob t' ∧
       BlobTables.BlobDeleted t' = BlobTables.BlobDeleted t).
Proof.
  destruct (blob_Update_outcomes now user blob t) as (Hnf & Hsame & Hok).
  split.
  - intros Hnil. apply Hnf in Hnil as Hres. specialize (Hsame Hnil).
    destruct (run (BlobRepository.Update now user blob) t []) as [r tr].
    simpl in *. by subst.
  - intros b0 rest Hhits.
    destruct (Hok b0 rest Hhits) as (t' & Hrun & Hin & Hdel & _).
    assert (Hb0 : b0 ∈ b0 :: rest) by by left.
    rewrite <- Hhits in Hb0.
    apply list_elem_of_filter in Hb0 as [(Hu & Hi & _) _].
    rewrite Hu, Hi in Hrun, Hin.
    exists t'. split; [exact Hrun|]. split; [exact Hin|]. exact Hdel.
Qed.

(** X11.  A created blob is found: without storage faults Create of a
    blob succeeds and appends a live row of the caller with the requested
    hash, name, snippet, path, content type and size, and the next history
    id.  The record returned is the row as the INSERT wrote it, with the
    column defaults for timeline and history id and the device id the
    statement was given.  When the uri the table gives the blob is not yet
    held by the caller, GetBlobByUri of the returned uri answers the
    stored row, and List answers with the stored row at the end of the
    caller's blobs and its history id as the high-water-mark. *)
Theorem created_blob_is_found `{Outside} d (user : User.t) (blob : Blob.t)
    (t : BlobTables.t) :
  (∀ b, b ∈ BlobTables.Blob t → Blob.UserId b = User.Id user →
        Blob.Uri b ≠ Defaults.Id d) →
  let returned :=
    Blob.Mk (Defaults.Id d) (User.Id user) (Blob.Hash blob) (Blob.Name blob)
      (Blob.Snippet blob) (Blob.Path blob) (Blob.Size blob)
      (Blob.ContentType blob) (Defaults.Now d) None
      (Defaults.DefaultTimelineId d) (Defaults.DefaultHistoryId d) 0
      (getPrefixedDeviceId (User.DeviceId user)) in
  let stored :=
    Blob.Mk (Defaults.Id d) (User.Id user) (Blob.Hash blob) (Blob.Name blob)
      (Blob.Snippet blob) (Blob.Path blob) (Blob.Size blob)
      (Blob.ContentType blob) (Defaults.Now d) None (Defaults.TimelineId d)
      (default 0 (BlobTables.BlobHistorySeq t !! User.Id user) + 1) 0
      (deviceColumn (getPrefixedDeviceId (User.DeviceId user))) in
  ∃ t',
    run (BlobRepository.Create d user blob) t [] = (Ok returned, t') ∧
    BlobTables.Blob t' = BlobTables.Blob t ++ [stored] ∧
    BlobTables.BlobDeleted t' = BlobTables.BlobDeleted t ∧
    (BlobRepository.GetBlobByUri user (Blob.Uri returned) (MkConn t' [])).1
      = (stored, None) ∧
    run (BlobRepository.List user) t' [] =
      (Ok (BlobList.Mk (Blob.HistoryId stored)
             (filter (Spec.live Blob.UserId Blob.LastStmt user)
                (BlobTables.Blob t) ++ [stored])), t').
Proof.
  intros Hfresh returned stored.
  set (h := default 0 (BlobTables.BlobHistorySeq t !! User.Id user) + 1).
  set (t' := BlobTables.Mk (BlobTables.Blob t ++ [stored])
               (BlobTables.BlobDeleted t)
               (<[User.Id user := h]> (BlobTables.BlobHistorySeq t))).
  assert (Hrun : run (BlobRepository.Create d user blob) t [] =
                   (Ok returned, t')).
  { unfold BlobRepository.Create, BlobRepository.insert_blob, next_history.
    db_run. reflexivity. }
  exists t'. split; [exact Hrun|]. simpl.
  do 2 (split; [reflexivity|]).
  split.
  - rewrite blob_GetBlobByUri_answer. simpl.
    rewrite filter_app.
    match goal with
    | |- context [filter ?P (BlobTables.Blob t)] =>
      assert (filter P (BlobTables.Blob t) = []) as ->
    end.
    { match goal with |- ?fl = [] => destruct fl as [|x rest] eqn:E end; [done|].
      assert (Hx : x ∈ x :: rest) by by left.
      rewrite <- E in Hx. apply list_elem_of_filter in Hx as [(Hu & Hi & _) Hx].
      exfalso. by apply (Hfresh x Hx). }
    rewrite filter_cons, filter_nil, decide_True; [done|].
    unfold Blob.findable. simpl. split; [done|]. split; [done|lia].
  - rewrite blob_List_quiet. simpl. rewrite lookup_insert_eq.
    do 2 f_equal. f_equal.
    rewrite (select_filter _ (Spec.live Blob.UserId Blob.LastStmt user))
      by apply blob_list_where_spec.
    rewrite filter_app, filter_cons, filter_nil, decide_True; [done|].
    unfold Spec.live. simpl. split; [done|lia].
Qed.

(** ** The router *)

Lemma prefix_both (p q s : string) :
  String.prefix p s = true → String.prefix q s = true →
  String.prefix p q = true ∨ String.prefix q p = true.
Proof.
  revert q s. induction p as [|a p IH]; intros q s.
  { left. by destruct q. }
  destruct q as [|b q].
  { right. done. }
  destruct s as [|c s]; [done|]. simpl.
  destruct (Ascii.ascii_dec a c) as [->|]; [|done].
  destruct (Ascii.ascii_dec b c) as [->|]; [|done].
  destruct (Ascii.ascii_dec c c) as [_|]; [|done].
  apply IH.
Qed.

Lemma Match_spec {H} (e : Entry.t H) (r : Request.t) :
  Entry.Match e r =
  String.eqb (Request.Method r) (Entry.Method e) &&
  (String.eqb (Request.Path r) (Entry.Path e) ||
   Entry.subtree e && String.prefix (Entry.Path e) (Request.Path r)).
Proof.
  unfold Entry.Match, Entry.subtree.
  destruct (String.eqb (Request.Method r) (Entry.Method e)); simpl; [|done].
  destruct (String.eqb (Request.Path r) (Entry.Path e)); simpl; [done|].
  by destruct (_ && _ && _ && _).
Qed.

Lemma Match_overlap {H} (e1 e2 : Entry.t H) (r : Request.t) :
  Entry.Match e1 r = true → Entry.Match e2 r = true →
  Entry.overlap e1 e2 = true.
Proof.
  rewrite !Match_spec. unfold Entry.overlap.
  intros [Hm1 Hp1]%andb_true_iff [Hm2 Hp2]%andb_true_iff.
  apply String.eqb_eq in Hm1, Hm2.
  apply andb_true_iff. split.
  { apply String.eqb_eq. congruence. }
  apply orb_true_iff in Hp1 as [Hp1|[Hs1 Hp1]%andb_true_iff];
    apply orb_true_iff in Hp2 as [Hp2|[Hs2 Hp2]%andb_true_iff];
    rewrite ?String.eqb_eq in *.
  - apply orb_true_iff. left. apply orb_true_iff. left.
    apply String.eqb_eq. congruence.
  - rewrite Hp1 in Hp2. rewrite Hs2, Hp2. simpl. apply orb_true_r.
  - rewrite Hp2 in Hp1. rewrite Hs1, Hp1. simpl.
    apply orb_true_iff. left. apply orb_true_r.
  - rewrite Hs1, Hs2. simpl.
    destruct (prefix_both _ _ _ Hp1 Hp2) as [-> | ->]; simpl.
    + apply orb_true_iff. left. apply orb_true_r.
    + apply orb_true_r.
Qed.

Lemma serve_filter {H} (entries : list (Entry.t H)) (r : Request.t) :
  Router.serve entries r =
  Entry.Handler <$> head (filter (λ e, Entry.Match e r = true) entries).
Proof.
  induction entries as [|e entries IH]; [done|]. simpl.
  rewrite filter_cons.
  destruct (Entry.Match e r) eqn:E.
  - by rewrite decide_True.
  - by rewrite decide_False.
Qed.

Lemma no_overlap_filter {H} (entries : list (Entry.t H)) (r : Request.t) :
  Router.no_overlap entries = true →
  (length (filter (λ e, Entry.Match e r = true) entries) ≤ 1)%nat.
Proof.
  induction entries as [|e entries IH]; [simpl; lia|].
  simpl. intros [Hall Hrest]%andb_true_iff. specialize (IH Hrest).
  rewrite filter_cons. destruct (decide (Entry.Match e r = true)) as [He|He];
    [|done].
  assert (Hnone : filter (λ e, Entry.Match e r = true) entries = []).
  { destruct (filter _ entries) as [|x rest] eqn:E; [done|].
    assert (Hx : x ∈ x :: rest) by by left.
    rewrite <- E in Hx. apply list_elem_of_filter in Hx as [Hm Hx].
    rewrite forallb_forall in Hall.
    apply list_elem_of_In, Hall in Hx.
    rewrite (Match_overlap e x r He Hm) in Hx. done. }
  rewrite Hnone. simpl. lia.
Qed.

Lemma no_overlap_serve {H} (entries : list (Entry.t H)) (r : Request.t) e :
  Router.no_overlap entries = true →
  e ∈ entries → Entry.Match e r = true →
  Router.serve entries r = Some (Entry.Handler e).
Proof.
  intros Hno Hin Hm. rewrite serve_filter.
  pose proof (no_overlap_filter entries r Hno) as Hlen.
  assert (He : e ∈ filter (λ e, Entry.Match e r = true) entries)
    by by apply list_elem_of_filter.
  destruct (filter _ entries) as [|x [|y rest]]; simpl in *.
  - by apply not_elem_of_nil in He.
  - apply list_elem_of_singleton in He. by subst.
  - lia.
Qed.

Lemma serve_Some {H} (entries : list (Entry.t H)) (r : Request.t) h :
  Router.serve entries r = Some h →
  ∃ e, e ∈ entries ∧ Entry.Match e r = true ∧ Entry.Handler e = h.
Proof.
  induction entries as [|e entries IH]; [done|]. simpl.
  destruct (Entry.Match e r) eqn:E.
  - intros [= <-]. exists e. split; [by left|done].
  - intros (e' & ? & ?)%IH. exists e'. split; [by right|done].
Qed.

Lemma service_routes_no_overlap :
  Router.no_overlap (Router.routes (Service.routes Router.NewRouter)) = true.
Proof. vm_compute. reflexivity. Qed.

(** X12.  The service's route table is unambiguous: no request matches
    two of its entries.  So the order of registration does not matter:
    a router holding the same entries in any other order serves every
    request with the same handler, or answers not found for the same
    requests. *)
Theorem dispatch_is_unambiguous (r : Request.t) :
  (length (filter (λ e, Entry.Match e r = true)
             (Router.routes (Service.routes Router.NewRouter))) ≤ 1)%nat ∧
  ∀ t' : Router.t Service.handler,
    Router.routes t' ≡ₚ Router.routes (Service.routes Router.NewRouter) →
    Router.ServeHTTP t' r =
    Router.ServeHTTP (Service.routes Router.NewRouter) r.
Proof.
  pose proof (no_overlap_filter _ r service_routes_no_overlap) as Hlen.
  split; [exact Hlen|].
  intros t' Hperm. unfold Router.ServeHTTP. rewrite !serve_filter.
  assert (Hf : filter (λ e, Entry.Match e r = true) (Router.routes t') ≡ₚ
               filter (λ e, Entry.Match e r = true)
                 (Router.routes (Service.routes Router.NewRouter)))
    by by rewrite Hperm.
  destruct (filter _ (Router.routes (Service.routes Router.NewRouter)))
    as [|x [|y rest]].
  - apply Permutation_nil_r in Hf. by rewrite Hf.
  - apply Permutation_singleton_r in Hf. by rewrite Hf.
  - simpl in Hlen. lia.
Qed.


Lemma prefix_refl (p : string) : String.prefix p p = true.
Proof.
  induction p as [|a p IH]; [done|]. simpl.
  by destruct (Ascii.ascii_dec a a).
Qed.

(** Membership in the service's table, entry by entry. *)
Ltac in_routes H :=
  apply list_elem_of_In in H; vm_compute in H;
  repeat match type of H with
         | _ ∨ _ => destruct H as [H|H]
         | False => destruct H
         end.

Ltac is_route :=
  apply list_elem_of_In; vm_compute; tauto.

(** X13.  Downloads are the only routes that serve a subtree.  A request
    is handed to the download handler of the files API exactly when its
    method is GET or HEAD and its path starts with [/api/v1/files/], and
    likewise for the bodies API; every other handler is reached only by
    the exact method and path it was registered with, the home page only
    by [GET /]. *)
Theorem downloads_serve_their_subtree (r : Request.t) :
  (Router.ServeHTTP (Service.routes Router.NewRouter) r =
     Some (Service.api_Authenticate Service.Files_Download) ↔
   (Request.Method r = "GET" ∨ Request.Method r = "HEAD") ∧
   String.prefix "/api/v1/files/" (Request.Path r) = true) ∧
  (Router.ServeHTTP (Service.routes Router.NewRouter) r =
     Some (Service.api_Authenticate Service.Bodies_Download) ↔
   (Request.Method r = "GET" ∨ Request.Method r = "HEAD") ∧
   String.prefix "/api/v1/bodies/" (Request.Path r) = true) ∧
  (Router.ServeHTTP (Service.routes Router.NewRouter) r =
     Some (Service.app_Authenticate Service.app_HomePage) ↔
   Request.Method r = "GET" ∧ Request.Path r = "/") ∧
  (∀ h, Router.ServeHTTP (Service.routes Router.NewRouter) r = Some h →
        h ≠ Service.api_Authenticate Service.Files_Download →
        h ≠ Service.api_Authenticate Service.Bodies_Download →
        ∃ e, e ∈ Router.routes (Service.routes Router.NewRouter) ∧
             Entry.Handler e = h ∧
             Request.Method r = Entry.Method e ∧
             Request.Path r = Entry.Path e).
Proof.
  unfold Router.ServeHTTP.
  split; [|split; [|split]].
  - split.
    + intros (e & Hin & Hm & Hh)%serve_Some.
      rewrite Match_spec in Hm.
      in_routes Hin; subst e; try discriminate Hh;
        apply andb_true_iff in Hm as [Hmeth Hpath];
        apply String.eqb_eq in Hmeth; simpl in Hmeth;
        (split; [by auto|]);
        apply orb_true_iff in Hpath as [Hp|Hp].
      all: try (apply String.eqb_eq in Hp; simpl in Hp; rewrite Hp; reflexivity).
      all: apply andb_true_iff in Hp as [_ Hp]; exact Hp.
    + intros [[Hm|Hm] Hp].
      * apply (no_overlap_serve _ r
          (Entry.Mk "GET" "/api/v1/files/"
             (Service.api_Authenticate Service.Files_Download)));
          [apply service_routes_no_overlap | is_route |].
        rewrite Match_spec. simpl. rewrite Hm, Hp. apply orb_true_r.
      * apply (no_overlap_serve _ r
          (Entry.Mk "HEAD" "/api/v1/files/"
             (Service.api_Authenticate Service.Files_Download)));
          [apply service_routes_no_overlap | is_route |].
        rewrite Match_spec. simpl. rewrite Hm, Hp. apply orb_true_r.
  - split.
    + intros (e & Hin & Hm & Hh)%serve_Some.
      rewrite Match_spec in Hm.
      in_routes Hin; subst e; try discriminate Hh;
        apply andb_true_iff in Hm as [Hmeth Hpath];
        apply String.eqb_eq in Hmeth; simpl in Hmeth;
        (split; [by auto|]);
        apply orb_true_iff in Hpath as [Hp|Hp].
      all: try (apply String.eqb_eq in Hp; simpl in Hp; rewrite Hp; reflexivity).
      all: apply andb_true_iff in Hp as [_ Hp]; exact Hp.
    + intros [[Hm|Hm] Hp].
      * apply (no_overlap_serve _ r
          (Entry.Mk "GET" "/api/v1/bodies/"
             (Service.api_Authenticate Service.Bodies_Download)));
          [apply service_routes_no_overlap | is_route |].
        rewrite Match_spec. simpl. rewrite Hm, Hp. apply orb_true_r.
      * apply (no_overlap_serve _ r
          (Entry.Mk "HEAD" "/api/v1/bodies/"
             (Service.api_Authenticate Service.Bodies_Download)));
          [apply service_routes_no_overlap | is_route |].
        rewrite Match_spec. simpl. rewrite Hm, Hp. apply orb_true_r.
  - split.
    + intros (e & Hin & Hm & Hh)%serve_Some.
      rewrite Match_spec in Hm.
      in_routes Hin; subst e; try discriminate Hh.
      apply andb_true_iff in Hm as [Hmeth Hpath].
      apply String.eqb_eq in Hmeth. simpl in Hmeth.
      split; [done|].
      apply orb_true_iff in Hpath as [Hp|Hp].
      * by apply String.eqb_eq in Hp.
      * discriminate Hp.
    + intros [Hm Hp].
      apply (no_overlap_serve _ r
          (Entry.Mk "GET" "/" (Service.app_Authenticate Service.app_HomePage)));
        [apply service_routes_no_overlap | is_route |].
      rewrite Match_spec. simpl. rewrite Hm, Hp. reflexivity.
  - intros h (e & Hin & Hm & Hh)%serve_Some Hf Hb.
    exists e. split; [exact Hin|]. split; [exact Hh|].
    rewrite Match_spec in Hm.
    apply andb_true_iff in Hm as [Hmeth Hpath].
    apply String.eqb_eq in Hmeth. split; [exact Hmeth|].
    apply orb_true_iff in Hpath as [Hp|Hp]; [by apply String.eqb_eq in Hp|].
    exfalso. apply andb_true_iff in Hp as [Hs _].
    in_routes Hin; subst e; try discriminate Hs; simpl in Hh; congruence.
Qed.


(** ** The profile handler behind the router *)

(** X14.  The router never asks the profile handler to update a profile.
    A request the table hands to the profile handler has the path
    [/api/v1/user/profile] and the method PATCH or GET, while the handler
    updates only on PUT: with the method the router saw, what the handler
    answers does not depend on the decoder nor on [UpdateProfile], and
    for PATCH, the route registered for changes, it writes no response and
    leaves the repository's store as it is. *)
Theorem profile_update_is_unreachable (r : Request.t)
    {User profile Body Store E : Type}
    (ErrMissingUserContext : E) (is_ErrUsernameNotFound : E → bool)
    (Username : User → string)
    (GetProfile : string → Store → (E + profile) * Store) :
  Router.ServeHTTP (Service.routes Router.NewRouter) r =
    Some (Service.api_Authenticate Service.User_Profile) →
  Request.Path r = "/api/v1/user/profile" ∧
  (Request.Method r = "PATCH" ∨ Request.Method r = "GET") ∧
  (∀ (Decode Decode' : Body → User → string + User)
     (UpdateProfile UpdateProfile' : User → Store → (E + profile) * Store)
     ctxUser body s,
     UserApi.Profile ErrMissingUserContext is_ErrUsernameNotFound Username
       Decode UpdateProfile GetProfile ctxUser (Request.Method r) body s =
     UserApi.Profile ErrMissingUserContext is_ErrUsernameNotFound Username
       Decode' UpdateProfile' GetProfile ctxUser (Request.Method r) body s) ∧
  (Request.Method r = "PATCH" →
   ∀ (Decode : Body → User → string + User)
     (UpdateProfile : User → Store → (E + profile) * Store) user body s,
     UserApi.Profile ErrMissingUserContext is_ErrUsernameNotFound Username
       Decode UpdateProfile GetProfile (Some user) (Request.Method r) body s =
     (None, s)).
Proof.
  unfold Router.ServeHTTP.
  intros (e & Hin & Hm & Hh)%serve_Some.
  rewrite Match_spec in Hm.
  apply andb_true_iff in Hm as [Hmeth Hpath].
  apply String.eqb_eq in Hmeth.
  assert (Hfacts : Entry.Path e = "/api/v1/user/profile" ∧
                   Entry.subtree e = false ∧
                   (Entry.Method e = "PATCH" ∨ Entry.Method e = "GET")).
  { in_routes Hin; subst e; try discriminate Hh; simpl; auto. }
  destruct Hfacts as (Hp & Hs & Hmethods).
  rewrite Hs in Hpath. simpl in Hpath. rewrite orb_false_r in Hpath.
  apply String.eqb_eq in Hpath.
  rewrite Hmeth.
  split; [congruence|]. split; [exact Hmethods|]. split.
  - intros. unfold UserApi.Profile.
    destruct Hmethods as [-> | ->]; reflexivity.
  - intros Hpatch. intros. rewrite Hpatch. reflexivity.
Qed.

(** ** The drafts reducer *)

Section reducer_facts.
Context {V : Type} `{EqDecision V} (undefined : V).

(** Merging a payload into a draft with the same id keeps the id. *)
Lemma spread_keeps_id (draft payload : gmap string V) :
  DraftsContext.prop undefined draft "id" =
    DraftsContext.prop undefined payload "id" →
  DraftsContext.prop undefined (DraftsContext.spread draft payload) "id" =
    DraftsContext.prop undefined draft "id".
Proof.
  unfold DraftsContext.prop, DraftsContext.spread.
  destruct (payload !! "id") as [v|] eqn:E; intros Hid.
  - rewrite (lookup_union_Some_l _ _ _ v E). simpl. by rewrite Hid.
  - by rewrite lookup_union_r.
Qed.

Lemma spread_twice (draft payload : gmap string V) :
  DraftsContext.spread (DraftsContext.spread draft payload) payload =
  DraftsContext.spread draft payload.
Proof.
  unfold DraftsContext.spread.
  by rewrite (assoc_L (∪)), (idemp_L (∪)).
Qed.

End reducer_facts.

(** X15.  [UPDATE_DRAFT_EDIT] merges the payload into the drafts being
    edited that carry its id and touches nothing else: the saved drafts
    are as they were; the drafts being edited keep their number, their
    order and their ids; a draft with another id is unchanged; a draft
    with the payload's id takes every property of the payload and keeps
    its other properties; and dispatching the same action again changes
    nothing more. *)
Theorem update_draft_edit_merges {V : Type} `{EqDecision V} (undefined : V)
    (s : DraftsContext.state) (payload : gmap string V) :
  let s' := DraftsContext.reducer undefined s
              (DraftsContext.updateDraftEdit payload) in
  DraftsContext.drafts s' = DraftsContext.drafts s ∧
  (λ d, DraftsContext.prop undefined d "id") <$> DraftsContext.editing s' =
    (λ d, DraftsContext.prop undefined d "id") <$> DraftsContext.editing s ∧
  (∀ i d, DraftsContext.editing s !! i = Some d →
     DraftsContext.prop undefined d "id" ≠
       DraftsContext.prop undefined payload "id" →
     DraftsContext.editing s' !! i = Some d) ∧
  (∀ i d, DraftsContext.editing s !! i = Some d →
     DraftsContext.prop undefined d "id" =
       DraftsContext.prop undefined payload "id" →
     ∃ d', DraftsContext.editing s' !! i = Some d' ∧
       (∀ k v, payload !! k = Some v → d' !! k = Some v) ∧
       (∀ k, payload !! k = None → d' !! k = d !! k)) ∧
  DraftsContext.reducer undefined s' (DraftsContext.updateDraftEdit payload) = s'.
Proof.
  intros s'. subst s'. simpl.
  split; [done|]. split; [|split; [|split]].
  - rewrite <- list_fmap_compose. apply list_fmap_ext.
    intros i d _. simpl. destruct (decide _) as [Hid|Hid]; [|done].
    by apply spread_keeps_id.
  - intros i d Hi Hid. rewrite list_lookup_fmap, Hi. simpl.
    by rewrite decide_False.
  - intros i d Hi Hid. rewrite list_lookup_fmap, Hi. simpl.
    rewrite decide_True by done.
    eexists. split; [reflexivity|]. unfold DraftsContext.spread. split.
    + intros k v Hk. by apply lookup_union_Some_l.
    + intros k Hk. by apply lookup_union_r.
  - f_equal. rewrite <- list_fmap_compose. apply list_fmap_ext.
    intros i d _. simpl.
    destruct (decide (DraftsContext.prop undefined d "id" = _)) as [Hid|Hid].
    + rewrite decide_True by (by rewrite spread_keeps_id).
      apply spread_twice.
    + by rewrite decide_False.
Qed.

(** X16.  [DELETE_DRAFT] removes every saved draft with the given id and
    nothing else, and undoes [CREATE_DRAFT]: deleting the id of a draft
    just created gives back the state before the creation, provided no
    saved draft carried that id already.  [CLOSE_DRAFT_EDIT] does the
    same for [NEW_DRAFT_EDIT] on the drafts being edited. *)
Theorem delete_undoes_create {V : Type} `{EqDecision V} (undefined : V)
    (s : DraftsContext.state) (d : gmap string V) :
  let id := DraftsContext.prop undefined d "id" in
  DraftsContext.reducer undefined
    (DraftsContext.reducer undefined s (DraftsContext.createDraft d))
    (DraftsContext.deleteDraft id) =
  DraftsContext.State
    (filter (λ x, DraftsContext.prop undefined x "id" ≠ id)
       (DraftsContext.drafts s))
    (DraftsContext.editing s) ∧
  DraftsContext.reducer undefined
    (DraftsContext.reducer undefined s (DraftsContext.newDraftEdit d))
    (DraftsContext.closeDraftEdit id) =
  DraftsContext.State
    (DraftsContext.drafts s)
    (filter (λ x, DraftsContext.prop undefined x "id" ≠ id)
       (DraftsContext.editing s)) ∧
  ((∀ x, x ∈ DraftsContext.drafts s →
         DraftsContext.prop undefined x "id" ≠ id) →
   DraftsContext.reducer undefined
     (DraftsContext.reducer undefined s (DraftsContext.createDraft d))
     (DraftsContext.deleteDraft id) = s) ∧
  ((∀ x, x ∈ DraftsContext.editing s →
         DraftsContext.prop undefined x "id" ≠ id) →
   DraftsContext.reducer undefined
     (DraftsContext.reducer undefined s (DraftsContext.newDraftEdit d))
     (DraftsContext.closeDraftEdit id) = s).
Proof.
  intros id. simpl.
  assert (Hd : ∀ l : list (gmap string V),
            filter (λ x, DraftsContext.prop undefined x "id" ≠ id) (l ++ [d]) =
            filter (λ x, DraftsContext.prop undefined x "id" ≠ id) l).
  { intros l. rewrite filter_app, filter_cons, filter_nil.
    rewrite decide_False by (intros Hne; by apply Hne).
    by rewrite app_nil_r. }
  rewrite !Hd. split; [done|]. split; [done|]. split.
  - intros Hfresh. rewrite filter_all_in by done. by destruct s.
  - intros Hfresh. rewrite filter_all_in by done. by destruct s.
Qed.

(** ** Threads of the mailbox page *)

Section thread_facts.
Context {Body Time : Type}.
Implicit Types (m : @Threads.Map Body Time) (x : @Threads.message Body Time).

Lemma get_None k m : Threads.get k m = None ↔ k ∉ m.*1.
Proof.
  unfold Threads.get. induction m as [|[k' th] m IH]; simpl.
  { split; [intros _; apply not_elem_of_nil|done]. }
  case_bool_decide as Hk; simpl in *.
  - subst k'. split; [done|]. intros Hn. exfalso. apply Hn. by left.
  - rewrite IH. rewrite not_elem_of_cons. split; [|tauto].
    intros Hn. split; [congruence|done].
Qed.

Lemma push_keys k x m : (Threads.push k x m).*1 = m.*1.
Proof.
  induction m as [|[k' th] m IH]; [done|]. simpl.
  destruct (decide (k' = k)); [done|].
  rewrite !fmap_cons. by rewrite IH.
Qed.

Lemma elem_of_push k x m k' th' :
  NoDup m.*1 →
  (k', th') ∈ Threads.push k x m →
  (k' ≠ k ∧ (k', th') ∈ m) ∨
  (k' = k ∧ ∃ th, (k, th) ∈ m ∧
     th' = Threads.Thread (Threads.threadId th) (Threads.t_payload th)
             (Threads.createdAt th) (Threads.messages th ++ [x])).
Proof.
  induction m as [|[k0 th0] m IH]; simpl; intros Hnd Hin.
  { by apply elem_of_nil in Hin. }
  apply NoDup_cons in Hnd as [Hk0 Hnd].
  destruct (decide (k0 = k)) as [->|Hne].
  - apply elem_of_cons in Hin as [[= -> ->]|Hin].
    + right. split; [done|]. exists th0. split; [by left|done].
    + left. split; [|by right]. intros ->. apply Hk0.
      apply list_elem_of_fmap. by exists (k, th').
  - apply elem_of_cons in Hin as [[= -> ->]|Hin].
    + left. split; [done|by left].
    + destruct (IH Hnd Hin) as [[? ?]|[-> (th & ? & ->)]].
      * left. split; [done|by right].
      * right. split; [done|]. exists th. split; [by right|done].
Qed.

Lemma grouped_add seen m x :
  Threads.grouped seen m → Threads.grouped (seen ++ [x]) (Threads.add m x).
Proof.
  intros (Hnd & Hall & Hth). unfold Threads.grouped, Threads.add.
  destruct (Threads.get (Threads.thread_of x) m) as [th0|] eqn:Hget.
  - assert (Hk : Threads.thread_of x ∈ m.*1).
    { destruct (decide (Threads.thread_of x ∈ m.*1)) as [|Hn]; [done|].
      apply get_None in Hn. congruence. }
    split; [by rewrite push_keys|]. split.
    + intros y [Hy|Hy%list_elem_of_singleton]%elem_of_app; rewrite push_keys.
      * by apply Hall.
      * by subst y.
    + intros k th' Hin.
      destruct (elem_of_push _ _ _ _ _ Hnd Hin)
        as [[Hne Hold]|[-> (th & Hold & ->)]].
      * destruct (Hth k th' Hold) as (Hid & Hmsgs & Hhead).
        split; [done|]. split; [|done].
        rewrite filter_app, filter_cons, filter_nil.
        rewrite decide_False by done. by rewrite app_nil_r.
      * destruct (Hth _ th Hold) as (Hid & Hmsgs & x0 & rest & Hm0 & Hp & Hc).
        simpl. split; [done|]. split.
        -- rewrite filter_app, filter_cons, filter_nil.
           rewrite decide_True by done. by rewrite Hmsgs.
        -- exists x0, (rest ++ [x]). rewrite Hm0. done.
  - apply get_None in Hget.
    split; [|split].
    + rewrite fmap_app. simpl. apply NoDup_app. split; [done|]. split.
      * intros k Hk Hk'%list_elem_of_singleton. by subst k.
      * apply NoDup_singleton.
    + intros y [Hy|Hy%list_elem_of_singleton]%elem_of_app;
        rewrite fmap_app; apply elem_of_app.
      * left. by apply Hall.
      * right. subst y. simpl. by left.
    + intros k th' [Hin|Hin%list_elem_of_singleton]%elem_of_app.
      * destruct (Hth k th' Hin) as (Hid & Hmsgs & Hhead).
        split; [done|]. split; [|done].
        rewrite filter_app, filter_cons, filter_nil.
        rewrite decide_False; [by rewrite app_nil_r|].
        intros Heq. apply Hget. rewrite Heq.
        apply list_elem_of_fmap. by exists (k, th').
      * injection Hin as -> ->. simpl. split; [done|]. split.
        -- rewrite filter_app, filter_cons, filter_nil.
           rewrite decide_True by done.
           assert (filter (λ y, Threads.thread_of y = Threads.thread_of x) seen
                   = []) as ->; [|done].
           destruct (filter _ seen) as [|y rest] eqn:E; [done|].
           assert (Hy : y ∈ y :: rest) by by left.
           rewrite <- E in Hy. apply list_elem_of_filter in Hy as [Heq Hy].
           exfalso. apply Hget. rewrite <- Heq. by apply Hall.
        -- exists x, []. split; [done|]. split; [done|].
           by destruct (Threads.modifiedAt x).
Qed.

Lemma grouped_foldl (all : list (@Threads.message Body Time)) :
  Threads.grouped all (foldl Threads.add [] all).
Proof.
  induction all as [|x all IH] using rev_ind.
  - split; [constructor|]. split.
    + intros x Hx. by apply elem_of_nil in Hx.
    + intros k th Hin. by apply elem_of_nil in Hin.
  - rewrite foldl_app. simpl. by apply grouped_add.
Qed.

End thread_facts.

(** X17.  [getThreads] returns whole threads.  The threads it returns
    have distinct thread ids; each holds, in their order of arrival, all
    the messages that carry its thread id, those of other folders
    included, at least one of them in the requested folder, and takes its
    payload and its date from the first of them (the modification date if
    there is one, else the creation date); and every message of the
    requested folder is in one of the returned threads. *)
Theorem getThreads_returns_whole_threads {Body Time : Type}
    (all : list (@Threads.message Body Time)) (folder_ : option Z) :
  let threads := Threads.getThreads all folder_ in
  NoDup (Threads.threadId <$> threads) ∧
  (∀ th, th ∈ threads →
     Threads.messages th =
       filter (λ x, Threads.thread_of x = Threads.threadId th) all ∧
     (∃ x, x ∈ Threads.messages th ∧ Threads.folder x = default 0 folder_) ∧
     ∃ x0 rest, Threads.messages th = x0 :: rest ∧
       Threads.t_payload th = Threads.m_payload x0 ∧
       Threads.createdAt th =
         default (Threads.m_createdAt x0) (Threads.modifiedAt x0)) ∧
  (∀ x, x ∈ all → Threads.folder x = default 0 folder_ →
     ∃ th, th ∈ threads ∧ Threads.threadId th = Threads.thread_of x ∧
           x ∈ Threads.messages th).
Proof.
  intros threads. subst threads. unfold Threads.getThreads.
  destruct (grouped_foldl all) as (Hnd & Hall & Hth).
  set (m := foldl Threads.add [] all) in *.
  assert (Hids : Threads.threadId <$> m.*2 = m.*1).
  { rewrite <- list_fmap_compose. apply list_fmap_ext.
    intros i [k th] Hi. simpl.
    apply list_elem_of_lookup_2 in Hi. by destruct (Hth k th Hi). }
  assert (Hin2 : ∀ th, th ∈ m.*2 → (Threads.threadId th, th) ∈ m).
  { intros th ([k th'] & -> & Hin)%list_elem_of_fmap. simpl.
    by destruct (Hth k th' Hin) as [-> _]. }
  split; [|split].
  - eapply NoDup_fmap_2_strong.
    + intros th1 th2 [_ H1]%list_elem_of_filter [_ H2]%list_elem_of_filter Heq.
      apply Hin2 in H1, H2. rewrite Heq in H1.
      apply list_elem_of_lookup in H1 as [i Hi], H2 as [j Hj].
      assert (i = j).
      { eapply NoDup_lookup; [exact Hnd| |].
        - rewrite list_lookup_fmap, Hi. reflexivity.
        - rewrite list_lookup_fmap, Hj. reflexivity. }
      subst j. congruence.
    + apply NoDup_filter. 
      apply (NoDup_fmap_1 Threads.threadId). by rewrite Hids.
  - intros th [Hlen Hin]%list_elem_of_filter.
    destruct (Hth _ th (Hin2 th Hin)) as (_ & Hmsgs & Hhead).
    split; [done|]. split; [|done].
    destruct (filter _ (Threads.messages th)) as [|x rest] eqn:E;
      [simpl in Hlen; lia|].
    assert (Hx : x ∈ x :: rest) by by left.
    rewrite <- E in Hx. apply list_elem_of_filter in Hx as [Hf Hx].
    by exists x.
  - intros x Hx Hf.
    specialize (Hall x Hx).
    apply list_elem_of_fmap in Hall as ([k th] & Hk & Hin). simpl in Hk.
    subst k. destruct (Hth _ th Hin) as (Hid & Hmsgs & _).
    assert (Hxm : x ∈ Threads.messages th).
    { rewrite Hmsgs. by apply list_elem_of_filter. }
    exists th. split; [|done].
    apply list_elem_of_filter. split.
    + assert (Hxf : x ∈ filter (λ y, Threads.folder y = default 0 folder_)
                        (Threads.messages th))
        by by apply list_elem_of_filter.
      destruct (filter _ (Threads.messages th)); [by apply elem_of_nil in Hxf|].
      simpl. lia.
    + apply list_elem_of_fmap. by exists (Threads.thread_of x, th).
Qed.

(** ** Quoting the sender *)

(** Membership in a list that is written out. *)
Ltac in_literal H :=
  apply list_elem_of_In in H; simpl in H;
  repeat match type of H with
         | _ ∨ _ => destruct H as [H|H]
         | False => destruct H
         end.

Lemma elem_of_replace (c : N) (by_ s : Reply.jsstring) (u : N) :
  u ∈ Reply.replace c by_ s → (u ∈ s ∧ u ≠ c) ∨ (c ∈ s ∧ u ∈ by_).
Proof.
  induction s as [|a s IH]; simpl; [by intros ?%elem_of_nil|].
  destruct (decide (a = c)) as [->|Hne].
  - intros [Hu|Hu]%elem_of_app.
    + right. split; [by left|done].
    + destruct (IH Hu) as [[? ?]|[? ?]].
      * left. split; [by right|done].
      * right. split; [by right|done].
  - intros [->|Hu]%elem_of_cons.
    + left. split; [by left|done].
    + destruct (IH Hu) as [[? ?]|[? ?]].
      * left. split; [by right|done].
      * right. split; [by right|done].
Qed.

Lemma replace_absent (c : N) (by_ s : Reply.jsstring) :
  c ∉ s → Reply.replace c by_ s = s.
Proof.
  induction s as [|a s IH]; [done|]. simpl.
  intros [Hne Hs]%not_elem_of_cons.
  rewrite decide_False by done. by rewrite IH.
Qed.

(** X18.  The quoted sender of a reply holds no angle bracket: whatever
    the sender of the replied message is, the text put into the quoted
    header contains neither [<] nor [>]; a sender without them is quoted
    as it is.  The ampersand is not quoted, so the quoting cannot be
    undone: a sender that spells [&lt;] and the sender [<] are quoted
    alike. *)
Theorem quoted_sender_has_no_angle_brackets (from : Reply.jsstring) :
  (Reply.lt ∉ Reply.sender from) ∧
  (Reply.gt ∉ Reply.sender from) ∧
  ((Reply.lt ∉ from) → (Reply.gt ∉ from) → Reply.sender from = from) ∧
  Reply.sender Reply.lt_entity = Reply.sender [Reply.lt].
Proof.
  unfold Reply.sender. split; [|split; [|split]].
  - intros [[Hin Hne]|[_ Hin]]%elem_of_replace.
    + apply elem_of_replace in Hin as [[_ ?]|[_ Hin]]; [done|].
      in_literal Hin; discriminate Hin.
    + in_literal Hin; discriminate Hin.
  - intros [[_ ?]|[_ Hin]]%elem_of_replace; [done|].
    in_literal Hin; discriminate Hin.
  - intros Hlt Hgt. rewrite (replace_absent Reply.lt) by done.
    by rewrite replace_absent.
  - reflexivity.
Qed.

(** ** Trash, Untrash and Delete of the draft repository *)

Section draft_marks.
Context `{Outside}.

Lemma draft_delete_drafts_ok uid idList values t :
  json_each idList None = Some values →
  DraftRepository.delete_drafts uid idList t =
  inr (DraftTables.Mk
         (filter (λ c, ¬ Spec.listed Draft.Id Draft.UserId uid values c)
            (DraftTables.Draft t))
         (DraftTables.DraftDeleted t)
         (DraftTables.DraftHistorySeq t)).
Proof.
  intros Hjson. unfold DraftRepository.delete_drafts, id_values.
  rewrite Hjson. do 2 f_equal. unfold delete_where.
  apply list_filter_iff. intros c. by rewrite draft_bulk_cond_spec.
Qed.

(** What the statement of Trash ([k = 2]) and Untrash ([k = 0]) makes of a
    table, row by row. *)
Lemma draft_update_last_stmt_rows k dev uid idList values t :
  json_each idList None = Some values →
  ∃ t', DraftRepository.update_last_stmt k dev uid idList t = inr t' ∧
    DraftTables.DraftDeleted t' = DraftTables.DraftDeleted t ∧
    (∀ c', c' ∈ DraftTables.Draft t' →
           Spec.listed Draft.Id Draft.UserId uid values c' →
           Draft.LastStmt c' = k ∧
           ∃ c, c ∈ DraftTables.Draft t ∧ Draft.Id c = Draft.Id c' ∧
                Draft.UserId c = Draft.UserId c') ∧
    (∀ c', c' ∈ DraftTables.Draft t' →
           ¬ Spec.listed Draft.Id Draft.UserId uid values c' →
           c' ∈ DraftTables.Draft t) ∧
    (∀ c, c ∈ DraftTables.Draft t →
          Spec.listed Draft.Id Draft.UserId uid values c →
          ∃ h, Draft.stamp h (Draft.set_last_stmt k (deviceColumn dev) c)
                 ∈ DraftTables.Draft t') ∧
    (∀ c, c ∈ DraftTables.Draft t →
          ¬ Spec.listed Draft.Id Draft.UserId uid values c →
          c ∈ DraftTables.Draft t') ∧
    (∀ v, is_Some (DraftTables.DraftHistorySeq t !! v) →
          is_Some (DraftTables.DraftHistorySeq t' !! v)).
Proof.
  intros Hjson.
  pose proof (λ v, update_where_keeps_seq Draft.UserId
    (DraftRepository.bulk_cond uid values)
    (Draft.set_last_stmt k (deviceColumn dev)) Draft.stamp
    (DraftTables.Draft t) (DraftTables.DraftHistorySeq t) v) as Hkeep.
  destruct (draft_update_last_stmt_ok k dev uid idList values t Hjson)
    as (t' & Heq & Hdel & Hrows & _ & _).
  assert (Hkeep' : ∀ v, is_Some (DraftTables.DraftHistorySeq t !! v) →
                        is_Some (DraftTables.DraftHistorySeq t' !! v)).
  { intros v Hv. specialize (Hkeep v Hv).
    unfold DraftRepository.update_last_stmt, id_values in Heq.
    rewrite Hjson in Heq.
    destruct (update_where _ _ _ _ _ _) as [[table ret] seq].
    injection Heq as <-. exact Hkeep. }
  exists t'. split; [exact Heq|]. split; [exact Hdel|].
  split; [|split; [|split; [|split]]].
  - intros c' Hc' Hl. apply list_elem_of_lookup in Hc' as [i Hi].
    destruct (Forall2_lookup_r _ _ _ _ _ Hrows Hi) as (c & Hci & Hr).
    unfold rewritten in Hr. destruct (decide _) as [Hc|Hc].
    + destruct Hr as (h & -> & _). split; [done|].
      exists c. split; [by eapply list_elem_of_lookup_2|done].
    + subst c'. by apply draft_bulk_cond_spec in Hl.
  - intros c' Hc' Hl. apply list_elem_of_lookup in Hc' as [i Hi].
    destruct (Forall2_lookup_r _ _ _ _ _ Hrows Hi) as (c & Hci & Hr).
    unfold rewritten in Hr. destruct (decide _) as [Hc|Hc].
    + destruct Hr as (h & -> & _). exfalso. apply Hl.
      apply draft_bulk_cond_spec in Hc. exact Hc.
    + subst c'. by eapply list_elem_of_lookup_2.
  - intros c Hc Hl. apply list_elem_of_lookup in Hc as [i Hi].
    destruct (Forall2_lookup_l _ _ _ _ _ Hrows Hi) as (c' & Hci & Hr).
    unfold rewritten in Hr.
    rewrite decide_True in Hr by by apply draft_bulk_cond_spec.
    destruct Hr as (h & -> & _). exists h. by eapply list_elem_of_lookup_2.
  - intros c Hc Hl. apply list_elem_of_lookup in Hc as [i Hi].
    destruct (Forall2_lookup_l _ _ _ _ _ Hrows Hi) as (c' & Hci & Hr).
    unfold rewritten in Hr.
    rewrite decide_False in Hr by by rewrite draft_bulk_cond_spec.
    subst c'. by eapply list_elem_of_lookup_2.
  - exact Hkeep'.
Qed.

Lemma draft_Trash_run (user : User.t) idList t :
  idList ≠ "" →
  run (DraftRepository.Trash user idList) t [] =
  match DraftRepository.update_last_stmt 2
          (getPrefixedDeviceId (User.DeviceId user)) (User.Id user) idList t with
  | inl e => (Err (SqlErr e), t)
  | inr t' => (Ok tt, t')
  end.
Proof.
  intros Hne. unfold DraftRepository.Trash.
  rewrite decide_True by (destruct idList; [done|simpl; lia]).
  by rewrite ExecContext_run.
Qed.

Lemma draft_Untrash_run (user : User.t) idList t :
  idList ≠ "" →
  run (DraftRepository.Untrash user idList) t [] =
  match DraftRepository.update_last_stmt 0
          (getPrefixedDeviceId (User.DeviceId user)) (User.Id user) idList t with
  | inl e => (Err (SqlErr e), t)
  | inr t' => (Ok tt, t')
  end.
Proof.
  intros Hne. unfold DraftRepository.Untrash.
  rewrite decide_True by (destruct idList; [done|simpl; lia]).
  by rewrite ExecContext_run.
Qed.

Lemma draft_Delete_run (user : User.t) idList values t :
  idList ≠ "" →
  json_each idList None = Some values →
  run (DraftRepository.Delete user idList) t [] =
  (Ok tt,
   DraftTables.Mk
     (filter (λ c, ¬ Spec.listed Draft.Id Draft.UserId (User.Id user) values c)
        (DraftTables.Draft t))
     (DraftTables.DraftDeleted t)
     (DraftTables.DraftHistorySeq t)).
Proof.
  intros Hne Hjson. unfold DraftRepository.Delete.
  rewrite decide_True by (destruct idList; [done|simpl; lia]).
  rewrite ExecContext_run.
  by rewrite (draft_delete_drafts_ok _ _ values).
Qed.

End draft_marks.

(** X19.  A trashed draft cannot be updated: once Trash has run for an id
    list, Update of a listed draft by the same user answers
    [ErrDraftNotFound] and changes nothing; after Untrash of the list,
    Update of a draft the user holds no longer answers not found. *)
Theorem trashed_draft_cannot_be_updated `{Outside} now (user : User.t)
    (idList : string) (values : list string) (draft : Draft.t)
    (t : DraftTables.t) :
  idList ≠ "" →
  json_each idList None = Some values →
  Draft.Id draft ∈ values →
  let t1 := (run (DraftRepository.Trash user idList) t []).2 in
  let t2 := (run (DraftRepository.Untrash user idList) t1 []).2 in
  run (DraftRepository.Update now user draft) t1 [] =
    (Err ErrDraftNotFound, t1) ∧
  ((∃ c, c ∈ DraftTables.Draft t ∧ Draft.UserId c = User.Id user ∧
         Draft.Id c = Draft.Id draft) →
   (run (DraftRepository.Update now user draft) t2 []).1 ≠
     Err ErrDraftNotFound).
Proof.
  intros Hne Hjson Hin t1 t2.
  subst t2 t1. rewrite draft_Trash_run by done.
  destruct (draft_update_last_stmt_rows 2
              (getPrefixedDeviceId (User.DeviceId user)) (User.Id user)
              idList values t Hjson)
    as (t1 & -> & _ & Hmarked & _ & Hfwd & _ & _). simpl.
  rewrite draft_Untrash_run by done.
  destruct (draft_update_last_stmt_rows 0
              (getPrefixedDeviceId (User.DeviceId user)) (User.Id user)
              idList values t1 Hjson)
    as (t2 & -> & _ & Hmarked2 & _ & Hfwd2 & _ & _). simpl.
  split.
  - destruct (draft_Update_outcomes now user draft t1)
      as (Hnf & Hsame & _).
    assert (Hhits : filter (Draft.updatable (User.Id user) (Draft.Id draft))
                      (DraftTables.Draft t1) = []).
    { match goal with |- ?fl = [] => destruct fl as [|x rest] eqn:E end; [done|].
      assert (Hx : x ∈ x :: rest) by by left.
      rewrite <- E in Hx. apply list_elem_of_filter in Hx as [(Hu & Hi & Hk) Hx].
      exfalso. apply Hk. apply (Hmarked x Hx). split; [done|]. by rewrite Hi. }
    apply Hnf in Hhits as Hres. specialize (Hsame Hhits).
    destruct (run (DraftRepository.Update now user draft) t1 []) as [r tr].
    simpl in *. by subst.
  - intros (c & Hc & Hu & Hi) Hres.
    destruct (draft_Update_outcomes now user draft t2) as (Hnf & _).
    apply Hnf in Hres.
    assert (Hl : Spec.listed Draft.Id Draft.UserId (User.Id user) values c).
    { split; [done|]. by rewrite Hi. }
    destruct (Hfwd c Hc Hl) as (h & Hc1).
    assert (Hl1 : Spec.listed Draft.Id Draft.UserId (User.Id user) values
              (Draft.stamp h (Draft.set_last_stmt 2
                 (deviceColumn (getPrefixedDeviceId (User.DeviceId user))) c)))
      by exact Hl.
    destruct (Hfwd2 _ Hc1 Hl1) as (h2 & Hc2).
    assert (Hx : Draft.stamp h2 (Draft.set_last_stmt 0
                   (deviceColumn (getPrefixedDeviceId (User.DeviceId user)))
                   (Draft.stamp h (Draft.set_last_stmt 2
                      (deviceColumn (getPrefixedDeviceId (User.DeviceId user))) c)))
                 ∈ filter (Draft.updatable (User.Id user) (Draft.Id draft))
                     (DraftTables.Draft t2)).
    { apply list_elem_of_filter. split; [|exact Hc2].
      unfold Draft.updatable. simpl. done. }
    rewrite Hres in Hx. by apply not_elem_of_nil in Hx.
Qed.


(** X20.  Delete of drafts is final: once Delete has run for an id list,
    none of the caller's drafts carries an id of the list; a second
    Delete, a Trash and an Untrash of the same list succeed and leave the
    draft table as it is, and Update of a listed draft answers
    [ErrDraftNotFound]. *)
Theorem deleted_drafts_stay_deleted `{Outside} now (user : User.t) (idList : string)
    (values : list string) (draft : Draft.t) (t : DraftTables.t) :
  idList ≠ "" →
  json_each idList None = Some values →
  let t1 := (run (DraftRepository.Delete user idList) t []).2 in
  (∀ c, c ∈ DraftTables.Draft t1 → Draft.UserId c = User.Id user →
        Draft.Id c ∉ values) ∧
  (∀ o, (run (DraftRepository.bulk o user idList) t1 []).1 = Ok tt ∧
        DraftTables.Draft (run (DraftRepository.bulk o user idList) t1 []).2 =
          DraftTables.Draft t1) ∧
  (Draft.Id draft ∈ values →
   run (DraftRepository.Update now user draft) t1 [] =
     (Err ErrDraftNotFound, t1)).
Proof.
  intros Hne Hjson t1. subst t1.
  rewrite (draft_Delete_run user idList values) by done. simpl.
  set (t1 := DraftTables.Mk _ _ _).
  assert (Hgone : ∀ c, c ∈ DraftTables.Draft t1 →
            ¬ Spec.listed Draft.Id Draft.UserId (User.Id user) values c).
  { intros c Hc. apply list_elem_of_filter in Hc as [Hc _]. exact Hc. }
  split; [|split].
  - intros c Hc Hu Hv. apply (Hgone c Hc). by split.
  - intros [].
    + simpl. rewrite draft_Trash_run by done.
      destruct (draft_update_last_stmt_ok 2
                  (getPrefixedDeviceId (User.DeviceId user)) (User.Id user)
                  idList values t1 Hjson) as (t' & -> & _ & _ & _ & Hsame).
      rewrite (Hsame Hgone). done.
    + simpl. rewrite draft_Untrash_run by done.
      destruct (draft_update_last_stmt_ok 0
                  (getPrefixedDeviceId (User.DeviceId user)) (User.Id user)
                  idList values t1 Hjson) as (t' & -> & _ & _ & _ & Hsame).
      rewrite (Hsame Hgone). done.
    + simpl. rewrite (draft_Delete_run user idList values) by done. simpl.
      split; [done|]. apply filter_all_in. exact Hgone.
  - intros Hin.
    destruct (draft_Update_outcomes now user draft t1) as (Hnf & Hsame & _).
    assert (Hhits : filter (Draft.updatable (User.Id user) (Draft.Id draft))
                      (DraftTables.Draft t1) = []).
    { match goal with |- ?fl = [] => destruct fl as [|x rest] eqn:E end; [done|].
      assert (Hx : x ∈ x :: rest) by by left.
      rewrite <- E in Hx. apply list_elem_of_filter in Hx as [(Hu & Hi & Hk) Hx].
      exfalso. apply (Hgone x Hx). split; [done|]. by rewrite Hi. }
    apply Hnf in Hhits as Hres. specialize (Hsame Hhits).
    destruct (run (DraftRepository.Update now user draft) t1 []) as [r tr].
    simpl in *. by subst.
Qed.

(** ** Create of the draft repository *)

(** X21.  A created draft can be listed and edited.  Without storage
    faults Create of a draft succeeds and appends a live row of the caller
    with the payload of the request, the two generated uids, not unread,
    and the next history id.  The record returned is the row as the INSERT
    wrote it, with the column defaults for timeline and history id and the
    device id the statement was given.  List then returns the stored row
    among the caller's drafts, with its history id as the
    high-water-mark; and when the id the table gives the draft is not yet
    held by the caller, Update with that id succeeds and returns the
    record with the new payload, the uids kept, and historyId, lastStmt
    and modifiedAt as the stored row had them before the update. *)
Theorem created_draft_is_listed `{Outside} d dd (messageUid threadUid : string)
    (user : User.t) (draft : Draft.t) (t : DraftTables.t) :
  let returned :=
    Draft.Mk (Defaults.Id d) (User.Id user) messageUid
      (DraftDefaults.ParentUid dd) threadUid false
      (DraftDefaults.Starred dd) (Draft.Payload draft)
      (DraftDefaults.LabelIds dd) (Defaults.Now d) None
      (Defaults.DefaultTimelineId d) (Defaults.DefaultHistoryId d) 0
      (getPrefixedDeviceId (User.DeviceId user)) in
  let stored :=
    Draft.Mk (Defaults.Id d) (User.Id user) messageUid
      (DraftDefaults.ParentUid dd) threadUid false
      (DraftDefaults.Starred dd) (Draft.Payload draft)
      (DraftDefaults.LabelIds dd) (Defaults.Now d) None
      (Defaults.TimelineId d)
      (default 0 (DraftTables.DraftHistorySeq t !! User.Id user) + 1) 0
      (deviceColumn (getPrefixedDeviceId (User.DeviceId user))) in
  ∃ t',
    run (DraftRepository.Create d dd messageUid threadUid user draft) t [] =
      (Ok returned, t') ∧
    DraftTables.Draft t' = DraftTables.Draft t ++ [stored] ∧
    DraftTables.DraftDeleted t' = DraftTables.DraftDeleted t ∧
    (∃ l, run (DraftRepository.List user) t' [] = (Ok l, t') ∧
          DraftList.History l = Draft.HistoryId stored ∧
          stored ∈ DraftList.Drafts l) ∧
    ((∀ x, x ∈ DraftTables.Draft t → Draft.UserId x = User.Id user →
           Draft.Id x ≠ Defaults.Id d) →
     ∀ now (edited : Draft.t), Draft.Id edited = Draft.Id returned →
       ∃ u t'', run (DraftRepository.Update now user edited) t' [] = (Ok u, t'') ∧
                Draft.Id u = Draft.Id returned ∧
                Draft.Payload u = Draft.Payload edited ∧
                Draft.MessageUid u = messageUid ∧
                Draft.ThreadUid u = threadUid ∧
                Draft.HistoryId u = Draft.HistoryId stored ∧
                Draft.LastStmt u = 0 ∧
                Draft.ModifiedAt u = None ∧
                Draft.DeviceId u = getPrefixedDeviceId (User.DeviceId user)).
Proof.
  intros returned stored.
  set (h := default 0 (DraftTables.DraftHistorySeq t !! User.Id user) + 1).
  set (t' := DraftTables.Mk (DraftTables.Draft t ++ [stored])
               (DraftTables.DraftDeleted t)
               (<[User.Id user := h]> (DraftTables.DraftHistorySeq t))).
  assert (Hrun : run (DraftRepository.Create d dd messageUid threadUid user draft)
                   t [] = (Ok returned, t')).
  { unfold DraftRepository.Create, DraftRepository.insert_draft, next_history.
    db_run. reflexivity. }
  exists t'. split; [exact Hrun|]. simpl.
  do 2 (split; [reflexivity|]).
  split.
  - unfold DraftRepository.List, DraftRepository.select_history, seq_rows.
    db_run. unfold t'. simpl. rewrite lookup_insert_eq.
    eexists. split; [reflexivity|]. simpl. split; [reflexivity|].
    rewrite order_by_desc_perm, elem_of_select, draft_list_where_spec.
    split.
    + unfold Spec.live. simpl. split; [done|lia].
    + apply elem_of_app. right. by left.
  - intros Hfresh now edited Hid.
    destruct (draft_Update_outcomes now user edited t') as (_ & _ & Hok).
    assert (Hhits : filter (Draft.updatable (User.Id user) (Draft.Id edited))
                      (DraftTables.Draft t') = [stored]).
    { simpl. rewrite filter_app.
      match goal with
      | |- context [filter ?P (DraftTables.Draft t)] =>
        assert (filter P (DraftTables.Draft t) = []) as ->
      end.
      { match goal with |- ?fl = [] => destruct fl as [|x rest] eqn:E end;
          [done|].
        assert (Hx : x ∈ x :: rest) by by left.
        rewrite <- E in Hx.
        apply list_elem_of_filter in Hx as [(Hu & Hi & _) Hx].
        exfalso. apply (Hfresh x Hx Hu). congruence. }
      rewrite filter_cons, filter_nil, decide_True; [done|].
      unfold Draft.updatable. simpl. split; [done|]. split; [done|lia]. }
    destruct (Hok stored [] Hhits) as (t'' & Hupd & _).
    eexists _, t''. split; [exact Hupd|]. done.
Qed.

(** ** The theorems at the worked data *)

Ltac in_table H :=
  apply list_elem_of_In in H; simpl in H;
  repeat match type of H with
         | _ ∨ _ => destruct H as [H|H]
         | False => destruct H
         end.

Lemma sync_partitions_changes_witness :
  ContactTables.contact_history_seq Example.updated !! User.Id Example.alice_D1
    = Some 3 ∧
  ∃ s, run (ContactRepository.Sync Example.alice_D1 (History.Mk 0))
         Example.updated [] = (Ok s, Example.updated) ∧
    ContactSync.History s = 3 ∧
    Spec.classified Contact.UserId Contact.HistoryId Contact.DeviceId
      Contact.LastStmt ContactDeleted.UserId ContactDeleted.HistoryId
      ContactDeleted.DeviceId Example.alice_D1 0
      (ContactTables.contact Example.updated)
      (ContactTables.contact_deleted Example.updated)
      (ContactSync.ContactsInserted s) (ContactSync.ContactsUpdated s)
      (ContactSync.ContactsTrashed s) (ContactSync.ContactsDeleted s) ∧
    Spec.exclusive (ContactSync.ContactsInserted s)
      (ContactSync.ContactsUpdated s) (ContactSync.ContactsTrashed s) ∧
    Spec.exclusive_keys Contact.Id ContactDeleted.Id
      (ContactSync.ContactsInserted s) (ContactSync.ContactsUpdated s)
      (ContactSync.ContactsTrashed s) (ContactSync.ContactsDeleted s).
Proof.
  split; [vm_compute; reflexivity|].
  destruct (proj1 sync_partitions_changes Example.alice_D1 (History.Mk 0)
              Example.updated 3) as (s & Hrun & Hh & Hc & He & Hk).
  { vm_compute; reflexivity. }
  exists s. split; [exact Hrun|]. split; [exact Hh|]. split; [exact Hc|].
  split; [exact He|]. apply Hk.
  - intros r1 r2 H1 H2 Ho Hkey. in_table H1; in_table H2; subst;
      first [reflexivity | discriminate Hkey].
  - intros r d _ Hd. in_table Hd.
Defined.

Lemma list_returns_live_rows_witness :
  ContactTables.contact_history_seq Example.created !! User.Id Example.alice_D1
    = Some 2 ∧
  ∃ l, run (ContactRepository.List Example.alice_D1) Example.created []
         = (Ok l, Example.created) ∧
    ContactList.History l = 2 ∧
    ContactList.Contacts l ≡ₚ
      filter (Spec.live Contact.UserId Contact.LastStmt Example.alice_D1)
        (ContactTables.contact Example.created) ∧
    StronglySorted (Sql.desc Contact.CreatedAt) (ContactList.Contacts l).
Proof.
  split; [vm_compute; reflexivity|].
  apply (proj1 list_returns_live_rows Example.alice_D1 Example.created 2).
  vm_compute; reflexivity.
Defined.

Lemma first_sync_is_list_minus_own_changes_witness :
  ContactTables.contact_history_seq Example.created !! User.Id Example.alice_D2
    = Some 2 ∧
  ∃ l s,
    run (ContactRepository.List Example.alice_D2) Example.created []
      = (Ok l, Example.created) ∧
    run (ContactRepository.Sync Example.alice_D2 (History.Mk 0)) Example.created []
      = (Ok s, Example.created) ∧
    ContactSync.ContactsInserted s ≡ₚ
      filter (Spec.other_device Contact.DeviceId (User.DeviceId Example.alice_D2))
        (ContactList.Contacts l) ∧
    ContactSync.History s = ContactList.History l.
Proof.
  split; [vm_compute; reflexivity|].
  apply (first_sync_is_list_minus_own_changes Example.alice_D2 Example.created 2).
  - vm_compute; reflexivity.
  - intros c Hc _. in_table Hc; subst; simpl; lia.
Defined.

Lemma blob_delete_is_atomic_witness :
  Example.uris_1 ≠ "" ∧
  @json_each Example.outside Example.uris_1 BlobRepository.uris_path
    = Some ["blob-1"] ∧
  ∃ t2,
    run (@BlobRepository.Delete Example.outside Example.alice_D1 Example.uris_1)
      Example.blobs [] = (Ok tt, t2) ∧
    Spec.removed_and_stamped Example.alice_D1 ["blob-1"] Example.blobs t2.
Proof.
  assert (Hne : Example.uris_1 ≠ "") by discriminate.
  assert (Hjson : @json_each Example.outside Example.uris_1
            BlobRepository.uris_path = Some ["blob-1"])
    by (vm_compute; reflexivity).
  split; [exact Hne|]. split; [exact Hjson|].
  exact (proj2 (@blob_delete_is_atomic Example.outside Example.alice_D1
                  Example.uris_1 Example.blobs Hne) ["blob-1"] Hjson).
Defined.

Lemma update_outcomes_witness :
  filter (Contact.updatable (User.Id Example.alice_D2)
            (Contact.Id Example.renamed_B))
    (ContactTables.contact Example.created) = [Example.contact_B] ∧
  ¬ Contact.collides Example.renamed_B (User.Id Example.alice_D2)
      (ContactTables.contact Example.created) ∧
  ∃ t',
    run (@ContactRepository.Update Example.outside 300 Example.alice_D2
           Example.renamed_B) Example.created []
    = (Ok (Contact.Mk "contact-b" 1 (Some "bob@example.org") (Some "Robert")
             (Some "Birch") 200 None 2 2 0 (Some "device:D2")), t') ∧
    Contact.Mk "contact-b" 1 (Some "bob@example.org") (Some "Robert")
      (Some "Birch") 200 (Some 300) 2 3 1 (Some "D2")
      ∈ ContactTables.contact t' ∧
    ContactTables.contact_deleted t' = ContactTables.contact_deleted Example.created ∧
    is_Some (ContactTables.contact_history_seq t' !! User.Id Example.alice_D2).
Proof.
  assert (Hhits : filter (Contact.updatable (User.Id Example.alice_D2)
            (Contact.Id Example.renamed_B))
            (ContactTables.contact Example.created) = [Example.contact_B])
    by (vm_compute; reflexivity).
  assert (Hfree : ¬ Contact.collides Example.renamed_B (User.Id Example.alice_D2)
            (ContactTables.contact Example.created)).
  { intros [_ Hlt]. vm_compute in Hlt. lia. }
  split; [exact Hhits|]. split; [exact Hfree|].
  destruct (proj1 (@update_outcomes Example.outside) 300 Example.alice_D2
              Example.renamed_B Example.created) as (_ & _ & _ & Hok).
  exact (Hok Example.contact_B [] Hhits Hfree).
Defined.

Lemma bulk_operations_are_best_effort_witness :
  run (@ContactRepository.bulk Example.outside Bulk.Delete Example.alice_D1 "")
    Example.created [true] = (Ok tt, Example.created) ∧
  @json_each Example.outside Example.ids_nobody None = Some ["nobody"] ∧
  ∃ t',
    run (@ContactRepository.bulk Example.outside Bulk.Trash Example.alice_D1
           Example.ids_nobody) Example.created [] = (Ok tt, t') ∧
    t' = Example.created.
Proof.
  destruct (@bulk_operations_are_best_effort Example.outside Bulk.Delete
              Example.alice_D1 "" Example.created) as [Hempty _].
  destruct (@bulk_operations_are_best_effort Example.outside Bulk.Trash
              Example.alice_D1 Example.ids_nobody Example.created) as [_ Hlist].
  assert (Hjson : @json_each Example.outside Example.ids_nobody None
            = Some ["nobody"]) by (vm_compute; reflexivity).
  split; [exact (Hempty eq_refl [true])|]. split; [exact Hjson|].
  destruct (Hlist ["nobody"] Hjson) as (t' & Hrun & Hsame & _).
  exists t'. split; [exact Hrun|]. apply Hsame.
  intros c Hc [_ Hid]. in_table Hc; subst; simpl in Hid;
    apply list_elem_of_In in Hid; simpl in Hid;
    destruct Hid as [Hid|[]]; discriminate Hid.
Defined.

Lemma get_blob_by_uri_not_found_is_zero_witness :
  filter (Blob.findable (User.Id Example.alice_D1) "blob-2")
    (BlobTables.Blob Example.blobs) = [] ∧
  (BlobRepository.GetBlobByUri Example.alice_D1 "blob-2"
     (MkConn Example.blobs [])).1 = (Blob.zero, None) ∧
  filter (Blob.findable (User.Id Example.alice_D1) "blob-1")
    (BlobTables.Blob Example.blobs) = [Example.blob_1] ∧
  (BlobRepository.GetBlobByUri Example.alice_D1 "blob-1"
     (MkConn Example.blobs [])).1 = (Example.blob_1, None).
Proof.
  assert (H2 : filter (Blob.findable (User.Id Example.alice_D1) "blob-2")
            (BlobTables.Blob Example.blobs) = []) by (vm_compute; reflexivity).
  assert (H1 : filter (Blob.findable (User.Id Example.alice_D1) "blob-1")
            (BlobTables.Blob Example.blobs) = [Example.blob_1])
    by (vm_compute; reflexivity).
  split; [exact H2|]. split.
  - exact (proj1 (get_blob_by_uri_not_found_is_zero Example.alice_D1 "blob-2"
                    Example.blobs) H2).
  - split; [exact H1|].
    exact (proj1 (proj1 (proj2 (get_blob_by_uri_not_found_is_zero
             Example.alice_D1 "blob-1" Example.blobs)) Example.blob_1 [] H1)).
Defined.

Lemma bulk_operations_leave_other_users_alone_witness :
  2 ≠ User.Id Example.alice_D1 ∧
  filter (λ c, Contact.UserId c = 2)
    (ContactTables.contact
       (run (@ContactRepository.bulk Example.outside Bulk.Trash Example.alice_D1
               Example.ids_B) Example.shared []).2) = [Example.contact_Z] ∧
  ContactTables.contact_history_seq
    (run (@ContactRepository.bulk Example.outside Bulk.Trash Example.alice_D1
            Example.ids_B) Example.shared []).2 !! 2 = Some 1.
Proof.
  assert (Hne : 2 ≠ User.Id Example.alice_D1) by discriminate.
  split; [exact Hne|].
  destruct (proj1 (@bulk_operations_leave_other_users_alone Example.outside
              Bulk.Trash Example.alice_D1 Example.ids_B [] 2 Hne) Example.shared)
    as (Hrows & _ & Hseq).
  split.
  - etrans; [exact Hrows|]. vm_compute; reflexivity.
  - etrans; [exact Hseq|]. vm_compute; reflexivity.
Defined.

Lemma untrash_resets_every_listed_row_witness :
  Example.ids_A ≠ "" ∧
  @json_each Example.outside Example.ids_A None = Some ["contact-a"] ∧
  Contact.LastStmt Example.contact_A_updated = 1 ∧
  ∃ t',
    run (@ContactRepository.Untrash Example.outside Example.alice_D1 Example.ids_A)
      Example.updated [] = (Ok tt, t') ∧
    ∃ h, default 0 (ContactTables.contact_history_seq Example.updated
                      !! User.Id Example.alice_D1) < h ∧
         Contact.stamp h (Contact.set_last_stmt 0 (Some "D1")
                            Example.contact_A_updated)
           ∈ ContactTables.contact t'.
Proof.
  assert (Hne : Example.ids_A ≠ "") by discriminate.
  assert (Hjson : @json_each Example.outside Example.ids_A None
            = Some ["contact-a"]) by (vm_compute; reflexivity).
  split; [exact Hne|]. split; [exact Hjson|]. split; [reflexivity|].
  destruct (proj1 (@untrash_resets_every_listed_row Example.outside
              Example.alice_D1 Example.ids_A ["contact-a"] Hne Hjson)
              Example.updated) as (t' & Hrun & _ & _ & Hreset & _).
  exists t'. split; [exact Hrun|].
  apply (Hreset Example.contact_A_updated).
  - by left.
  - split; [reflexivity|by left].
  - reflexivity.
Defined.

Lemma reads_need_the_sequence_row_witness :
  (run (ContactRepository.List Example.alice_D1) (ContactTables.Mk [] [] ∅) []
     = (Err (SqlErr ErrNoRows), ContactTables.Mk [] [] ∅)) ∧
  (run (BlobRepository.Sync Example.alice_D1 (History.Mk 0)) (BlobTables.Mk [] [] ∅) []
     = (Err (SqlErr ErrNoRows), BlobTables.Mk [] [] ∅)) ∧
  (run (DraftRepository.List Example.alice_D1) (DraftTables.Mk [] [] ∅) []
     = (Err (SqlErr ErrNoRows), DraftTables.Mk [] [] ∅)).
Proof.
  destruct (reads_need_the_sequence_row Example.alice_D1 (History.Mk 0))
    as (Hc & Hb & Hd).
  split; [|split].
  - apply (Hc (ContactTables.Mk [] [] ∅)). reflexivity.
  - apply (Hb (BlobTables.Mk [] [] ∅)). reflexivity.
  - apply (Hd (DraftTables.Mk [] [] ∅)). reflexivity.
Defined.

Lemma created_row_echo_follows_the_stored_device_witness :
  let c := Contact.Mk "contact-c" 1 (Some "carol@example.org") (Some "Carol")
             (Some "Cedar") 300 None 0 0 0 (Some "device:D1") in
  let t' := ContactTables.Mk
              (ContactTables.contact Example.created ++
                 [Contact.Mk "contact-c" 1 (Some "carol@example.org")
                    (Some "Carol") (Some "Cedar") 300 None 3 3 0 (Some "D1")])
              [] (<[1 := 3]> (ContactTables.contact_history_seq Example.created)) in
  User.DeviceId Example.alice_D1 = Some "D1"%string ∧
  User.DeviceId Example.alice_D2 = Some "D2"%string ∧
  User.Id Example.alice_D2 = User.Id Example.alice_D1 ∧
  run (ContactRepository.Create (H := Example.outside) Example.defaults
         Example.alice_D1 Example.carol) Example.created [] = (Ok c, t') ∧
  History.Id (History.Mk 2) ≤
    default 0 (ContactTables.contact_history_seq Example.created
                 !! User.Id Example.alice_D1) ∧
  ∃ row s1 s2,
    ContactTables.contact t' = ContactTables.contact Example.created ++ [row] ∧
    Contact.Id row = Contact.Id c ∧
    Contact.DeviceId c =
      getPrefixedDeviceId (Outside := Example.outside) (Some "D1"%string) ∧
    Contact.DeviceId row =
      deviceColumn (Outside := Example.outside)
        (getPrefixedDeviceId (Outside := Example.outside) (Some "D1"%string)) ∧
    run (ContactRepository.Sync Example.alice_D1 (History.Mk 2)) t' []
      = (Ok s1, t') ∧
    run (ContactRepository.Sync Example.alice_D2 (History.Mk 2)) t' []
      = (Ok s2, t') ∧
    (row ∈ ContactSync.ContactsInserted s1 ↔
       Contact.DeviceId row ≠ Some "D1"%string) ∧
    (row ∈ ContactSync.ContactsInserted s2 ↔
       Contact.DeviceId row ≠ Some "D2"%string) ∧
    (row ∉ ContactSync.ContactsUpdated s1) ∧
    (row ∉ ContactSync.ContactsTrashed s1) ∧
    (row ∉ ContactSync.ContactsUpdated s2) ∧
    (row ∉ ContactSync.ContactsTrashed s2).
Proof.
  intros c t'.
  assert (Hrun : run (ContactRepository.Create (H := Example.outside)
                        Example.defaults Example.alice_D1 Example.carol)
                   Example.created [] = (Ok c, t'))
    by (vm_compute; reflexivity).
  assert (Hsince : History.Id (History.Mk 2) ≤
            default 0 (ContactTables.contact_history_seq Example.created
                         !! User.Id Example.alice_D1))
    by (vm_compute; discriminate).
  split; [reflexivity|]. split; [reflexivity|]. split; [reflexivity|].
  split; [exact Hrun|]. split; [exact Hsince|].
  exact (created_row_echo_follows_the_stored_device (H := Example.outside)
           Example.alice_D1 Example.alice_D2 "D1" "D2" Example.defaults
           Example.carol c Example.created t' (History.Mk 2)
           eq_refl eq_refl eq_refl Hrun Hsince).
Defined.

Lemma create_refuses_exactly_the_duplicates_witness :
  run (ContactRepository.Create (H := Example.outside) Example.defaults
         Example.alice_D2 Example.contact_A) Example.shared [] =
    (Err ErrDuplicateContact, Example.shared) ∧
  run (ContactRepository.Create (H := Example.outside) Example.defaults
         Example.alice_D2 Example.carol) Example.shared [] =
    (Ok (Contact.Mk "contact-c" 1 (Some "carol@example.org") (Some "Carol")
           (Some "Cedar") 300 None 0 0 0 (Some "device:D2")),
     ContactTables.Mk
       (ContactTables.contact Example.shared ++
          [Contact.Mk "contact-c" 1 (Some "carol@example.org") (Some "Carol")
             (Some "Cedar") 300 None 3 3 0 (Some "D2")])
       (ContactTables.contact_deleted Example.shared)
       (<[1 := 3]> (ContactTables.contact_history_seq Example.shared))).
Proof.
  split.
  - apply (create_refuses_exactly_the_duplicates (H := Example.outside)).
    split; [by eexists|].
    exists Example.contact_A. split; [|reflexivity].
    apply list_elem_of_In. simpl. auto.
  - apply (create_refuses_exactly_the_duplicates (H := Example.outside)
             Example.defaults Example.alice_D2 Example.carol Example.shared).
    intros [_ (c & Hc & Heq)]. in_table Hc; subst c; discriminate Heq.
Defined.

Lemma trashed_contact_cannot_be_updated_witness :
  let t1 := (run (ContactRepository.Trash (H := Example.outside)
                    Example.alice_D1 Example.ids_B) Example.shared []).2 in
  let t2 := (run (ContactRepository.Untrash (H := Example.outside)
                    Example.alice_D1 Example.ids_B) t1 []).2 in
  run (ContactRepository.Update (H := Example.outside) 400 Example.alice_D1
         Example.renamed_B) t1 [] = (Err ErrContactNotFound, t1) ∧
  (run (ContactRepository.Update (H := Example.outside) 400 Example.alice_D1
          Example.renamed_B) t2 []).1 ≠ Err ErrContactNotFound.
Proof.
  intros t1 t2.
  destruct (trashed_contact_cannot_be_updated (H := Example.outside) 400
              Example.alice_D1 Example.ids_B ["contact-b"%string]
              Example.renamed_B Example.shared) as [Hnf Hfound].
  - discriminate.
  - reflexivity.
  - apply list_elem_of_In. simpl. auto.
  - split; [exact Hnf|]. apply Hfound.
    exists Example.contact_B. split; [|by split].
    apply list_elem_of_In. simpl. auto.
Defined.

Lemma trash_hides_and_untrash_restores_witness :
  let t1 := (run (ContactRepository.Trash (H := Example.outside)
                    Example.alice_D1 Example.ids_B) Example.shared []).2 in
  let t2 := (run (ContactRepository.Untrash (H := Example.outside)
                    Example.alice_D1 Example.ids_B) t1 []).2 in
  ∃ l1 l2,
    run (ContactRepository.List Example.alice_D1) t1 [] = (Ok l1, t1) ∧
    run (ContactRepository.List Example.alice_D1) t2 [] = (Ok l2, t2) ∧
    Example.contact_A ∈ ContactList.Contacts l1 ∧
    (∀ c, c ∈ ContactList.Contacts l1 → Contact.Id c ≠ "contact-b") ∧
    ∃ c', c' ∈ ContactList.Contacts l2 ∧ Contact.Id c' = "contact-b".
Proof.
  intros t1 t2.
  destruct (trash_hides_and_untrash_restores (H := Example.outside)
              Example.alice_D1 Example.ids_B ["contact-b"%string] Example.shared)
    as (l1 & l2 & H1 & H2 & Hhid & Hkeep & Hback).
  - discriminate.
  - reflexivity.
  - by eexists.
  - exists l1, l2. split; [exact H1|]. split; [exact H2|]. split; [|split].
    + apply (Hkeep Example.contact_A).
      * apply list_elem_of_In. simpl. auto.
      * reflexivity.
      * simpl. lia.
      * intros Hin. in_table Hin. discriminate Hin.
    + intros c Hc Heq. apply (Hhid c Hc). rewrite Heq.
      apply list_elem_of_In. simpl. auto.
    + destruct (Hback Example.contact_B) as (c' & Hc' & Hid & _).
      * apply list_elem_of_In. simpl. auto.
      * reflexivity.
      * apply list_elem_of_In. simpl. auto.
      * exists c'. split; [exact Hc'|exact Hid].
Defined.

Lemma delete_is_final_witness :
  let t1 := (run (ContactRepository.Delete (H := Example.outside)
                    Example.alice_D1 Example.ids_B) Example.shared []).2 in
  ContactTables.contact t1 = [Example.contact_A; Example.contact_Z] ∧
  ContactTables.contact
    (run (ContactRepository.Untrash (H := Example.outside)
            Example.alice_D1 Example.ids_B) t1 []).2 = ContactTables.contact t1 ∧
  run (ContactRepository.Update (H := Example.outside) 400 Example.alice_D1
         Example.renamed_B) t1 [] = (Err ErrContactNotFound, t1).
Proof.
  intros t1.
  destruct (delete_is_final (H := Example.outside) 400 Example.alice_D1
              Example.ids_B ["contact-b"%string] Example.renamed_B Example.shared)
    as (_ & Hbulk & Hup).
  - discriminate.
  - reflexivity.
  - split; [reflexivity|]. split.
    + apply (Hbulk Bulk.Untrash).
    + apply Hup. apply list_elem_of_In. simpl. auto.
Defined.

Lemma blob_deletions_are_not_echoed_witness :
  let t2 := (run (BlobRepository.Delete (H := Example.outside)
                    Example.alice_D1 Example.uris_1) Example.blobs []).2 in
  ∃ own others,
    run (BlobRepository.Sync Example.alice_D1 (History.Mk 2)) t2 [] = (Ok own, t2) ∧
    run (BlobRepository.Sync Example.alice_D2 (History.Mk 2)) t2 [] = (Ok others, t2) ∧
    (∀ d, d ∈ BlobSync.BlobsDeleted own → BlobDeleted.Uri d ≠ "blob-1") ∧
    ∃ d, d ∈ BlobSync.BlobsDeleted others ∧ BlobDeleted.Uri d = "blob-1".
Proof.
  intros t2.
  destruct (blob_deletions_are_not_echoed (H := Example.outside)
              Example.alice_D1 Example.alice_D2 "D1" "D2" Example.uris_1
              ["blob-1"%string] Example.blobs (History.Mk 2))
    as (own & others & H1 & H2 & Hown & Hothers).
  - discriminate.
  - reflexivity.
  - reflexivity.
  - reflexivity.
  - reflexivity.
  - discriminate.
  - by eexists.
  - exists own, others. split; [exact H1|]. split; [exact H2|]. split.
    + intros d Hd Heq. apply (Hown d Hd). rewrite Heq.
      apply list_elem_of_In. simpl. auto.
    + apply (Hothers ltac:(reflexivity) Example.blob_1).
      * apply list_elem_of_In. simpl. auto.
      * reflexivity.
      * apply list_elem_of_In. simpl. auto.
Defined.

Lemma draft_sync_and_list_witness :
  (∃ s, run (DraftRepository.Sync Example.alice_D1 (History.Mk 0)) Sample.drafts []
          = (Ok s, Sample.drafts) ∧
        DraftSync.History s = 2 ∧
        DraftSync.DraftsTrashed s ≡ₚ [Sample.draft_2]) ∧
  (∃ l, run (DraftRepository.List Example.alice_D1) Sample.drafts []
          = (Ok l, Sample.drafts) ∧
        DraftList.Drafts l ≡ₚ [Sample.draft_1]).
Proof.
  destruct (draft_sync_and_list Example.alice_D1 (History.Mk 0) Sample.drafts 2
              eq_refl) as [(s & Hs & Hh & Hc & _) (l & Hl & _ & Hlive & _)].
  split.
  - exists s. split; [exact Hs|]. split; [exact Hh|].
    destruct Hc as (_ & _ & Htr & _). exact Htr.
  - exists l. split; [exact Hl|]. exact Hlive.
Defined.

Lemma trashed_blob_is_not_found_witness :
  let t1 := (run (BlobRepository.Trash (H := Example.outside)
                    Example.alice_D1 Example.uris_1) Example.blobs []).2 in
  let t2 := (run (BlobRepository.Untrash (H := Example.outside)
                    Example.alice_D1 Example.uris_1) t1 []).2 in
  (BlobRepository.GetBlobByUri Example.alice_D1 "blob-1" (MkConn t1 [])).1
    = (Blob.zero, None) ∧
  ∃ b', (BlobRepository.GetBlobByUri Example.alice_D1 "blob-1" (MkConn t2 [])).1
          = (b', None) ∧
        Blob.Uri b' = "blob-1" ∧ Blob.LastStmt b' = 0.
Proof.
  intros t1 t2.
  destruct (trashed_blob_is_not_found (H := Example.outside) Example.alice_D1
              Example.uris_1 ["blob-1"%string] "blob-1" Example.blobs)
    as [Hgone Hback].
  - discriminate.
  - reflexivity.
  - apply list_elem_of_In. simpl. auto.
  - split; [exact Hgone|].
    destruct Hback as (b' & Hb' & _ & _ & Huri & Hk).
    + exists Example.blob_1. split; [|by split].
      apply list_elem_of_In. simpl. auto.
    + exists b'. split; [exact Hb'|]. split; [exact Huri|exact Hk].
Defined.

Lemma blob_update_answers_witness :
  run (BlobRepository.Update (H := Example.outside) 400 Example.alice_D1
         Example.blob_2) Example.blobs [] = (Err ErrBlobNotFound, Example.blobs) ∧
  ∃ t',
    run (BlobRepository.Update (H := Example.outside) 400 Example.alice_D1
           Sample.blob_1_edited) Example.blobs [] =
      (Ok (Blob.Mk "blob-1" 1 "h1b" "notes.txt" "hello" "/files/1" 15
             "text/plain" 100 None 1 1 0 (Some "device:D1")), t') ∧
    Blob.Mk "blob-1" 1 "h1b" "notes.txt" "hello" "/files/1" 15
      "text/plain" 100 (Some 400) 1 3 1 (Some "D1") ∈ BlobTables.Blob t' ∧
    BlobTables.BlobDeleted t' = BlobTables.BlobDeleted Example.blobs.
Proof.
  destruct (blob_update_answers (H := Example.outside) 400 Example.alice_D1
              Example.blob_2 Example.blobs) as [Hnf _].
  destruct (blob_update_answers (H := Example.outside) 400 Example.alice_D1
              Sample.blob_1_edited Example.blobs) as [_ Hok].
  split.
  - apply Hnf. reflexivity.
  - exact (Hok Example.blob_1 [] eq_refl).
Defined.

Lemma created_blob_is_found_witness :
  (∀ b, b ∈ BlobTables.Blob Example.blobs →
        Blob.UserId b = User.Id Example.alice_D1 →
        Blob.Uri b ≠ Defaults.Id Sample.blob_defaults) ∧
  ∃ t',
    run (BlobRepository.Create (H := Example.outside) Sample.blob_defaults
           Example.alice_D1 Sample.blob_3) Example.blobs [] =
      (Ok (Blob.Mk "blob-3" 1 "h3" "photo.png" "" "/files/3" 2048 "image/png"
             300 None 0 0 0 (Some "device:D1")), t') ∧
    (BlobRepository.GetBlobByUri Example.alice_D1 "blob-3" (MkConn t' [])).1
      = (Blob.Mk "blob-3" 1 "h3" "photo.png" "" "/files/3" 2048 "image/png"
           300 None 3 3 0 (Some "D1"), None).
Proof.
  assert (Hfresh : ∀ b, b ∈ BlobTables.Blob Example.blobs →
            Blob.UserId b = User.Id Example.alice_D1 →
            Blob.Uri b ≠ Defaults.Id Sample.blob_defaults).
  { intros b Hb _ Heq. in_table Hb; subst b; discriminate Heq. }
  split; [exact Hfresh|].
  destruct (created_blob_is_found (H := Example.outside) Sample.blob_defaults
              Example.alice_D1 Sample.blob_3 Example.blobs Hfresh)
    as (t' & Hrun & _ & _ & Hget & _).
  exists t'. split; [exact Hrun|exact Hget].
Defined.

Lemma profile_update_is_unreachable_witness :
  UserApi.Profile (User := string) (profile := string) (Body := string)
    (Store := list string) "missing user context"%string (λ _, false) id
    (λ body user, inr body) (λ user s, (inr user, user :: s))
    (λ name s, (inr name, s))
    (Some "alice"%string) "PATCH" "bob"%string [] = (None, []).
Proof.
  destruct (profile_update_is_unreachable
              (Request.Mk "PATCH" "/api/v1/user/profile")
              (User := string) (profile := string) (Body := string)
              (Store := list string)
              "missing user context"%string (λ _, false) id
              (λ name s, (inr name, s)))
    as (_ & _ & _ & Hpatch).
  - reflexivity.
  - apply (Hpatch eq_refl).
Defined.

Lemma dispatch_is_unambiguous_witness :
  Router.ServeHTTP
    (Router.Mk (reverse (Router.routes (Service.routes Router.NewRouter))))
    (Request.Mk "HEAD" "/api/v1/bodies/2024/report.pdf") =
  Router.ServeHTTP (Service.routes Router.NewRouter)
    (Request.Mk "HEAD" "/api/v1/bodies/2024/report.pdf").
Proof.
  apply (dispatch_is_unambiguous
           (Request.Mk "HEAD" "/api/v1/bodies/2024/report.pdf")).
  simpl. apply reverse_Permutation.
Defined.

Lemma downloads_serve_their_subtree_witness :
  Router.ServeHTTP (Service.routes Router.NewRouter)
    (Request.Mk "GET" "/api/v1/files/2024/report.pdf") =
    Some (Service.api_Authenticate Service.Files_Download) ∧
  ∃ e, e ∈ Router.routes (Service.routes Router.NewRouter) ∧
       Entry.Handler e = Service.api_Authenticate Service.Files_List ∧
       Entry.Path e = "/api/v1/files".
Proof.
  destruct (downloads_serve_their_subtree
              (Request.Mk "GET" "/api/v1/files/2024/report.pdf"))
    as ([_ Hfiles] & _ & _ & _).
  destruct (downloads_serve_their_subtree
              (Request.Mk "GET" "/api/v1/files"))
    as (_ & _ & _ & Hexact).
  split.
  - apply Hfiles. split; [by left|reflexivity].
  - destruct (Hexact (Service.api_Authenticate Service.Files_List))
      as (e & He & Hh & _ & Hp).
    + reflexivity.
    + discriminate.
    + discriminate.
    + exists e. split; [exact He|]. split; [exact Hh|].
      symmetry. exact Hp.
Defined.

Lemma update_draft_edit_merges_witness :
  let s := DraftsContext.State []
             [ {[ "id" := "d1"; "subject" := "Hello" ]};
               {[ "id" := "d2"; "subject" := "Other" ]} ] in
  DraftsContext.editing
    (DraftsContext.reducer "undefined"%string s
       (DraftsContext.updateDraftEdit {[ "id" := "d1"; "subject" := "Hi" ]}))
    !! 1%nat = Some {[ "id" := "d2"; "subject" := "Other" ]} ∧
  ∃ d', DraftsContext.editing
          (DraftsContext.reducer "undefined"%string s
             (DraftsContext.updateDraftEdit {[ "id" := "d1"; "subject" := "Hi" ]}))
          !! 0%nat = Some d' ∧
        d' !! "subject" = Some "Hi"%string.
Proof.
  intros s.
  destruct (update_draft_edit_merges "undefined"%string s
              {[ "id" := "d1"; "subject" := "Hi" ]}) as (_ & _ & Hother & Hsame & _).
  split.
  - apply (Hother 1%nat); [reflexivity|]. vm_compute. discriminate.
  - destruct (Hsame 0%nat {[ "id" := "d1"; "subject" := "Hello" ]})
      as (d' & Hd' & Hp & _); [reflexivity|reflexivity|].
    exists d'. split; [exact Hd'|]. apply Hp. reflexivity.
Defined.

Lemma delete_undoes_create_witness :
  let s := DraftsContext.State
             [ ({[ "id" := "d1" ]} : gmap string string) ] [] in
  DraftsContext.reducer "undefined"%string
    (DraftsContext.reducer "undefined"%string s
       (DraftsContext.createDraft {[ "id" := "d2" ]}))
    (DraftsContext.deleteDraft "d2"%string) = s.
Proof.
  intros s.
  destruct (delete_undoes_create "undefined"%string s {[ "id" := "d2" ]})
    as (_ & _ & Hundo & _).
  apply Hundo. intros x Hx. in_table Hx. subst x. vm_compute. discriminate.
Defined.

Lemma getThreads_returns_whole_threads_witness :
  ∃ th, th ∈ Threads.getThreads Sample.mailbox None ∧
        Threads.threadId th = Some "t1"%string ∧
        Threads.messages th =
          [Sample.message "m1" "t1" 0; Sample.message "m3" "t1" 1].
Proof.
  destruct (getThreads_returns_whole_threads Sample.mailbox None)
    as (_ & Hwhole & Hfolder).
  destruct (Hfolder (Sample.message "m1" "t1" 0)) as (th & Hth & Hid & _).
  - apply list_elem_of_In. simpl. auto.
  - reflexivity.
  - exists th. split; [exact Hth|]. split; [exact Hid|].
    destruct (Hwhole th Hth) as (Hmsgs & _).
    rewrite Hmsgs, Hid. reflexivity.
Defined.

Lemma quoted_sender_has_no_angle_brackets_witness :
  Reply.sender [65; 32; 98]%N = [65; 32; 98]%N.
Proof.
  apply (quoted_sender_has_no_angle_brackets [65; 32; 98]%N).
  - intros Hin. in_table Hin; discriminate Hin.
  - intros Hin. in_table Hin; discriminate Hin.
Defined.

Lemma trashed_draft_cannot_be_updated_witness :
  let t1 := (run (DraftRepository.Trash (H := Example.outside)
                    Example.alice_D1 Sample.ids_draft_1) Sample.drafts []).2 in
  let t2 := (run (DraftRepository.Untrash (H := Example.outside)
                    Example.alice_D1 Sample.ids_draft_1) t1 []).2 in
  run (DraftRepository.Update (H := Example.outside) 400 Example.alice_D1
         Sample.draft_1_edited) t1 [] = (Err ErrDraftNotFound, t1) ∧
  (run (DraftRepository.Update (H := Example.outside) 400 Example.alice_D1
          Sample.draft_1_edited) t2 []).1 ≠ Err ErrDraftNotFound.
Proof.
  intros t1 t2.
  destruct (trashed_draft_cannot_be_updated (H := Example.outside) 400
              Example.alice_D1 Sample.ids_draft_1 ["draft-1"%string]
              Sample.draft_1_edited Sample.drafts) as [Hnf Hfound].
  - discriminate.
  - reflexivity.
  - apply list_elem_of_In. simpl. auto.
  - split; [exact Hnf|]. apply Hfound.
    exists Sample.draft_1. split; [|by split].
    apply list_elem_of_In. simpl. auto.
Defined.

Lemma deleted_drafts_stay_deleted_witness :
  let t1 := (run (DraftRepository.Delete (H := Example.outside)
                    Example.alice_D1 Sample.ids_draft_1) Sample.drafts []).2 in
  DraftTables.Draft t1 = [Sample.draft_2] ∧
  DraftTables.Draft
    (run (DraftRepository.Untrash (H := Example.outside)
            Example.alice_D1 Sample.ids_draft_1) t1 []).2 = DraftTables.Draft t1 ∧
  run (DraftRepository.Update (H := Example.outside) 400 Example.alice_D1
         Sample.draft_1_edited) t1 [] = (Err ErrDraftNotFound, t1).
Proof.
  intros t1.
  destruct (deleted_drafts_stay_deleted (H := Example.outside) 400 Example.alice_D1
              Sample.ids_draft_1 ["draft-1"%string] Sample.draft_1_edited
              Sample.drafts)
    as (_ & Hbulk & Hup).
  - discriminate.
  - reflexivity.
  - split; [reflexivity|]. split.
    + apply (Hbulk Bulk.Untrash).
    + apply Hup. apply list_elem_of_In. simpl. auto.
Defined.

Lemma created_draft_is_listed_witness :
  ∃ t',
    run (DraftRepository.Create (H := Example.outside) Sample.draft_defaults
           (DraftDefaults.Mk None false None) "m-3" "t-3" Example.alice_D1
           Sample.draft_1_edited) Sample.drafts [] =
      (Ok (Draft.Mk "draft-3" 1 "m-3" None "t-3" false false (Some "{}") None
             300 None 0 0 0 (Some "device:D1")), t') ∧
    DraftTables.Draft t' =
      DraftTables.Draft Sample.drafts ++
        [Draft.Mk "draft-3" 1 "m-3" None "t-3" false false (Some "{}") None
           300 None 3 3 0 (Some "D1")] ∧
    ∃ u t'', run (DraftRepository.Update (H := Example.outside) 500
                    Example.alice_D1 Sample.draft_3_edited) t' [] = (Ok u, t'') ∧
             Draft.Payload u = Some "{}"%string ∧ Draft.ThreadUid u = "t-3" ∧
             Draft.HistoryId u = 3 ∧ Draft.ModifiedAt u = None ∧
             Draft.DeviceId u = Some "device:D1"%string.
Proof.
  destruct (created_draft_is_listed (H := Example.outside) Sample.draft_defaults
              (DraftDefaults.Mk None false None) "m-3" "t-3" Example.alice_D1
              Sample.draft_1_edited Sample.drafts)
    as (t' & Hrun & Htable & _ & _ & Hedit).
  exists t'. split; [exact Hrun|]. split; [exact Htable|].
  destruct (Hedit) with (now := 500) (edited := Sample.draft_3_edited)
    as (u & t'' & Hupd & _ & Hp & _ & Ht & Hh & _ & Hm & Hd).
  - intros x Hx _ Heq. in_table Hx; subst x; discriminate Heq.
  - reflexivity.
  - exists u, t''. split; [exact Hupd|]. split; [exact Hp|].
    split; [exact Ht|]. split; [exact Hh|]. split; [exact Hm|exact Hd].
Defined.
